(** * Jeux: a multi-threaded tic-tac-toe server

    A shallow embedding of the session and coordination layer of the
    server (game.c, player.c, invitation.c, client.c, client_registry.c,
    player_registry.c, protocol.c, server.c) and the properties of its
    specification that are stated about it.

    Conventions of the embedding.
    - C [int]s are [Z]; the counters and board cells of this program stay
      far from the limits of [int], so no wrap-around is written out for
      them.  The 16-bit [size] field of a packet header is a [Z] with its
      truncation and byte swap written out.
    - A C string is a [string]; the primitives [strlen], [strcat] and
      [strcmp] stop at the first NUL character as they do in C.
    - Heap objects that are shared through pointers (PLAYER, CLIENT,
      INVITATION) live in finite maps from addresses to records; a pointer
      is an address and a pointer that may be NULL is an [option].
    - Every request is run to completion before the next one starts: the
      mutexes of the source are not modelled. *)

From Stdlib Require Import ZArith QArith String Ascii List Lia Lqa DecimalString.
From stdpp Require Import gmap strings list.

Local Open Scope string_scope.
Local Open Scope Z_scope.

(** ** C strings *)

Definition NUL : ascii := Ascii.zero.

(** The characters of a buffer up to (not including) its first NUL. *)
Fixpoint cstr (s : string) : string :=
  match s with
  | EmptyString => EmptyString
  | String c r => if Ascii.eqb c NUL then EmptyString else String c (cstr r)
  end.

Fixpoint strlen_nat (s : string) : nat :=
  match s with
  | EmptyString => O
  | String c r => if Ascii.eqb c NUL then O else S (strlen_nat r)
  end.

Definition strlen (s : string) : Z := Z.of_nat (strlen_nat s).

(** [strcat(dst, src)]: the contents of [dst] followed by those of [src]. *)
Definition strcat (dst src : string) : string := cstr dst +:+ cstr src.

(** [strcmp(a, b) == 0]. *)
Definition strcmp_eq (a b : string) : bool := String.eqb (cstr a) (cstr b).

(** [char] is signed on the platforms the server is built for. *)
Definition char_val (c : ascii) : Z :=
  let n := Z.of_N (N_of_ascii c) in if n <? 128 then n else n - 256.

(** [str[i]]; reading the terminating NUL gives 0. *)
Definition str_at (s : string) (i : nat) : Z :=
  match String.get i s with
  | Some c => char_val c
  | None => 0
  end.

Definition chr (s : string) : Z := str_at s 0.

(** [sprintf(buf, "%d", n)]. *)
Definition sprintf_d (n : Z) : string := NilEmpty.string_of_int (Z.to_int n).

(** ** game.c *)

Inductive GAME_ROLE : Set :=
| NULL_ROLE
| FIRST_PLAYER_ROLE
| SECOND_PLAYER_ROLE.

#[global] Instance GAME_ROLE_eq_dec : EqDecision GAME_ROLE.
Proof. solve_decision. Defined.

(** The value of the enumeration constant. *)
Definition role_val (r : GAME_ROLE) : Z :=
  match r with
  | NULL_ROLE => 0
  | FIRST_PLAYER_ROLE => 1
  | SECOND_PLAYER_ROLE => 2
  end.

Definition MAX_BOARD_NUM : nat := 9.

Record GAME : Set := mkGAME {
  turn_X : Z;          (* 1 if it is X's turn, 0 otherwise *)
  num_turns : Z;
  board : list Z;      (* 0 means space, 1 if X, and 2 if O *)
  winner : GAME_ROLE;
  terminated : Z;
  game_ref_count : Z
}.

Record GAME_MOVE : Set := mkGAME_MOVE {
  move_player : Z;     (* 1 or 2 *)
  move_square : Z      (* 1-9 *)
}.

(** [game->board[i]] *)
Definition cell (g : GAME) (i : nat) : Z := nth i (board g) 0.

Definition win (game : GAME) (player : Z) : Z :=
  let b i := cell game i =? player in
  if (b 0%nat && b 1%nat && b 2%nat) ||
     (b 3%nat && b 4%nat && b 5%nat) ||
     (b 6%nat && b 7%nat && b 8%nat) ||
     (b 0%nat && b 3%nat && b 6%nat) ||
     (b 1%nat && b 4%nat && b 7%nat) ||
     (b 2%nat && b 5%nat && b 8%nat) ||
     (b 0%nat && b 4%nat && b 8%nat) ||
     (b 2%nat && b 4%nat && b 6%nat)
  then 1 else 0.

Definition game_create : GAME :=
  {| turn_X := 1; num_turns := 0; board := repeat 0 MAX_BOARD_NUM;
     winner := NULL_ROLE; terminated := 0; game_ref_count := 1 |}.

(** [game->board[i] = v] *)
Definition set_cell (g : GAME) (i : nat) (v : Z) : GAME :=
  {| turn_X := turn_X g; num_turns := num_turns g;
     board := <[i := v]> (board g);
     winner := winner g; terminated := terminated g;
     game_ref_count := game_ref_count g |}.

Definition set_turn_X (g : GAME) (v : Z) : GAME :=
  {| turn_X := v; num_turns := num_turns g; board := board g;
     winner := winner g; terminated := terminated g;
     game_ref_count := game_ref_count g |}.

Definition set_num_turns (g : GAME) (v : Z) : GAME :=
  {| turn_X := turn_X g; num_turns := v; board := board g;
     winner := winner g; terminated := terminated g;
     game_ref_count := game_ref_count g |}.

Definition set_winner (g : GAME) (v : GAME_ROLE) : GAME :=
  {| turn_X := turn_X g; num_turns := num_turns g; board := board g;
     winner := v; terminated := terminated g;
     game_ref_count := game_ref_count g |}.

Definition set_terminated (g : GAME) (v : Z) : GAME :=
  {| turn_X := turn_X g; num_turns := num_turns g; board := board g;
     winner := winner g; terminated := v;
     game_ref_count := game_ref_count g |}.

(** The test that rejects a move in [game_apply_move]. *)
Definition illegal_move (game : GAME) (move : GAME_MOVE) : bool :=
  (move_square move <? 1) || (move_square move >? 9)
  || negb (cell game (Z.to_nat (move_square move - 1)) =? 0)
  || ((move_player move =? 1) && negb (turn_X game =? 1))
  || ((move_player move =? 2) && negb (turn_X game =? 0))
  || negb (terminated game =? 0).

(** [game_apply_move]: the game after the call and the returned code.
    A NULL game or move is refused before anything is read. *)
Definition game_apply_move (game : option GAME) (move : option GAME_MOVE)
  : option GAME * Z :=
  match game, move with
  | Some g, Some m =>
    if illegal_move g m then (Some g, -1)
    else
      let g := set_cell g (Z.to_nat (move_square m - 1)) (move_player m) in
      let g := set_turn_X g (if negb (turn_X g =? 0) then 0 else 1) in
      let g := if negb (win g 1 =? 0)
               then set_terminated (set_winner g FIRST_PLAYER_ROLE) 1 else g in
      let g := if negb (win g 2 =? 0)
               then set_terminated (set_winner g SECOND_PLAYER_ROLE) 1 else g in
      let g := set_num_turns g (num_turns g + 1) in
      let g := if num_turns g >=? 9 then set_terminated g 1 else g in
      (Some g, 0)
  | _, _ => (game, -1)
  end.

Definition game_resign (game : option GAME) (role : GAME_ROLE)
  : option GAME * Z :=
  match game with
  | None => (None, -1)
  | Some g =>
    if negb (terminated g =? 0) then (Some g, -1)
    else
      let g := set_terminated g 1 in
      let g := set_winner g (if decide (role = FIRST_PLAYER_ROLE)
                             then SECOND_PLAYER_ROLE else FIRST_PLAYER_ROLE) in
      (Some g, 0)
  end.

Definition cell_str (v : Z) : string :=
  if v =? 0 then " " else if v =? 1 then "X" else "O".

Definition newline : string := String (ascii_of_nat 10) EmptyString.

Definition game_unparse_state (game : GAME) : string :=
  let s := "" in
  let s := strcat s (cell_str (cell game 0)) in
  let s := strcat s "|" in
  let s := strcat s (cell_str (cell game 1)) in
  let s := strcat s "|" in
  let s := strcat s (cell_str (cell game 2)) in
  let s := strcat s newline in
  let s := strcat s ("-----" +:+ newline) in
  let s := strcat s (cell_str (cell game 3)) in
  let s := strcat s "|" in
  let s := strcat s (cell_str (cell game 4)) in
  let s := strcat s "|" in
  let s := strcat s (cell_str (cell game 5)) in
  let s := strcat s newline in
  let s := strcat s ("-----" +:+ newline) in
  let s := strcat s (cell_str (cell game 6)) in
  let s := strcat s "|" in
  let s := strcat s (cell_str (cell game 7)) in
  let s := strcat s "|" in
  let s := strcat s (cell_str (cell game 8)) in
  let s := strcat s newline in
  let s := strcat s "It's " in
  let s := strcat s (if negb (turn_X game =? 0) then "X" else "O") in
  let s := strcat s ("'s turn" +:+ newline +:+ String NUL EmptyString) in
  s.

Definition game_is_over (game : GAME) : Z :=
  if negb (terminated game =? 0) then 1 else 0.

Definition game_get_winner (game : option GAME) : GAME_ROLE :=
  match game with
  | None => NULL_ROLE
  | Some g =>
    if negb (terminated g =? 0) then winner g
    else if negb (win g 1 =? 0) then FIRST_PLAYER_ROLE
    else if negb (win g 2 =? 0) then SECOND_PLAYER_ROLE
    else NULL_ROLE
  end.

(** The guard at the head of [game_parse_move]: a role other than
    NULL_ROLE has to be the one that is on the move. *)
Definition role_out_of_turn (game : GAME) (role : GAME_ROLE) : bool :=
  negb (bool_decide (role = NULL_ROLE))
  && ((bool_decide (role = FIRST_PLAYER_ROLE) && (turn_X game =? 0))
      || (bool_decide (role = SECOND_PLAYER_ROLE) && negb (turn_X game =? 0))).

Definition game_parse_move (game : GAME) (role : GAME_ROLE) (str : string)
  : option GAME_MOVE :=
  let len := strlen str in
  if role_out_of_turn game role then None
  else if len =? 1 then
    if (str_at str 0 <? chr "1") || (str_at str 0 >? chr "9") then None
    else
      let square := str_at str 0 - chr "0" in
      let player := if decide (role = FIRST_PLAYER_ROLE) then 1 else 2 in
      Some {| move_player := player; move_square := square |}
  else if len =? 4 then
    if (str_at str 0 <? chr "1") || (str_at str 0 >? chr "9") then None
    else if negb (str_at str 1 =? chr "<") || negb (str_at str 2 =? chr "-")
            || (negb (str_at str 3 =? chr "X") && negb (str_at str 3 =? chr "O"))
    then None
    else
      let square := str_at str 0 - chr "0" in
      let player := if str_at str 3 =? chr "X" then 1 else 2 in
      Some {| move_player := player; move_square := square |}
  else None.

Definition game_unparse_move (move : GAME_MOVE) : string :=
  let player_str := if move_player move =? 1 then "X" else "O" in
  let square_str := sprintf_d (move_square move) in
  let result := "" in
  let result := strcat result square_str in
  let result := strcat result "<-" in
  let result := strcat result player_str in
  result.


(** ** Shared objects and the state of the server *)

(** An address in one of the heaps below. *)
Definition ptr : Set := nat.

(** Modelled from the spec: [PLAYER_INITIAL_RATING] of player.h, which is
    not among the sources; the data model gives the initial rating 1500. *)
Definition PLAYER_INITIAL_RATING : Q := 1500 # 1.

(** Modelled from the spec: [MAX_CLIENTS] of client_registry.h, which is
    not among the sources; the registry has a bounded capacity of 64. *)
Definition MAX_CLIENTS : Z := 64.

(** player.c: [struct player].  The [double] rating is idealised as an
    exact rational. *)
Record PLAYER : Set := mkPLAYER {
  username : string;
  rating : Q;
  player_ref_count : Z
}.

(** The commented out enumeration at the head of invitation.c. *)
Inductive INVITATION_STATE : Set :=
| INV_OPEN_STATE
| INV_ACCEPTED_STATE
| INV_CLOSED_STATE.

#[global] Instance INVITATION_STATE_eq_dec : EqDecision INVITATION_STATE.
Proof. solve_decision. Defined.

(** invitation.c: [struct invitation].  The GAME of an invitation is
    reached through the invitation only (no other pointer to it is ever
    stored), so it is held by value and updates are written back. *)
Record INVITATION : Set := mkINVITATION {
  inv_ref_count : Z;
  sender : option ptr;
  recipient : option ptr;
  source_role : GAME_ROLE;
  target_role : GAME_ROLE;
  game : option GAME;
  state : INVITATION_STATE
}.

(** client.c: [struct invitation_node]; the links of the list are the
    order of the [list] that holds the nodes. *)
Record INVITATION_NODE : Set := mkNODE {
  invitation : ptr;
  node_id : Z
}.

(** client.c: [struct client]. *)
Record CLIENT : Set := mkCLIENT {
  fd : Z;
  client_ref_count : Z;
  logged_in : Z;
  player : option ptr;
  invitations_head : list INVITATION_NODE
}.

(** The fields of [JEUX_PACKET_HEADER] as listed at the head of
    protocol.c, without the two time stamps, which are read from the
    clock when the packet is written. *)
Record JEUX_PACKET_HEADER : Set := mkHDR {
  pkt_type : Z;   (* uint8_t *)
  pkt_id : Z;     (* uint8_t *)
  pkt_role : Z;   (* uint8_t *)
  pkt_size : Z    (* uint16_t *)
}.

(** A call of [client_send_packet]: the client addressed, the header and
    payload handed over and the value returned. *)
Record SEND : Set := mkSEND {
  send_to : ptr;
  send_hdr : JEUX_PACKET_HEADER;
  send_data : option string;
  send_result : Z
}.

(** The state of the server process.
    - [players], [invitations], [clients]: the heaps.  [free] is not
      modelled: an object whose reference count has reached zero stays at
      its address.
    - [creg_head], [client_count]: the client registry (head of the list
      first).
    - [preg_head]: the player registry.
    - [broken]: the descriptors on which [rio_writen] fails, each with
      the value it leaves in [errno].
    - [errno]: the variable of that name.
    - [node_mallocs]: the outcomes of the coming calls of
      [malloc(sizeof(INVITATION_NODE))], [true] for success; once the
      list is used up the allocation succeeds.  All other allocations are
      taken to succeed.
    - [wire]: the calls of [client_send_packet] so far, latest first. *)
Record World : Type := mkWorld {
  players : gmap ptr PLAYER;
  invitations : gmap ptr INVITATION;
  clients : gmap ptr CLIENT;
  creg_head : list ptr;
  client_count : Z;
  preg_head : list (string * ptr);
  broken : list (Z * Z);
  errno : Z;
  node_mallocs : list bool;
  wire : list SEND
}.

Definition set_players (f : gmap ptr PLAYER -> gmap ptr PLAYER) (w : World) : World :=
  mkWorld (f (players w)) (invitations w) (clients w) (creg_head w)
          (client_count w) (preg_head w) (broken w) (errno w) (node_mallocs w) (wire w).

Definition set_invitations (f : gmap ptr INVITATION -> gmap ptr INVITATION)
  (w : World) : World :=
  mkWorld (players w) (f (invitations w)) (clients w) (creg_head w)
          (client_count w) (preg_head w) (broken w) (errno w) (node_mallocs w) (wire w).

Definition set_clients (f : gmap ptr CLIENT -> gmap ptr CLIENT) (w : World) : World :=
  mkWorld (players w) (invitations w) (f (clients w)) (creg_head w)
          (client_count w) (preg_head w) (broken w) (errno w) (node_mallocs w) (wire w).

Definition set_creg (l : list ptr) (n : Z) (w : World) : World :=
  mkWorld (players w) (invitations w) (clients w) l n
          (preg_head w) (broken w) (errno w) (node_mallocs w) (wire w).

Definition set_preg (l : list (string * ptr)) (w : World) : World :=
  mkWorld (players w) (invitations w) (clients w) (creg_head w)
          (client_count w) l (broken w) (errno w) (node_mallocs w) (wire w).

Definition set_node_mallocs (l : list bool) (w : World) : World :=
  mkWorld (players w) (invitations w) (clients w) (creg_head w)
          (client_count w) (preg_head w) (broken w) (errno w) l (wire w).

Definition set_broken (l : list (Z * Z)) (w : World) : World :=
  mkWorld (players w) (invitations w) (clients w) (creg_head w)
          (client_count w) (preg_head w) l (errno w) (node_mallocs w) (wire w).

Definition set_errno (e : Z) (w : World) : World :=
  mkWorld (players w) (invitations w) (clients w) (creg_head w)
          (client_count w) (preg_head w) (broken w) e (node_mallocs w) (wire w).

Definition set_wire (l : list SEND) (w : World) : World :=
  mkWorld (players w) (invitations w) (clients w) (creg_head w)
          (client_count w) (preg_head w) (broken w) (errno w) (node_mallocs w) l.

(** The server before the first connection. *)
Definition initial_world : World :=
  mkWorld ∅ ∅ ∅ [] 0 [] [] 0 [] [].

(** *** A state monad for the functions that work on the heaps *)

Definition M (A : Type) : Type := World -> A * World.

Definition ret {A : Type} (a : A) : M A := fun w => (a, w).

Definition bind {A B : Type} (m : M A) (k : A -> M B) : M B :=
  fun w => let '(a, w') := m w in k a w'.

Definition gets {A : Type} (f : World -> A) : M A := fun w => (f w, w).

Definition modify (f : World -> World) : M unit := fun w => (tt, f w).

Declare Scope jeux_scope.
Delimit Scope jeux_scope with jeux.
Notation "x <- m ;; k" := (bind m (fun x => k))
  (at level 100, m at next level, k at level 200, right associativity) : jeux_scope.
Notation "m ;;; k" := (bind m (fun _ => k))
  (at level 100, k at level 200, right associativity) : jeux_scope.
Local Open Scope jeux_scope.

(** Reading through a pointer.  The objects below stand for memory that
    was never written; they are what a read through an address outside
    the heap yields, which does not happen for the addresses the server
    hands around. *)
Definition no_player : PLAYER := mkPLAYER "" (0 # 1) 0.
Definition no_invitation : INVITATION :=
  mkINVITATION 0 None None NULL_ROLE NULL_ROLE None INV_OPEN_STATE.
Definition no_client : CLIENT := mkCLIENT 0 0 0 None [].

Definition the_player (p : ptr) (w : World) : PLAYER :=
  default no_player (players w !! p).
Definition the_invitation (p : ptr) (w : World) : INVITATION :=
  default no_invitation (invitations w !! p).
Definition the_client (p : ptr) (w : World) : CLIENT :=
  default no_client (clients w !! p).

(** Writing through a pointer. *)
Definition upd_player (p : ptr) (f : PLAYER -> PLAYER) : M unit :=
  modify (set_players (alter f p)).
Definition upd_invitation (p : ptr) (f : INVITATION -> INVITATION) : M unit :=
  modify (set_invitations (alter f p)).
Definition upd_client (p : ptr) (f : CLIENT -> CLIENT) : M unit :=
  modify (set_clients (alter f p)).

(** [(int) x] for a [double] [x]: truncation towards zero. *)
Definition double_to_int (x : Q) : Z := Z.quot (Qnum x) (Z.pos (Qden x)).

(** A stand-in for [pow(10.0, x)], used to run the model on examples. *)
Definition pow10_one (x : Q) : Q := 1 # 1.

Section Jeux.

(** [pow(10.0, x)] of the C library, which the rating update calls. *)
Variable pow10 : Q -> Q.

(** ** player.c *)

Definition player_create (name : string) : M (option ptr) :=
  fun w =>
    let p := fresh (dom (players w)) in
    (Some p,
     set_players <[p := mkPLAYER (cstr name) PLAYER_INITIAL_RATING 1]> w).

Definition with_player_ref_count (n : Z) (pl : PLAYER) : PLAYER :=
  mkPLAYER (username pl) (rating pl) n.

Definition with_rating (r : Q) (pl : PLAYER) : PLAYER :=
  mkPLAYER (username pl) r (player_ref_count pl).

Definition player_ref (player : option ptr) : M (option ptr) :=
  match player with
  | None => ret None
  | Some p =>
    upd_player p (fun pl => with_player_ref_count (player_ref_count pl + 1) pl) ;;;
    ret (Some p)
  end.

Definition player_unref (player : option ptr) : M unit :=
  match player with
  | None => ret tt
  | Some p =>
    upd_player p (fun pl => with_player_ref_count (player_ref_count pl - 1) pl)
    (* at zero the name and the PLAYER are freed *)
  end.

Definition player_get_name (player : option ptr) : M (option string) :=
  match player with
  | None => ret None
  | Some p => gets (fun w => Some (username (the_player p w)))
  end.

Definition player_get_rating (player : option ptr) : M Z :=
  match player with
  | None => ret (-1)
  | Some p => gets (fun w => double_to_int (rating (the_player p w)))
  end.

(** The scores that [player_post_result] gives to a result, [None] for
    a result that it ignores. *)
Definition result_scores (result : Z) : option (Q * Q) :=
  if result =? 0 then Some (1 # 2, 1 # 2)
  else if result =? 1 then Some (1 # 1, 0 # 1)
  else if result =? 2 then Some (0 # 1, 1 # 1)
  else None.

(** [player_post_result].  Both pointers are read before either rating
    is written; with a NULL pointer the C function faults, here nothing
    is done.  The arithmetic on [double] is idealised: the operations are
    those of the C expressions, without their rounding, so only what
    rounding cannot change is stated of the ratings below (which result
    is posted for which players, and the sign of a change). *)
Definition player_post_result (player1 player2 : option ptr) (result : Z)
  : M unit :=
  match result_scores result with
  | None => ret tt
  | Some (score1, score2) =>
    match player1, player2 with
    | Some p1, Some p2 =>
      r1 <- gets (fun w => rating (the_player p1 w)) ;;
      r2 <- gets (fun w => rating (the_player p2 w)) ;;
      let rating_diff := (r2 - r1)%Q in
      let exponent := (rating_diff / (400 # 1))%Q in
      let expected1 := (1 / (1 + pow10 exponent))%Q in
      let expected2 := (1 / (1 + pow10 (- exponent)))%Q in
      let rating_change1 := ((32 # 1) * (score1 - expected1))%Q in
      let rating_change2 := ((32 # 1) * (score2 - expected2))%Q in
      upd_player p1 (fun pl => with_rating (rating pl + rating_change1)%Q pl) ;;;
      upd_player p2 (fun pl => with_rating (rating pl + rating_change2)%Q pl)
    | _, _ => ret tt
    end
  end.

(** ** player_registry.c *)

Fixpoint preg_find (l : list (string * ptr)) (name : string) : option ptr :=
  match l with
  | [] => None
  | (n, p) :: r => if strcmp_eq n name then Some p else preg_find r name
  end.

Definition preg_register (name : string) : M (option ptr) :=
  found <- gets (fun w => preg_find (preg_head w) name) ;;
  match found with
  | Some p => player_ref (Some p) ;;; ret (Some p)
  | None =>
    player <- player_create name ;;
    match player with
    | None => ret None
    | Some p =>
      modify (fun w => set_preg ((cstr name, p) :: preg_head w) w) ;;;
      player_ref (Some p) ;;;
      ret (Some p)
    end
  end.

(** ** client.c: reference counts *)

Definition with_client_ref_count (n : Z) (c : CLIENT) : CLIENT :=
  mkCLIENT (fd c) n (logged_in c) (player c) (invitations_head c).

Definition with_login (l : Z) (p : option ptr) (c : CLIENT) : CLIENT :=
  mkCLIENT (fd c) (client_ref_count c) l p (invitations_head c).

Definition with_invitations_head (l : list INVITATION_NODE) (c : CLIENT) : CLIENT :=
  mkCLIENT (fd c) (client_ref_count c) (logged_in c) (player c) l.

Definition client_create (fd : Z) : M (option ptr) :=
  fun w =>
    let c := fresh (dom (clients w)) in
    (Some c, set_clients <[c := mkCLIENT fd 1 0 None []]> w).

Definition client_ref (client : option ptr) : M (option ptr) :=
  match client with
  | None => ret None
  | Some c =>
    upd_client c (fun cl => with_client_ref_count (client_ref_count cl + 1) cl) ;;;
    ret (Some c)
  end.

Definition client_unref (client : option ptr) : M unit :=
  match client with
  | None => ret tt
  | Some c =>
    upd_client c (fun cl => with_client_ref_count (client_ref_count cl - 1) cl) ;;;
    n <- gets (fun w => client_ref_count (the_client c w)) ;;
    if n =? 0 then
      (* the CLIENT is freed *)
      p <- gets (fun w => player (the_client c w)) ;;
      match p with
      | Some _ => player_unref p
      | None => ret tt
      end
    else ret tt
  end.

(** ** invitation.c *)

Definition with_inv_ref_count (n : Z) (i : INVITATION) : INVITATION :=
  mkINVITATION n (sender i) (recipient i) (source_role i) (target_role i)
               (game i) (state i).

Definition with_state (s : INVITATION_STATE) (i : INVITATION) : INVITATION :=
  mkINVITATION (inv_ref_count i) (sender i) (recipient i) (source_role i)
               (target_role i) (game i) s.

Definition with_game (g : option GAME) (i : INVITATION) : INVITATION :=
  mkINVITATION (inv_ref_count i) (sender i) (recipient i) (source_role i)
               (target_role i) g (state i).

Definition inv_create (source target : option ptr)
  (source_role target_role : GAME_ROLE) : M (option ptr) :=
  inv <- (fun w =>
    let i := fresh (dom (invitations w)) in
    (i, set_invitations
          <[i := mkINVITATION 1 source target source_role target_role
                              None INV_OPEN_STATE]> w)) ;;
  client_ref source ;;;
  client_ref target ;;;
  ret (Some inv).

Definition inv_ref (inv : option ptr) : M (option ptr) :=
  match inv with
  | None => ret None
  | Some i =>
    upd_invitation i (fun x => with_inv_ref_count (inv_ref_count x + 1) x) ;;;
    ret (Some i)
  end.

(** [game_unref] of game.c on the GAME held by an invitation. *)
Definition game_unref (g : GAME) : GAME :=
  mkGAME (turn_X g) (num_turns g) (board g) (winner g) (terminated g)
         (game_ref_count g - 1).

Definition inv_unref (inv : option ptr) : M unit :=
  match inv with
  | None => ret tt
  | Some i =>
    upd_invitation i (fun x => with_inv_ref_count (inv_ref_count x - 1) x) ;;;
    x <- gets (the_invitation i) ;;
    if inv_ref_count x =? 0 then
      (match sender x with Some _ => client_unref (sender x) | None => ret tt end) ;;;
      (match recipient x with Some _ => client_unref (recipient x) | None => ret tt end) ;;;
      (match game x with
       | Some _ => upd_invitation i (fun y => with_game (game_unref <$> game y) y)
       | None => ret tt
       end)
      (* the INVITATION is freed *)
    else ret tt
  end.

Definition inv_get_source (inv : option ptr) : M (option ptr) :=
  match inv with
  | None => ret None
  | Some i => gets (fun w => sender (the_invitation i w))
  end.

Definition inv_get_target (inv : option ptr) : M (option ptr) :=
  match inv with
  | None => ret None
  | Some i => gets (fun w => recipient (the_invitation i w))
  end.

Definition inv_get_source_role (inv : option ptr) : M GAME_ROLE :=
  match inv with
  | None => ret NULL_ROLE
  | Some i => gets (fun w => source_role (the_invitation i w))
  end.

Definition inv_get_target_role (inv : option ptr) : M GAME_ROLE :=
  match inv with
  | None => ret NULL_ROLE
  | Some i => gets (fun w => target_role (the_invitation i w))
  end.

Definition inv_get_game (inv : option ptr) : M (option GAME) :=
  match inv with
  | None => ret None
  | Some i => gets (fun w => game (the_invitation i w))
  end.

(** The body of [inv_accept] on the INVITATION it is given.  [game_create]
    is taken to succeed, so the exit for a NULL game is not taken. *)
Definition accept_invitation (x : INVITATION) : INVITATION * Z :=
  if negb (bool_decide (state x = INV_OPEN_STATE)) then (x, -1)
  else
    let x := with_state INV_ACCEPTED_STATE x in
    let x := with_game (Some game_create) x in
    match game x with
    | None => (x, -1)
    | Some _ => (x, 0)
    end.

Definition inv_accept (inv : option ptr) : M Z :=
  match inv with
  | None => ret (-1)
  | Some i =>
    r <- gets (fun w => snd (accept_invitation (the_invitation i w))) ;;
    upd_invitation i (fun x => fst (accept_invitation x)) ;;;
    ret r
  end.

(** The body of [inv_close] on the INVITATION it is given. *)
Definition close_invitation (x : INVITATION) (role : GAME_ROLE)
  : INVITATION * Z :=
  if bool_decide (role = NULL_ROLE) && bool_decide (game x <> None) then (x, -1)
  else if negb (bool_decide (state x = INV_OPEN_STATE))
          && negb (bool_decide (state x = INV_ACCEPTED_STATE)) then (x, -1)
  else
    let x := if bool_decide (state x = INV_ACCEPTED_STATE)
                && bool_decide (game x <> None)
             then with_game (fst (game_resign (game x) role)) x
             else x in
    let x := with_state INV_CLOSED_STATE x in
    (x, 0).

Definition inv_close (inv : option ptr) (role : GAME_ROLE) : M Z :=
  match inv with
  | None => ret (-1)
  | Some i =>
    r <- gets (fun w => snd (close_invitation (the_invitation i w) role)) ;;
    upd_invitation i (fun x => fst (close_invitation x role)) ;;;
    ret r
  end.

(** ** protocol.c *)

(** Modelled from the spec: the packet types of protocol.h, which is not
    among the sources, numbered in the order of the message table of the
    wire codec, after the unused type 0. *)
Definition JEUX_NO_PKT : Z := 0.
Definition JEUX_LOGIN_PKT : Z := 1.
Definition JEUX_USERS_PKT : Z := 2.
Definition JEUX_INVITE_PKT : Z := 3.
Definition JEUX_REVOKE_PKT : Z := 4.
Definition JEUX_ACCEPT_PKT : Z := 5.
Definition JEUX_DECLINE_PKT : Z := 6.
Definition JEUX_MOVE_PKT : Z := 7.
Definition JEUX_RESIGN_PKT : Z := 8.
Definition JEUX_ACK_PKT : Z := 9.
Definition JEUX_NACK_PKT : Z := 10.
Definition JEUX_INVITED_PKT : Z := 11.
Definition JEUX_REVOKED_PKT : Z := 12.
Definition JEUX_ACCEPTED_PKT : Z := 13.
Definition JEUX_DECLINED_PKT : Z := 14.
Definition JEUX_MOVED_PKT : Z := 15.
Definition JEUX_RESIGNED_PKT : Z := 16.
Definition JEUX_ENDED_PKT : Z := 17.

(** Conversion to [uint8_t] and [uint16_t]. *)
Definition u8 (x : Z) : Z := x mod 256.
Definition u16 (x : Z) : Z := x mod 65536.

(** [htons] and [ntohs] on a little-endian host: the two bytes swapped. *)
Definition htons (x : Z) : Z :=
  let x := u16 x in
  Z.lor (Z.shiftl (Z.land x 255) 8) (Z.land (Z.shiftr x 8) 255).
Definition ntohs (x : Z) : Z := htons x.

Definition EPIPE : Z := 32.

(** The error of a write on [fd], if it fails. *)
Fixpoint write_error (fd : Z) (l : list (Z * Z)) : option Z :=
  match l with
  | [] => None
  | (d, e) :: r => if d =? fd then Some e else write_error fd r
  end.

(** [proto_send_packet]: the returned code.  The bytes written are not
    kept; the caller records the packet. *)
Definition proto_send_packet (fd : Z) (hdr : JEUX_PACKET_HEADER)
  (data : option string) : M Z :=
  modify (set_errno 0) ;;;
  let payload_size := ntohs (pkt_size hdr) in
  if ((payload_size =? 0) && bool_decide (data <> None))
     || (negb (payload_size =? 0) && bool_decide (data = None))
  then ret (-1)
  else
    bad <- gets (fun w => write_error fd (broken w)) ;;
    match bad with
    | Some e => modify (set_errno e) ;;; ret (-1)
    | None => ret 0
    end.

(** ** client.c *)

Fixpoint id_exists (l : list INVITATION_NODE) (id : Z) : Z :=
  match l with
  | [] => 0
  | n :: r => if node_id n =? id then 1 else id_exists r id
  end.

Definition id_exists_in_client_invitation (client : ptr) (id : Z) : M Z :=
  gets (fun w => id_exists (invitations_head (the_client client w)) id).

(** The loop of [find_lowest_id_availalble], started at [i] and run for
    at most [fuel] rounds. *)
Fixpoint lowest_id_from (fuel : nat) (l : list INVITATION_NODE) (i : Z)
  : option Z :=
  match fuel with
  | O => None
  | S fuel' =>
    if id_exists l i =? 0 then Some i else lowest_id_from fuel' l (i + 1)
  end.

(** [find_lowest_id_availalble]; one round more than the list has nodes
    is enough for the loop to end ([lowest_id_from_total] below). *)
Definition find_lowest_id_availalble (client : ptr) : M Z :=
  gets (fun w =>
    let l := invitations_head (the_client client w) in
    default 0 (lowest_id_from (S (length l)) l 0)).

Definition client_get_player (client : option ptr) : M (option ptr) :=
  match client with
  | None => ret None
  | Some c =>
    gets (fun w =>
      if negb (logged_in (the_client c w) =? 0)
      then player (the_client c w) else None)
  end.

Definition client_get_fd (client : ptr) : M Z :=
  gets (fun w => fd (the_client client w)).

Definition client_send_packet (client : option ptr) (pkt : JEUX_PACKET_HEADER)
  (data : option string) : M Z :=
  match client with
  | None => ret (-1)
  | Some c =>
    d <- client_get_fd c ;;
    r <- proto_send_packet d pkt data ;;
    modify (fun w => set_wire (mkSEND c pkt data r :: wire w) w) ;;;
    ret r
  end.

Definition make_packet (type : Z) (size : Z) : JEUX_PACKET_HEADER :=
  mkHDR (u8 type) 0 0 (htons size).

Definition with_pkt_id (v : Z) (h : JEUX_PACKET_HEADER) : JEUX_PACKET_HEADER :=
  mkHDR (pkt_type h) (u8 v) (pkt_role h) (pkt_size h).

Definition with_pkt_role (v : Z) (h : JEUX_PACKET_HEADER) : JEUX_PACKET_HEADER :=
  mkHDR (pkt_type h) (pkt_id h) (u8 v) (pkt_size h).

Definition with_pkt_size (v : Z) (h : JEUX_PACKET_HEADER) : JEUX_PACKET_HEADER :=
  mkHDR (pkt_type h) (pkt_id h) (pkt_role h) (u16 v).

Definition client_send_ack (client : option ptr) (data : option string)
  (datalen : Z) : M Z :=
  let ack_pkt := make_packet JEUX_ACK_PKT datalen in
  r <- client_send_packet client ack_pkt data ;;
  if r =? -1 then ret (-1) else ret 0.

Definition client_send_nack (client : option ptr) : M Z :=
  let nack_pkt := make_packet JEUX_NACK_PKT 0 in
  r <- client_send_packet client nack_pkt None ;;
  if r =? -1 then ret (-1) else ret 0.

(** The outcome of the next [malloc(sizeof(INVITATION_NODE))]. *)
Definition malloc_node : M bool :=
  fun w =>
    match node_mallocs w with
    | [] => (true, w)
    | b :: r => (b, set_node_mallocs r w)
    end.

Definition client_add_invitation (client inv : option ptr) : M Z :=
  match client, inv with
  | Some c, Some i =>
    ok <- malloc_node ;;
    if negb ok then ret (-1)
    else
      id <- find_lowest_id_availalble c ;;
      upd_client c (fun cl =>
        with_invitations_head (mkNODE i id :: invitations_head cl) cl) ;;;
      inv_ref inv ;;;
      ret id
  | _, _ => ret (-1)
  end.

(** The first node of the list that holds [inv]. *)
Fixpoint find_node_by_inv (l : list INVITATION_NODE) (inv : ptr)
  : option INVITATION_NODE :=
  match l with
  | [] => None
  | n :: r => if decide (invitation n = inv) then Some n else find_node_by_inv r inv
  end.

(** The first node of the list whose id is [id]. *)
Fixpoint find_node_by_id (l : list INVITATION_NODE) (id : Z)
  : option INVITATION_NODE :=
  match l with
  | [] => None
  | n :: r => if node_id n =? id then Some n else find_node_by_id r id
  end.

(** The list without the first node that holds [inv]. *)
Fixpoint unlink_node (l : list INVITATION_NODE) (inv : ptr)
  : list INVITATION_NODE :=
  match l with
  | [] => []
  | n :: r => if decide (invitation n = inv) then r else n :: unlink_node r inv
  end.

Definition client_remove_invitation (client inv : option ptr) : M Z :=
  match client, inv with
  | Some c, Some i =>
    l <- gets (fun w => invitations_head (the_client c w)) ;;
    match find_node_by_inv l i with
    | Some curr =>
      upd_client c (fun cl =>
        with_invitations_head (unlink_node (invitations_head cl) i) cl) ;;;
      let inv_id := node_id curr in
      inv_unref inv ;;;
      ret inv_id
    | None => ret (-1)
    end
  | _, _ => ret (-1)
  end.

(** [player_get_name(client_get_player(source))] as the argument of
    [strlen] and as a payload; a NULL name, on which the C code faults,
    reads as the empty string. *)
Definition name_or_empty (n : option string) : string := default "" n.

Definition client_make_invitation (source : ptr) (target : option ptr)
  (source_role target_role : GAME_ROLE) : M Z :=
  invitation <- inv_create (Some source) target source_role target_role ;;
  match invitation with
  | None => ret (-1)
  | Some _ =>
    client_id <- client_add_invitation (Some source) invitation ;;
    if client_id =? -1 then inv_unref invitation ;;; ret (-1)
    else
      target_id <- client_add_invitation target invitation ;;
      if target_id =? -1 then inv_unref invitation ;;; ret (-1)
      else
        pl <- client_get_player (Some source) ;;
        n <- player_get_name pl ;;
        let source_name := name_or_empty n in
        let invited_pkt := make_packet JEUX_INVITED_PKT (strlen source_name) in
        let invited_pkt := with_pkt_id target_id invited_pkt in
        let invited_pkt := with_pkt_role (role_val target_role) invited_pkt in
        r <- client_send_packet target invited_pkt (Some source_name) ;;
        if r =? -1 then ret (-1)
        else inv_unref invitation ;;; ret client_id
  end.

Definition client_revoke_invitation (client : ptr) (id : Z) : M Z :=
  l <- gets (fun w => invitations_head (the_client client w)) ;;
  match find_node_by_id l id with
  | None => ret (-1)
  | Some source_node =>
    let inv := Some (invitation source_node) in
    g <- inv_get_game inv ;;
    if bool_decide (g <> None) then ret (-1)
    else
      source <- inv_get_source inv ;;
      if bool_decide (source <> Some client) then ret (-1)
      else
        r <- client_remove_invitation (Some client) inv ;;
        if r =? -1 then ret (-1)
        else
          target <- inv_get_target inv ;;
          target_id <- client_remove_invitation target inv ;;
          if target_id =? -1 then ret (-1)
          else
            let revoked_pkt := make_packet JEUX_REVOKED_PKT 0 in
            let revoked_pkt := with_pkt_id target_id revoked_pkt in
            r <- client_send_packet target revoked_pkt None ;;
            if r =? -1 then ret (-1) else ret 0
  end.

Definition client_decline_invitation (client : ptr) (id : Z) : M Z :=
  l <- gets (fun w => invitations_head (the_client client w)) ;;
  match find_node_by_id l id with
  | None => ret (-1)
  | Some target_node =>
    let inv := Some (invitation target_node) in
    g <- inv_get_game inv ;;
    if bool_decide (g <> None) then ret (-1)
    else
      target <- inv_get_target inv ;;
      if bool_decide (target <> Some client) then ret (-1)
      else
        r <- client_remove_invitation target inv ;;
        if r =? -1 then ret (-1)
        else
          source <- inv_get_source inv ;;
          source_id <- client_remove_invitation source inv ;;
          if source_id =? -1 then ret (-1)
          else
            let declined_pkt := make_packet JEUX_DECLINED_PKT 0 in
            let declined_pkt := with_pkt_id source_id declined_pkt in
            r <- client_send_packet source declined_pkt None ;;
            if negb (r =? 0) then ret (-1) else ret 0
  end.

(** [source->invitations_head]; with a NULL source, on which the C code
    faults, there is no list to search. *)
Definition list_of (client : option ptr) : M (list INVITATION_NODE) :=
  match client with
  | None => ret []
  | Some c => gets (fun w => invitations_head (the_client c w))
  end.

(** [client_accept_invitation].  [str] is what the caller's variable
    [*strp] holds at the call; the result is the returned code and what
    the variable holds at the return. *)
Definition client_accept_invitation (client : ptr) (id : Z)
  (str : option string) : M (Z * option string) :=
  l <- gets (fun w => invitations_head (the_client client w)) ;;
  match find_node_by_id l id with
  | None => ret (-1, str)
  | Some target_node =>
    let inv := Some (invitation target_node) in
    target <- inv_get_target inv ;;
    source <- inv_get_source inv ;;
    if bool_decide (target <> Some client) then ret (-1, str)
    else
      g <- inv_get_game inv ;;
      if bool_decide (g <> None) then ret (-1, str)
      else
        r <- inv_accept inv ;;
        if r =? -1 then ret (-1, str)
        else
          sl <- list_of source ;;
          match find_node_by_inv sl (invitation target_node) with
          | None => ret (-1, str)
          | Some source_node =>
            let source_id := node_id source_node in
            let accepted_pkt := make_packet JEUX_ACCEPTED_PKT 0 in
            let accepted_pkt := with_pkt_id source_id accepted_pkt in
            sr <- inv_get_source_role inv ;;
            g <- inv_get_game inv ;;
            let state_str := game_unparse_state (default game_create g) in
            if bool_decide (sr = FIRST_PLAYER_ROLE) then
              (* strp = NULL: the caller's variable is not written *)
              let accepted_pkt :=
                with_pkt_size (htons (strlen state_str)) accepted_pkt in
              r <- client_send_packet source accepted_pkt (Some state_str) ;;
              if negb (r =? 0) then ret (-1, str) else ret (0, str)
            else
              let str := Some state_str in
              r <- client_send_packet source accepted_pkt None ;;
              if negb (r =? 0) then ret (-1, str) else ret (0, str)
          end
  end.

(** [game_get_winner] and [game_is_over] on a GAME that the caller has
    found not to be NULL. *)
Definition the_game (g : option GAME) : GAME := default game_create g.

Definition client_resign_game (client : ptr) (id : Z) : M Z :=
  l <- gets (fun w => invitations_head (the_client client w)) ;;
  match find_node_by_id l id with
  | None => ret (-1)
  | Some inv_node =>
    let inv := Some (invitation inv_node) in
    source <- inv_get_source inv ;;
    target <- inv_get_target inv ;;
    game <- inv_get_game inv ;;
    if bool_decide (game = None)
       || (bool_decide (source <> Some client) && bool_decide (target <> Some client))
    then ret (-1)
    else
      sr <- inv_get_source_role inv ;;
      tr <- inv_get_target_role inv ;;
      let client_role := if bool_decide (Some client = source) then sr else tr in
      r <- inv_close inv client_role ;;
      if r =? -1 then ret (-1)
      else
        let opponent := if bool_decide (Some client = source) then target else source in
        ol <- list_of opponent ;;
        match find_node_by_inv ol (invitation inv_node) with
        | None => ret (-1)
        | Some opponent_node =>
          let opponent_id := node_id opponent_node in
          let resigned_pkt := make_packet JEUX_RESIGNED_PKT 0 in
          let resigned_pkt := with_pkt_id opponent_id resigned_pkt in
          r <- client_send_packet opponent resigned_pkt None ;;
          if negb (r =? 0) then ret (-1)
          else
            let opp_ended_pkt := make_packet JEUX_ENDED_PKT 0 in
            let opp_ended_pkt := with_pkt_id opponent_id opp_ended_pkt in
            (* [game] still points to the GAME of the invitation *)
            game <- inv_get_game inv ;;
            let winner := game_get_winner game in
            let opp_ended_pkt := with_pkt_role (role_val winner) opp_ended_pkt in
            r <- client_send_packet opponent opp_ended_pkt None ;;
            if negb (r =? 0) then ret (-1)
            else
              let cli_ended_pkt := make_packet JEUX_ENDED_PKT 0 in
              let cli_ended_pkt := with_pkt_id id cli_ended_pkt in
              let cli_ended_pkt := with_pkt_role (role_val winner) cli_ended_pkt in
              r <- client_send_packet (Some client) cli_ended_pkt None ;;
              e <- gets errno ;;
              if negb (r =? 0) && negb (e =? EPIPE) then ret (-1)
              else
                r <- client_remove_invitation source inv ;;
                if r =? -1 then ret (-1)
                else
                  r <- client_remove_invitation target inv ;;
                  if r =? -1 then ret (-1)
                  else
                    p1 <- client_get_player source ;;
                    p2 <- client_get_player target ;;
                    player_post_result p1 p2
                      (if bool_decide (Some client = source) then 2 else 1) ;;;
                    ret 0
        end
  end.

(** The result that [client_make_move] posts for a finished game:
    [int result = winner == NULL_ROLE ? 0.5 : winner == FIRST_PLAYER_ROLE ? 1 : 2]. *)
Definition move_result (winner : GAME_ROLE) : Z :=
  double_to_int
    (if bool_decide (winner = NULL_ROLE) then 1 # 2
     else if bool_decide (winner = FIRST_PLAYER_ROLE) then 1 # 1 else 2 # 1).

Definition client_make_move (client : ptr) (id : Z) (move : string) : M Z :=
  l <- gets (fun w => invitations_head (the_client client w)) ;;
  match find_node_by_id l id with
  | None => ret (-1)
  | Some inv_node =>
    let inv := Some (invitation inv_node) in
    source <- inv_get_source inv ;;
    target <- inv_get_target inv ;;
    game <- inv_get_game inv ;;
    match game with
    | None => ret (-1)
    | Some g =>
      sr <- inv_get_source_role inv ;;
      tr <- inv_get_target_role inv ;;
      let client_role := if bool_decide (Some client = source) then sr else tr in
      match game_parse_move g client_role move with
      | None => ret (-1)
      | Some game_move =>
        let '(game', r) := game_apply_move (Some g) (Some game_move) in
        if r =? -1 then ret (-1)
        else
          (* the move was made on the GAME of the invitation *)
          upd_invitation (invitation inv_node) (with_game game') ;;;
          let g := the_game game' in
          let opponent := if bool_decide (Some client = source) then target else source in
          ol <- list_of opponent ;;
          match find_node_by_inv ol (invitation inv_node) with
          | None => ret (-1)
          | Some opponent_node =>
            let opponent_id := node_id opponent_node in
            let state_str := game_unparse_state g in
            let moved_pkt := make_packet JEUX_MOVED_PKT (strlen state_str) in
            let moved_pkt := with_pkt_id opponent_id moved_pkt in
            r <- client_send_packet opponent moved_pkt (Some state_str) ;;
            if negb (r =? 0) then ret (-1)
            else if negb (game_is_over g =? 0) then
              let opp_ended_pkt := make_packet JEUX_ENDED_PKT 0 in
              let opp_ended_pkt := with_pkt_id opponent_id opp_ended_pkt in
              let winner := game_get_winner (Some g) in
              let opp_ended_pkt := with_pkt_role (role_val winner) opp_ended_pkt in
              r <- client_send_packet opponent opp_ended_pkt None ;;
              if negb (r =? 0) then ret (-1)
              else
                let cli_ended_pkt := make_packet JEUX_ENDED_PKT 0 in
                let cli_ended_pkt := with_pkt_id id cli_ended_pkt in
                let cli_ended_pkt := with_pkt_role (role_val winner) cli_ended_pkt in
                r <- client_send_packet (Some client) cli_ended_pkt None ;;
                if negb (r =? 0) then ret (-1)
                else
                  r <- client_remove_invitation source inv ;;
                  if r =? -1 then ret (-1)
                  else
                    r <- client_remove_invitation target inv ;;
                    if r =? -1 then ret (-1)
                    else
                      let result := move_result winner in
                      ps <- client_get_player source ;;
                      pt <- client_get_player target ;;
                      player_post_result
                        (if bool_decide (Some client = source) then ps else pt)
                        (if bool_decide (Some client = source) then pt else ps)
                        result ;;;
                      ret 0
            else ret 0
          end
      end
    end
  end.

(** The loop of [client_logout] over the nodes that the list holds when
    the loop starts.  The node in hand is unlinked by the call made for
    it and the node after it is read before that call, so the loop visits
    these nodes in this order (a list never holds an invitation twice). *)
Fixpoint logout_walk (client : ptr) (l : list INVITATION_NODE) : M unit :=
  match l with
  | [] => ret tt
  | inv :: next =>
    game <- inv_get_game (Some (invitation inv)) ;;
    (if bool_decide (game <> None) then
       client_resign_game client (node_id inv) ;;; ret tt
     else
       source <- inv_get_source (Some (invitation inv)) ;;
       if bool_decide (source = Some client) then
         client_revoke_invitation client (node_id inv) ;;; ret tt
       else
         client_decline_invitation client (node_id inv) ;;; ret tt) ;;;
    logout_walk client next
  end.

Definition client_logout (client : ptr) : M Z :=
  li <- gets (fun w => logged_in (the_client client w)) ;;
  if li =? 0 then ret (-1)
  else
    p <- gets (fun w => player (the_client client w)) ;;
    player_unref p ;;;
    l <- gets (fun w => invitations_head (the_client client w)) ;;
    logout_walk client l ;;;
    ret 0.

(** ** client_registry.c *)

Fixpoint fd_already_used_in (w : World) (l : list ptr) (d : Z) : Z :=
  match l with
  | [] => -1
  | c :: r => if fd (the_client c w) =? d then 0 else fd_already_used_in w r d
  end.

(** 0 if already used, -1 if not. *)
Definition fd_already_used (d : Z) : M Z :=
  gets (fun w => fd_already_used_in w (creg_head w) d).

Definition insert_client (client : ptr) : M unit :=
  modify (fun w => set_creg (client :: creg_head w) (client_count w + 1) w).

(** The list without its first node for [client]. *)
Fixpoint unlink_client (l : list ptr) (client : ptr) : list ptr :=
  match l with
  | [] => []
  | c :: r => if decide (c = client) then r else c :: unlink_client r client
  end.

Definition remove_client (client : ptr) : M unit :=
  modify (fun w =>
    if bool_decide (client ∈ creg_head w)
    then set_creg (unlink_client (creg_head w) client) (client_count w - 1) w
    else w).

Definition creg_register (d : Z) : M (option ptr) :=
  used <- fd_already_used d ;;
  n <- gets client_count ;;
  if (used =? 0) || (n >=? MAX_CLIENTS) then ret None
  else
    client_ptr <- client_create d ;;
    match client_ptr with
    | None => ret None
    | Some c => insert_client c ;;; ret (Some c)
    end.

Definition creg_unregister (client : option ptr) : M Z :=
  match client with
  | None => ret (-1)
  | Some c =>
    client_fd <- client_get_fd c ;;
    used <- fd_already_used client_fd ;;
    if used =? -1 then ret (-1)
    else
      remove_client c ;;;
      client_unref client ;;;
      ret 0
  end.

(** The loop of [creg_lookup] over the nodes of the registry. *)
Fixpoint creg_lookup_walk (l : list ptr) (user : string) : M (option ptr) :=
  match l with
  | [] => ret None
  | c :: r =>
    p <- client_get_player (Some c) ;;
    n <- player_get_name p ;;
    match p, n with
    | Some _, Some name =>
      if strcmp_eq name user then client_ref (Some c) ;;; ret (Some c)
      else creg_lookup_walk r user
    | _, _ => creg_lookup_walk r user
    end
  end.

Definition creg_lookup (user : option string) : M (option ptr) :=
  match user with
  | None => ret None
  | Some u => l <- gets creg_head ;; creg_lookup_walk l u
  end.

(** The loop of [creg_all_players]; [i] counts the players collected. *)
Fixpoint creg_all_players_walk (l : list ptr) (i : Z) : M (list ptr) :=
  match l with
  | [] => ret []
  | c :: r =>
    if i <? MAX_CLIENTS then
      p <- client_get_player (Some c) ;;
      match p with
      | Some q =>
        player_ref p ;;;
        rest <- creg_all_players_walk r (i + 1) ;;
        ret (q :: rest)
      | None => creg_all_players_walk r i
      end
    else ret []
  end.

Definition creg_all_players : M (list ptr) :=
  l <- gets creg_head ;; creg_all_players_walk l 0.

(** The loop of [creg_shutdown_all] over the nodes that the registry holds
    when it starts; the node after the one in hand is read before the
    client of that one is unregistered. *)
Fixpoint creg_shutdown_walk (l : list ptr) : M unit :=
  match l with
  | [] => ret tt
  | c :: r =>
    client_logout c ;;;
    creg_unregister (Some c) ;;;
    creg_shutdown_walk r
  end.

Definition creg_shutdown_all : M unit :=
  l <- gets creg_head ;; creg_shutdown_walk l.

(** ** client.c: login *)

(** The loop of [check_if_other_clients_logged_in_with_same_player]
    (client.c) and of its twin in server.c over the players listed. *)
Fixpoint same_name_walk (l : list ptr) (name : string) (result : Z) : M Z :=
  match l with
  | [] => ret result
  | p :: r =>
    player_unref (Some p) ;;;
    n <- player_get_name (Some p) ;;
    same_name_walk r name
      (if strcmp_eq (name_or_empty n) name then 1 else result)
  end.

Definition check_if_other_clients_logged_in_with_same_player (name : string)
  : M Z :=
  player_list <- creg_all_players ;;
  same_name_walk player_list name 0.

Definition client_login (client : option ptr) (player : option ptr) : M Z :=
  match client with
  | None => ret (-1)
  | Some c =>
    li <- gets (fun w => logged_in (the_client c w)) ;;
    taken <- (if negb (li =? 0) then ret 1
              else
                n <- player_get_name player ;;
                check_if_other_clients_logged_in_with_same_player
                  (name_or_empty n)) ;;
    if negb (taken =? 0) then ret (-1)
    else
      upd_client c (with_login 1 player) ;;;
      player_ref player ;;;
      ret 0
  end.

(** ** server.c *)

Definition construct_packet (type : Z) (size : Z) : JEUX_PACKET_HEADER :=
  mkHDR (u8 type) 0 0 (u16 size).

(** [memcpy] of the first [size] bytes of a payload, then a NUL. *)
Definition copy_payload (payload : option string) (size : Z) : string :=
  String.substring 0 (Z.to_nat size) (default "" payload).

Definition check_if_other_clients_logged_in_with_same_name (name : string)
  : M Z :=
  player_list <- creg_all_players ;;
  same_name_walk player_list name 0.

Definition tab : string := String (ascii_of_nat 9) EmptyString.

(** The loop that builds the payload of the reply to USERS:
    [total_size], [str_payload] and [i] after the players listed. *)
Fixpoint users_walk (l : list ptr) (total_size : Z) (str_payload : option string)
  (i : Z) : M (Z * option string * Z) :=
  match l with
  | [] => ret (total_size, str_payload, i)
  | p :: r =>
    player_unref (Some p) ;;;
    n <- player_get_name (Some p) ;;
    let name := name_or_empty n in
    rating <- player_get_rating (Some p) ;;
    let line_size := strlen name + strlen (sprintf_d rating) + 3 in
    let total_size := total_size + line_size in
    let line := strcat (strcat (strcat (strcat "" name) tab) (sprintf_d rating))
                       newline in
    let str_payload :=
      match str_payload with
      | None => Some (cstr line)
      | Some s => Some (strcat s line)
      end in
    users_walk r total_size str_payload (i + 1)
  end.

(** One round of the loop of [jeux_client_service]: the switch on the
    type of the packet received.  [logged_in] is the local variable of
    that name; its value after the round is returned. *)
Definition service_frame (client : ptr) (logged_in : Z)
  (hdr : JEUX_PACKET_HEADER) (payload : option string) : M Z :=
  let type := pkt_type hdr in
  if type =? JEUX_NO_PKT then ret logged_in
  else if type =? JEUX_LOGIN_PKT then
    if logged_in =? 0 then
      let p := copy_payload payload (pkt_size hdr) in
      taken <- check_if_other_clients_logged_in_with_same_name p ;;
      if negb (taken =? 0) then client_send_nack (Some client) ;;; ret logged_in
      else
        player <- preg_register p ;;
        val <- client_login (Some client) player ;;
        if val =? 0 then client_send_ack (Some client) None 0 ;;; ret 1
        else client_send_nack (Some client) ;;; ret logged_in
    else client_send_nack (Some client) ;;; ret logged_in
  else if type =? JEUX_USERS_PKT then
    if logged_in =? 0 then client_send_nack (Some client) ;;; ret logged_in
    else
      player_list <- creg_all_players ;;
      acc <- users_walk player_list 0 None 0 ;;
      let '(total_size, str_payload, i) := acc in
      let str_payload := Some (default "" str_payload) in
      client_send_ack (Some client) str_payload (total_size - i) ;;;
      ret logged_in
  else if type =? JEUX_INVITE_PKT then
    if logged_in =? 0 then client_send_nack (Some client) ;;; ret logged_in
    else
      target_client <- creg_lookup payload ;;
      if bool_decide (target_client = None)
         || bool_decide (target_client = Some client) then
        client_unref target_client ;;;
        client_send_nack (Some client) ;;; ret logged_in
      else
        if (pkt_role hdr =? 1) || (pkt_role hdr =? 2) then
          let source_role :=
            if pkt_role hdr =? 1 then SECOND_PLAYER_ROLE else FIRST_PLAYER_ROLE in
          let target_role :=
            if pkt_role hdr =? 1 then FIRST_PLAYER_ROLE else SECOND_PLAYER_ROLE in
          source_id <- client_make_invitation client target_client
                         source_role target_role ;;
          if source_id =? -1 then client_send_nack (Some client) ;;; ret logged_in
          else
            client_unref target_client ;;;
            let ack_pkt := construct_packet JEUX_ACK_PKT 0 in
            let ack_pkt := with_pkt_id source_id ack_pkt in
            client_send_packet (Some client) ack_pkt None ;;;
            ret logged_in
        else client_send_nack (Some client) ;;; ret logged_in
  else if type =? JEUX_REVOKE_PKT then
    if logged_in =? 0 then client_send_nack (Some client) ;;; ret logged_in
    else
      let invite_id := pkt_id hdr in
      result <- client_revoke_invitation client invite_id ;;
      if result =? -1 then client_send_nack (Some client) ;;; ret logged_in
      else client_send_ack (Some client) None 0 ;;; ret logged_in
  else if type =? JEUX_DECLINE_PKT then
    if logged_in =? 0 then client_send_nack (Some client) ;;; ret logged_in
    else
      let invite_id := pkt_id hdr in
      result <- client_decline_invitation client invite_id ;;
      if result =? -1 then client_send_nack (Some client) ;;; ret logged_in
      else client_send_ack (Some client) None 0 ;;; ret logged_in
  else if type =? JEUX_ACCEPT_PKT then
    if logged_in =? 0 then client_send_nack (Some client) ;;; ret logged_in
    else
      let invite_id := pkt_id hdr in
      res <- client_accept_invitation client invite_id None ;;
      let '(result, str) := res in
      if result =? -1 then client_send_nack (Some client) ;;; ret logged_in
      else
        let ack_pkt := construct_packet JEUX_ACK_PKT 0 in
        let ack_pkt := with_pkt_id invite_id ack_pkt in
        let ack_pkt :=
          match str with
          | Some s => with_pkt_size (htons (strlen s)) ack_pkt
          | None => ack_pkt
          end in
        client_send_packet (Some client) ack_pkt str ;;;
        ret logged_in
  else if type =? JEUX_MOVE_PKT then
    if logged_in =? 0 then client_send_nack (Some client) ;;; ret logged_in
    else
      let client_id := pkt_id hdr in
      let p := copy_payload payload (pkt_size hdr) in
      result <- client_make_move client client_id p ;;
      if result =? -1 then client_send_nack (Some client) ;;; ret logged_in
      else client_send_ack (Some client) None 0 ;;; ret logged_in
  else if type =? JEUX_RESIGN_PKT then
    if logged_in =? 0 then client_send_nack (Some client) ;;; ret logged_in
    else
      let client_id := pkt_id hdr in
      result <- client_resign_game client client_id ;;
      if result =? -1 then client_send_nack (Some client) ;;; ret logged_in
      else client_send_ack (Some client) None 0 ;;; ret logged_in
  else ret logged_in.

(** A packet as [proto_recv_packet] hands it to the loop. *)
Record FRAME : Set := mkFRAME {
  frame_hdr : JEUX_PACKET_HEADER;
  frame_payload : option string
}.

(** The loop of [jeux_client_service] over the packets received before
    the end of the stream. *)
Fixpoint service_loop (client : ptr) (logged_in : Z) (frames : list FRAME)
  : M Z :=
  match frames with
  | [] => ret logged_in
  | f :: r =>
    logged_in <- service_frame client logged_in (frame_hdr f) (frame_payload f) ;;
    service_loop client logged_in r
  end.

(** What [jeux_client_service] does after the loop.  The variable
    [player] that is released there is the one declared at the head of
    the function, which is still NULL: the player that LOGIN registers is
    held by a variable of the same name of an inner block. *)
Definition service_end (client : ptr) (logged_in : Z) : M unit :=
  (if negb (logged_in =? 0) then player_unref None else ret tt) ;;;
  client_logout client ;;;
  creg_unregister (Some client) ;;;
  ret tt.

Definition jeux_client_service (d : Z) (frames : list FRAME) : M unit :=
  client <- creg_register d ;;
  match client with
  | None => ret tt
  | Some c =>
    logged_in <- service_loop c 0 frames ;;
    service_end c logged_in
  end.


(** ** Runs of the server *)

(** A service thread: the client it serves and its variable
    [logged_in]. *)
Record THREAD : Set := mkTHREAD {
  th_client : ptr;
  th_logged_in : Z
}.

(** The states that the server reaches, with the service threads that are
    in their loop.  Between two requests the environment may break a
    connection and may fix the outcome of coming allocations; a thread
    starts by registering its descriptor, serves one packet at a time and
    ends when its stream ends; the main thread may shut all clients
    down. *)
Inductive reachable : World -> list THREAD -> Prop :=
| reach_init : reachable initial_world []
| reach_break w ts d e :
    reachable w ts ->
    reachable (set_broken ((d, e) :: broken w) w) ts
| reach_mallocs w ts l :
    reachable w ts ->
    reachable (set_node_mallocs l w) ts
| reach_connect w ts d c w' :
    reachable w ts ->
    creg_register d w = (Some c, w') ->
    reachable w' (mkTHREAD c 0 :: ts)
| reach_refused w ts d w' :
    reachable w ts ->
    creg_register d w = (None, w') ->
    reachable w' ts
| reach_frame w ts1 th ts2 f li w' :
    reachable w (ts1 ++ th :: ts2) ->
    service_frame (th_client th) (th_logged_in th)
                  (frame_hdr f) (frame_payload f) w = (li, w') ->
    reachable w' (ts1 ++ mkTHREAD (th_client th) li :: ts2)
| reach_eof w ts1 th ts2 w' :
    reachable w (ts1 ++ th :: ts2) ->
    service_end (th_client th) (th_logged_in th) w = (tt, w') ->
    reachable w' (ts1 ++ ts2)
| reach_shutdown w ts w' :
    reachable w ts ->
    creg_shutdown_all w = (tt, w') ->
    reachable w' ts.

(** ** Notions used by the properties *)

(** The moves of a list made one after the other, each of them accepted
    by [game_apply_move]. *)
Fixpoint play (g : GAME) (ms : list GAME_MOVE) : option GAME :=
  match ms with
  | [] => Some g
  | m :: r =>
    match game_apply_move (Some g) (Some m) with
    | (Some g', 0) => play g' r
    | _ => None
    end
  end.

(** A move that the parser can produce. *)
Definition legal_move (m : GAME_MOVE) : Prop :=
  (move_player m = 1 \/ move_player m = 2) /\ 1 <= move_square m <= 9.

(** The steps that the state of an invitation may take. *)
Definition adjacent (s s' : INVITATION_STATE) : Prop :=
  (s = INV_OPEN_STATE /\ s' = INV_ACCEPTED_STATE)
  \/ (s = INV_OPEN_STATE /\ s' = INV_CLOSED_STATE)
  \/ (s = INV_ACCEPTED_STATE /\ s' = INV_CLOSED_STATE).

(** The ids of the handles of a list. *)
Definition ids (l : list INVITATION_NODE) : list Z := map node_id l.

(** [i] is the least non-negative integer that is not an id of [l]. *)
Definition least_free_id (l : list INVITATION_NODE) (i : Z) : Prop :=
  0 <= i /\ ~ In i (ids l) /\ forall j, 0 <= j < i -> In j (ids l).

(** The ids of every list of handles are mutually distinct. *)
Definition ids_distinct (w : World) : Prop :=
  forall c cl, clients w !! c = Some cl -> NoDup (ids (invitations_head cl)).

(** A reply of the service loop: an ACK or a NACK. *)
Definition is_reply (s : SEND) : bool :=
  (pkt_type (send_hdr s) =? JEUX_ACK_PKT)
  || (pkt_type (send_hdr s) =? JEUX_NACK_PKT).

(** The replies sent to [c] among the packets of [out]. *)
Definition replies_to (c : ptr) (out : list SEND) : list SEND :=
  List.filter (fun s => bool_decide (send_to s = c) && is_reply s) out.

(** From [w] to [w'] the packets [out] were sent, latest first. *)
Definition sent (w w' : World) (out : list SEND) : Prop :=
  wire w' = (out ++ wire w)%list.

(** The objects of the server: everything but [errno], the oracle of the
    allocator and the record of the packets sent. *)
Definition same_objects (w w' : World) : Prop :=
  players w' = players w /\ invitations w' = invitations w
  /\ clients w' = clients w /\ creg_head w' = creg_head w
  /\ client_count w' = client_count w /\ preg_head w' = preg_head w.

(** The request types of the protocol. *)
Definition is_request (type : Z) : Prop :=
  JEUX_LOGIN_PKT <= type <= JEUX_RESIGN_PKT.

(** An invitation between two distinct clients, one of which plays
    first and the other second. *)
Definition well_formed_invitation (x : INVITATION) : Prop :=
  (exists s t, sender x = Some s /\ recipient x = Some t /\ s <> t)
  /\ ((source_role x = FIRST_PLAYER_ROLE /\ target_role x = SECOND_PLAYER_ROLE)
      \/ (source_role x = SECOND_PLAYER_ROLE /\ target_role x = FIRST_PLAYER_ROLE)).

Definition invitations_well_formed (w : World) : Prop :=
  forall i x, invitations w !! i = Some x -> well_formed_invitation x.

(** The ids from [i] on, counted with repetition. *)
Definition count_from (i : Z) (l : list Z) : nat :=
  length (List.filter (Z.leb i) l).

(** *** Relations that the functions of the server respect

    [steps R m]: running [m] takes every state to a state related to it
    by [R]. *)
Definition steps (R : World -> World -> Prop) {A : Type} (m : M A) : Prop :=
  forall w, R w (snd (m w)).

(** A send that is not a reply of the service loop. *)
Definition is_reply_hdr (h : JEUX_PACKET_HEADER) : bool :=
  (pkt_type h =? JEUX_ACK_PKT) || (pkt_type h =? JEUX_NACK_PKT).

(** The writes to the heaps and registries that a relation has to admit
    for all functions of client.c to respect it. *)
Class Stable (R : World -> World -> Prop) : Prop := {
  stable_refl : forall w, R w w;
  stable_trans : forall a b c, R a b -> R b c -> R a c;
  stable_players : forall f w, R w (set_players f w);
  stable_client_ref_count : forall c g w,
    R w (set_clients (alter (fun cl => with_client_ref_count (g cl) cl) c) w);
  stable_unlink : forall c i w,
    R w (set_clients
           (alter (fun cl =>
              with_invitations_head (unlink_node (invitations_head cl) i) cl) c) w);
  stable_inv_ref_count : forall i g w,
    R w (set_invitations (alter (fun x => with_inv_ref_count (g x) x) i) w);
  stable_inv_game : forall i g w,
    R w (set_invitations (alter (fun x => with_game (g x) x) i) w);
  stable_accept : forall i w,
    R w (set_invitations (alter (fun x => fst (accept_invitation x)) i) w);
  stable_close : forall i role w,
    R w (set_invitations (alter (fun x => fst (close_invitation x role)) i) w);
  stable_errno : forall e w, R w (set_errno e w);
  stable_creg : forall l n w, R w (set_creg l n w);
  stable_preg : forall l w, R w (set_preg l w);
  stable_node_mallocs : forall l w, R w (set_node_mallocs l w);
  stable_broken : forall l w, R w (set_broken l w);
  stable_link : forall c i w,
    R w (snd (client_add_invitation (Some c) (Some i) w));
  stable_wire : forall s w,
    is_reply_hdr (send_hdr s) = false -> R w (set_wire (s :: wire w) w)
}.

(** What a relation has to admit in addition for the functions that log
    a client in, register it and make an invitation to respect it. *)
Class StableSession (R : World -> World -> Prop) : Prop := {
  stable_login : forall c p w, R w (set_clients (alter (with_login 1 p) c) w);
  stable_client_create : forall d w, R w (snd (client_create d w));
  stable_inv_create : forall s t sr tr w,
    s <> t ->
    (sr = FIRST_PLAYER_ROLE /\ tr = SECOND_PLAYER_ROLE)
    \/ (sr = SECOND_PLAYER_ROLE /\ tr = FIRST_PLAYER_ROLE) ->
    R w (set_invitations
           <[fresh (dom (invitations w)) :=
               mkINVITATION 1 (Some s) (Some t) sr tr None INV_OPEN_STATE]> w)
}.

(** What a relation has to admit in addition for the service loop to
    respect it: the replies. *)
Class StableService (R : World -> World -> Prop) : Prop := {
  stable_reply : forall s w, R w (set_wire (s :: wire w) w)
}.

(** The same writes as narrow as the code makes them: a PLAYER that is
    written keeps its name, and nothing is said of the player registry
    and of the descriptors that are broken, which the functions of
    client.c leave alone.  A relation that admits these writes is
    respected by those functions; every stable relation does. *)
Class Respects (R : World -> World -> Prop) : Prop := {
  respects_refl : forall w, R w w;
  respects_trans : forall a b c, R a b -> R b c -> R a c;
  respects_player : forall p f w,
    (forall pl, username (f pl) = username pl) ->
    R w (set_players (alter f p) w);
  respects_client_ref_count : forall c g w,
    R w (set_clients (alter (fun cl => with_client_ref_count (g cl) cl) c) w);
  respects_unlink : forall c i w,
    R w (set_clients
           (alter (fun cl =>
              with_invitations_head (unlink_node (invitations_head cl) i) cl) c) w);
  respects_inv_ref_count : forall i g w,
    R w (set_invitations (alter (fun x => with_inv_ref_count (g x) x) i) w);
  respects_inv_game : forall i g w,
    R w (set_invitations (alter (fun x => with_game (g x) x) i) w);
  respects_accept : forall i w,
    R w (set_invitations (alter (fun x => fst (accept_invitation x)) i) w);
  respects_close : forall i role w,
    R w (set_invitations (alter (fun x => fst (close_invitation x role)) i) w);
  respects_errno : forall e w, R w (set_errno e w);
  respects_creg : forall l n w, R w (set_creg l n w);
  respects_node_mallocs : forall l w, R w (set_node_mallocs l w);
  respects_link : forall c i w,
    R w (snd (client_add_invitation (Some c) (Some i) w));
  respects_wire : forall s w,
    is_reply_hdr (send_hdr s) = false -> R w (set_wire (s :: wire w) w)
}.

(** What a relation has to admit in addition for the service of a
    packet: the registration of a name followed by the login under the
    player registered, as the LOGIN request does it, and the creation of
    an invitation. *)
Class RespectsSession (R : World -> World -> Prop) : Prop := {
  respects_login : forall name c w,
    R w (snd ((player <- preg_register name ;; client_login (Some c) player) w));
  respects_inv_create : forall s t sr tr w,
    s <> t ->
    (sr = FIRST_PLAYER_ROLE /\ tr = SECOND_PLAYER_ROLE)
    \/ (sr = SECOND_PLAYER_ROLE /\ tr = FIRST_PLAYER_ROLE) ->
    R w (set_invitations
           <[fresh (dom (invitations w)) :=
               mkINVITATION 1 (Some s) (Some t) sr tr None INV_OPEN_STATE]> w)
}.

(** And for the registration of a descriptor: the creation of a
    client. *)
Class RespectsConnect (R : World -> World -> Prop) : Prop := {
  respects_client_create : forall d w, R w (snd (client_create d w))
}.

(** From [w] to [w'] no invitation is written, no packet is sent and no
    list of handles changes. *)
Definition keeps_invitations (w w' : World) : Prop :=
  invitations w' = invitations w
  /\ wire w' = wire w
  /\ forall c, invitations_head (the_client c w')
               = invitations_head (the_client c w).

(** From [w] to [w'] packets were sent, none of them a reply. *)
Definition quiet (w w' : World) : Prop :=
  exists out, sent w w' out /\ Forall (fun s => is_reply s = false) out.

(** From [w] to [w'] no client is logged in or bound to another
    player. *)
Definition same_logins (w w' : World) : Prop :=
  forall c, logged_in (the_client c w') = logged_in (the_client c w)
            /\ player (the_client c w') = player (the_client c w).

(** From [w] to [w'] only PLAYER objects were written. *)
Definition only_players (w w' : World) : Prop :=
  exists f, w' = set_players f w.

(** The rendering of the board of a game that has just been created. *)
Definition initial_board : string := game_unparse_state game_create.

(** From [w] to [w'] no list of handles changes. *)
Definition same_lists (w w' : World) : Prop :=
  forall c, invitations_head (the_client c w')
            = invitations_head (the_client c w).

(** *** States and packets used as examples *)

Definition login_frame (name : string) : FRAME :=
  mkFRAME (mkHDR JEUX_LOGIN_PKT 0 0 (Z.of_nat (String.length name))) (Some name).

Definition invite_frame (name : string) (role : Z) : FRAME :=
  mkFRAME (mkHDR JEUX_INVITE_PKT 0 role (Z.of_nat (String.length name)))
          (Some name).

Definition request_frame (type id : Z) : FRAME :=
  mkFRAME (mkHDR type id 0 0) None.

Definition serve (c : ptr) (li : Z) (f : FRAME) (w : World) : World :=
  snd (service_frame c li (frame_hdr f) (frame_payload f) w).

(** Two clients have connected on the descriptors 4 and 5; they are at
    the addresses 0 and 1. *)
Definition example_connected : World :=
  snd (creg_register 5 (snd (creg_register 4 initial_world))).

(** The first has logged in as alice, the second as bob. *)
Definition example_logged_in : World :=
  serve 1%nat 0 (login_frame "bob")
        (serve 0%nat 0 (login_frame "alice") example_connected).

(** alice has invited bob to play second. *)
Definition example_invited : World :=
  serve 0%nat 1 (invite_frame "bob" 2) example_logged_in.

(** The moves of a drawn game. *)
Definition example_draw : list GAME_MOVE :=
  [mkGAME_MOVE 1 1; mkGAME_MOVE 2 2; mkGAME_MOVE 1 3; mkGAME_MOVE 2 5;
   mkGAME_MOVE 1 4; mkGAME_MOVE 2 6; mkGAME_MOVE 1 8; mkGAME_MOVE 2 7;
   mkGAME_MOVE 1 9].

(** The record of a game agrees with its board: a game that goes on has
    no three in a row, fewer than nine moves and no winner; a game that
    has ended was won by the one player who has three in a row, or has
    nine moves, no three in a row and no winner. *)
Definition result_settled (g : GAME) : Prop :=
  (terminated g = 0 /\ win g 1 = 0 /\ win g 2 = 0 /\ num_turns g < 9
   /\ winner g = NULL_ROLE)
  \/ (terminated g = 1
      /\ ((winner g = FIRST_PLAYER_ROLE /\ win g 1 = 1 /\ win g 2 = 0)
          \/ (winner g = SECOND_PLAYER_ROLE /\ win g 2 = 1 /\ win g 1 = 0)
          \/ (winner g = NULL_ROLE /\ win g 1 = 0 /\ win g 2 = 0
              /\ num_turns g = 9))).

(** The player on the move [i] moves after a position in which
    [turn_X] was [t]. *)
Definition player_at (t : Z) (i : nat) : Z :=
  if Nat.even i then (if t =? 0 then 2 else 1) else (if t =? 0 then 1 else 2).

(** The moves of a game that X wins on the top row. *)
Definition example_win : list GAME_MOVE :=
  [mkGAME_MOVE 1 1; mkGAME_MOVE 2 4; mkGAME_MOVE 1 2; mkGAME_MOVE 2 5;
   mkGAME_MOVE 1 3].


(** Two players, alice at the address 0 and bob at the address 1, in a
    server without clients. *)
Definition example_two_players : World :=
  set_players
    (fun _ => <[1%nat := mkPLAYER "bob" PLAYER_INITIAL_RATING 1]>
                (<[0%nat := mkPLAYER "alice" PLAYER_INITIAL_RATING 1]> ∅))
    initial_world.


(** From [w] to [w'] every invitation keeps its parties and roles, and
    its state stays as it is or advances. *)
Definition invitations_advance (w w' : World) : Prop :=
  forall i x, invitations w !! i = Some x ->
    exists x', invitations w' !! i = Some x'
      /\ sender x' = sender x /\ recipient x' = recipient x
      /\ source_role x' = source_role x /\ target_role x' = target_role x
      /\ (state x' = state x \/ adjacent (state x) (state x')).

(** From [w] to [w'] every client keeps its descriptor, and a client
    that was marked as logged in still is. *)
Definition clients_stay (w w' : World) : Prop :=
  forall c cl, clients w !! c = Some cl ->
    exists cl', clients w' !! c = Some cl'
      /\ fd cl' = fd cl
      /\ (logged_in cl <> 0 -> logged_in cl' <> 0).


(** A player with [k] references more. *)
Definition more_refs (k : Z) (pl : PLAYER) : PLAYER :=
  with_player_ref_count (player_ref_count pl + k) pl.

(** How often the player [p] is listed in [l]. *)
Definition listed (l : list ptr) (p : ptr) : Z :=
  Z.of_nat (count_occ Nat.eq_dec l p).

(** The player that [client_get_player] finds for the client [c]. *)
Definition player_of (w : World) (c : ptr) : option ptr :=
  if negb (logged_in (the_client c w) =? 0) then player (the_client c w)
  else None.

(** A MOVE request for the invitation [id]. *)
Definition move_frame (id : Z) (move : string) : FRAME :=
  mkFRAME (mkHDR JEUX_MOVE_PKT id 0 (Z.of_nat (String.length move))) (Some move).

(** bob has accepted the invitation of alice: alice plays X, bob O. *)
Definition example_accepted : World :=
  serve 1%nat 1 (request_frame JEUX_ACCEPT_PKT 0) example_invited.



(** The first client has logged in with an empty name, the second as
    bob. *)
Definition example_unnamed : World :=
  serve 1%nat 0 (login_frame "bob")
        (serve 0%nat 0 (mkFRAME (mkHDR JEUX_LOGIN_PKT 0 0 0) None)
               example_connected).


(** server.c, after the loop of USERS: the size of the buffer that
    [realloc(str_payload, total_size - i + 5)] returns, and the index at
    which [str_payload[total_size] = '\0'] writes. *)
Definition users_buffer_size (total_size i : Z) : Z := total_size - i + 5.
Definition users_nul_index (total_size : Z) : Z := total_size.

(** The players that [creg_all_players] lists. *)
Definition players_listed (w : World) : list ptr :=
  take (Z.to_nat MAX_CLIENTS) (omap (player_of w) (creg_head w)).


(** The test that [proto_send_packet] makes before it writes anything,
    [(payload_size == 0 && data != NULL) || (payload_size != 0 && data == NULL)],
    on a packet handed to [client_send_packet].  A packet for which it
    holds is refused: -1 is returned and no byte is written. *)
Definition refused (s : SEND) : bool :=
  let payload_size := ntohs (pkt_size (send_hdr s)) in
  ((payload_size =? 0) && bool_decide (send_data s <> None))
  || (negb (payload_size =? 0) && bool_decide (send_data s = None)).

(** From [w] to [w'] packets were sent, none of them a reply; every
    client has kept its descriptor and the same descriptors are
    broken. *)
Definition calm (w w' : World) : Prop :=
  quiet w w' /\ broken w' = broken w
  /\ forall c, fd (the_client c w') = fd (the_client c w).

(** Whatever the state, [m] returns a value that satisfies [Q]. *)
Definition returns {A : Type} (Q : A -> Prop) (m : M A) : Prop :=
  forall w, Q (fst (m w)).

(** Running [m] sends one reply to [c], among other packets.  The reply
    satisfies [P], and the send has the result that [proto_send_packet]
    gives for the packet on the descriptor that [c] has when [m]
    starts. *)
Definition answers (c : ptr) (P : SEND -> Prop) {A : Type} (m : M A) : Prop :=
  forall w, exists out s,
    sent w (snd (m w)) out /\ replies_to c out = [s] /\ P s
    /\ send_result s
       = (if refused s then -1
          else match write_error (fd (the_client c w)) (broken w) with
               | None => 0
               | Some _ => -1
               end).

(** What [service_frame] says of the reply [s] to a packet with the
    header [hdr]: only the ACK of USERS can be refused, and it is refused
    exactly if the length of the listing is a multiple of 65536. *)
Definition reply_checked (hdr : JEUX_PACKET_HEADER) (li : Z) (s : SEND) : Prop :=
  (refused s = true -> pkt_type hdr = JEUX_USERS_PKT /\ li <> 0)
  /\ (pkt_type hdr = JEUX_USERS_PKT -> li <> 0 ->
      exists text,
        pkt_type (send_hdr s) = JEUX_ACK_PKT
        /\ send_data s = Some text
        /\ (refused s = true <-> strlen text mod 65536 = 0)).

(** A name of 65530 characters. *)
Definition long_name : string :=
  string_of_list_ascii (List.repeat "a"%char (Z.to_nat 65530)).

(** The first client has logged in under that name.  Its line of the
    listing of USERS (the name, a tab, the four digits of the rating and
    a newline) has 65536 characters. *)
Definition example_long_name : World :=
  serve 0%nat 0 (login_frame long_name) example_connected.


(** The registries agree with the heap of players: a name of the player
    registry is bound to a PLAYER object with that name, and the player
    of a client is a PLAYER object. *)
Definition players_bound (w : World) : Prop :=
  (forall n p, (n, p) ∈ preg_head w ->
     exists pl, players w !! p = Some pl /\ username pl = n)
  /\ (forall c cl q, clients w !! c = Some cl -> player cl = Some q ->
        is_Some (players w !! q)).

(** alice and bob have made the first eight moves of the drawn game;
    alice is on the move and only the square 9 is free. *)
Definition example_before_draw : World :=
  serve 1%nat 1 (move_frame 0 "7")
    (serve 0%nat 1 (move_frame 0 "8")
       (serve 1%nat 1 (move_frame 0 "6")
          (serve 0%nat 1 (move_frame 0 "4")
             (serve 1%nat 1 (move_frame 0 "5")
                (serve 0%nat 1 (move_frame 0 "3")
                   (serve 1%nat 1 (move_frame 0 "2")
                      (serve 0%nat 1 (move_frame 0 "1")
                             example_accepted))))))).

(** The functions of game.c are unfolded by name only. *)
Arguments game_apply_move : simpl never.
Arguments game_parse_move : simpl never.
Arguments game_unparse_state : simpl never.
Arguments win : simpl never.

(** * Properties *)

Local Open Scope list_scope.

(** ** C strings *)

Lemma cstr_idem s : cstr (cstr s) = cstr s.
Proof.
  induction s as [|c r IH]; simpl; [reflexivity|].
  destruct (Ascii.eqb c NUL) eqn:E; simpl; [reflexivity|].
  rewrite E, IH. reflexivity.
Qed.

(** ** game.c *)

Lemma legal_move_cases m :
  legal_move m ->
  exists p s, m = mkGAME_MOVE p s /\ (p = 1 \/ p = 2)
    /\ (s = 1 \/ s = 2 \/ s = 3 \/ s = 4 \/ s = 5 \/ s = 6 \/ s = 7 \/ s = 8 \/ s = 9).
Proof.
  destruct m as [p s]. unfold legal_move. simpl. intros [Hp Hs].
  exists p, s. repeat split; [assumption | lia].
Qed.

(** C9. For every legal move [m] (player 1 or 2, square 1 to 9) and
    every role that passes the turn check of the parser (NULL_ROLE, or the
    role that is on the move in the game), [game_parse_move] applied to
    the string that [game_unparse_move] makes of [m] returns a move, not
    NULL, with the player and the square of [m]. *)
Theorem game_parse_unparse_move (g : GAME) (role : GAME_ROLE) (m : GAME_MOVE) :
  legal_move m ->
  role_out_of_turn g role = false ->
  game_parse_move g role (game_unparse_move m) = Some m.
Proof.
  intros Hm Hr. destruct (legal_move_cases m Hm) as (p & s & -> & Hp & Hs).
  unfold game_parse_move. rewrite Hr.
  destruct Hp as [-> | ->];
    repeat (destruct Hs as [-> | Hs]); try subst s; reflexivity.
Qed.

Lemma win_board g g' p : board g = board g' -> win g p = win g' p.
Proof. unfold win, cell. intros ->. reflexivity. Qed.

Lemma game_apply_move_ok g m g' :
  game_apply_move (Some g) (Some m) = (Some g', 0) ->
  terminated g = 0
  /\ num_turns g' = num_turns g + 1
  /\ (win g' 1 = 0 -> win g' 2 = 0 -> winner g' = winner g)
  /\ (win g' 1 = 0 -> win g' 2 = 0 -> num_turns g' < 9 -> terminated g' = 0)
  /\ (9 <= num_turns g' -> terminated g' <> 0)
  /\ (terminated g' = 0 -> winner g' = winner g).
Proof.
  unfold game_apply_move.
  destruct (illegal_move g m) eqn:Hill; [discriminate|].
  assert (Ht : terminated g = 0).
  { unfold illegal_move in Hill.
    repeat (apply orb_false_elim in Hill; destruct Hill as [Hill ?]).
    destruct (terminated g =? 0) eqn:E; [lia | discriminate]. }
  set (g1 := set_turn_X (set_cell g _ _) _).
  assert (Hw1 : winner g1 = winner g) by reflexivity.
  assert (Ht1 : terminated g1 = 0) by exact Ht.
  assert (Hn1 : num_turns g1 = num_turns g) by reflexivity.
  clearbody g1.
  set (g2 := if negb (win g1 1 =? 0) then _ else g1).
  assert (Hb2 : board g2 = board g1 /\ num_turns g2 = num_turns g1
                /\ (win g1 1 = 0 -> g2 = g1)
                /\ (terminated g2 = 0 -> g2 = g1)).
  { subst g2. destruct (win g1 1 =? 0) eqn:E; cbn [negb];
      repeat split; auto; try lia; cbn; intros; lia. }
  clearbody g2. destruct Hb2 as (Hb2 & Hn2 & He2 & Hz2).
  set (g3 := if negb (win g2 2 =? 0) then _ else g2).
  assert (Hb3 : board g3 = board g2 /\ num_turns g3 = num_turns g2
                /\ (win g2 2 = 0 -> g3 = g2)
                /\ (terminated g3 = 0 -> g3 = g2)).
  { subst g3. destruct (win g2 2 =? 0) eqn:E; cbn [negb];
      repeat split; auto; try lia; cbn; intros; lia. }
  clearbody g3. destruct Hb3 as (Hb3 & Hn3 & He3 & Hz3).
  set (g4 := set_num_turns g3 _).
  assert (Hb4 : board g4 = board g3 /\ num_turns g4 = num_turns g3 + 1
                /\ winner g4 = winner g3 /\ terminated g4 = terminated g3)
    by (repeat split).
  clearbody g4. destruct Hb4 as (Hb4 & Hn4 & Hw4 & Ht4).
  intros H.
  assert (Hg' : g' = if num_turns g4 >=? 9 then set_terminated g4 1 else g4)
    by congruence.
  clear H.
  assert (Hb' : board g' = board g4 /\ num_turns g' = num_turns g4
                /\ winner g' = winner g4
                /\ (terminated g' = 0 -> terminated g4 = 0)).
  { subst g'. destruct (num_turns g4 >=? 9); repeat split; cbn; intros; lia. }
  destruct Hb' as (Hb' & Hn' & Hw' & Hz').
  assert (Hwin : forall p, win g' p = win g1 p).
  { intros p. apply win_board. congruence. }
  rewrite !Hwin.
  assert (Hwin2 : forall p, win g2 p = win g1 p).
  { intros p. apply win_board. congruence. }
  split; [exact Ht|]. split; [lia|].
  split; [|split; [|split]].
  - intros E1 E2. rewrite Hw', Hw4, He3, He2; auto. rewrite Hwin2. exact E2.
  - intros E1 E2 Hlt. subst g'.
    destruct (num_turns g4 >=? 9) eqn:E9; cbn in *; [lia|].
    rewrite Ht4, He3, He2; auto. rewrite Hwin2. exact E2.
  - intros Hge. subst g'. destruct (num_turns g4 >=? 9) eqn:E9; cbn in *; lia.
  - intros Hz. specialize (Hz' Hz). rewrite Ht4 in Hz'.
    pose proof (Hz3 Hz') as E3. rewrite E3 in Hz'.
    pose proof (Hz2 Hz') as E2. congruence.
Qed.

Lemma play_cons g m r :
  play g (m :: r)
  = match game_apply_move (Some g) (Some m) with
    | (Some g', 0) => play g' r
    | _ => None
    end.
Proof. reflexivity. Qed.

Lemma play_app g ms1 ms2 :
  play g (ms1 ++ ms2)
  = match play g ms1 with Some g1 => play g1 ms2 | None => None end.
Proof.
  revert g. induction ms1 as [|m r IH]; intros g; [reflexivity|].
  rewrite <- app_comm_cons, !play_cons.
  destruct (game_apply_move (Some g) (Some m)) as [[g1|] [| |]]; auto.
Qed.

Lemma play_step g m g' :
  play g [m] = Some g' -> game_apply_move (Some g) (Some m) = (Some g', 0).
Proof.
  rewrite play_cons.
  destruct (game_apply_move (Some g) (Some m)) as [[g1|] [| |]];
    cbn [play]; intros H; try discriminate. congruence.
Qed.

(** A game in which a further move is accepted had not ended, and every
    move is counted. *)
Lemma play_open g ms g' :
  play g ms = Some g' ->
  ms <> [] ->
  terminated g = 0 /\ num_turns g' = num_turns g + Z.of_nat (length ms).
Proof.
  revert g. induction ms as [|m r IH]; intros g H Hne; [congruence|].
  rewrite play_cons in H.
  destruct (game_apply_move (Some g) (Some m)) as [[g1|] [| |]] eqn:E;
    try discriminate.
  destruct (game_apply_move_ok _ _ _ E) as (Ht & Hn & _).
  split; [exact Ht|].
  destruct r as [|m' r'].
  - cbn [play] in H. injection H as <-. cbn [length]. lia.
  - destruct (IH g1 H ltac:(discriminate)) as [_ Hn1].
    rewrite Hn1, Hn. cbn [length]. lia.
Qed.

(** A game that has not ended has no winner. *)
Lemma play_no_winner g ms g' :
  play g ms = Some g' ->
  winner g = NULL_ROLE ->
  terminated g' = 0 ->
  winner g' = NULL_ROLE.
Proof.
  revert g. induction ms as [|m r IH]; intros g H Hw Ht.
  - cbn [play] in H. congruence.
  - rewrite play_cons in H.
    destruct (game_apply_move (Some g) (Some m)) as [[g1|] [| |]] eqn:E;
      try discriminate.
    destruct (game_apply_move_ok _ _ _ E) as (_ & _ & _ & _ & _ & Hkeep).
    apply (IH g1 H); [|exact Ht].
    rewrite Hkeep; [exact Hw|].
    destruct r as [|m' r'].
    + cbn [play] in H. congruence.
    + apply (play_open _ _ _ H). discriminate.
Qed.

(** ** invitation.c *)

Lemma the_invitation_upd i f w x :
  invitations w !! i = Some x ->
  the_invitation i (snd (upd_invitation i f w)) = f x.
Proof.
  intros H. unfold the_invitation, upd_invitation, modify. simpl.
  rewrite lookup_alter_eq, H. reflexivity.
Qed.

Lemma the_invitation_lookup i w x :
  invitations w !! i = Some x -> the_invitation i w = x.
Proof. intros H. unfold the_invitation. rewrite H. reflexivity. Qed.

Lemma inv_accept_spec i w x :
  invitations w !! i = Some x ->
  inv_accept (Some i) w
  = (snd (accept_invitation x),
     set_invitations (alter (fun x => fst (accept_invitation x)) i) w).
Proof.
  intros H. unfold inv_accept, bind, gets, upd_invitation, modify, ret.
  rewrite (the_invitation_lookup _ _ _ H). reflexivity.
Qed.

Lemma inv_close_spec i role w x :
  invitations w !! i = Some x ->
  inv_close (Some i) role w
  = (snd (close_invitation x role),
     set_invitations (alter (fun x => fst (close_invitation x role)) i) w).
Proof.
  intros H. unfold inv_close, bind, gets, upd_invitation, modify, ret.
  rewrite (the_invitation_lookup _ _ _ H). reflexivity.
Qed.

(** C3. On an invitation of the heap, [inv_accept] fails and leaves the
    state as it is unless the state is OPEN, in which case the state
    becomes ACCEPTED; [inv_close] fails and leaves the state as it is
    unless the state is OPEN or ACCEPTED, in which case the state becomes
    CLOSED; so either call leaves the state as it is or takes one of the
    steps OPEN to ACCEPTED, OPEN to CLOSED, ACCEPTED to CLOSED; and
    [inv_close] with NULL_ROLE succeeds only on an invitation without a
    game.  No call changes the state of another invitation. *)
Theorem inv_state_transitions (i : ptr) (x : INVITATION) (w : World) :
  invitations w !! i = Some x ->
  (forall r w', inv_accept (Some i) w = (r, w') ->
     let s := state x in
     let s' := state (the_invitation i w') in
     (s <> INV_OPEN_STATE -> r = -1 /\ s' = s)
     /\ (s = INV_OPEN_STATE -> s' = INV_ACCEPTED_STATE)
     /\ (s' = s \/ adjacent s s')
     /\ (forall j, j <> i -> invitations w' !! j = invitations w !! j))
  /\
  (forall role r w', inv_close (Some i) role w = (r, w') ->
     let s := state x in
     let s' := state (the_invitation i w') in
     (s <> INV_OPEN_STATE -> s <> INV_ACCEPTED_STATE -> r = -1 /\ s' = s)
     /\ (r = 0 -> (s = INV_OPEN_STATE \/ s = INV_ACCEPTED_STATE)
                  /\ s' = INV_CLOSED_STATE)
     /\ (r = 0 \/ (r = -1 /\ s' = s))
     /\ (s' = s \/ adjacent s s')
     /\ (role = NULL_ROLE -> r = 0 -> game x = None)
     /\ (forall j, j <> i -> invitations w' !! j = invitations w !! j)).
Proof.
  intros Hx. split.
  - intros r w'. rewrite (inv_accept_spec _ _ _ Hx). intros [= <- <-].
    cbv zeta. unfold the_invitation. simpl. rewrite lookup_alter_eq, Hx. simpl.
    unfold accept_invitation, adjacent.
    destruct x as [rc sd rp sr tr g []]; simpl;
      (repeat split; try congruence; try tauto;
       try (intros j Hj; apply lookup_alter_ne; congruence)).
  - intros role r w'. rewrite (inv_close_spec _ _ _ _ Hx). intros [= <- <-].
    cbv zeta. unfold the_invitation. simpl. rewrite lookup_alter_eq, Hx. simpl.
    unfold close_invitation, adjacent.
    destruct x as [rc sd rp sr tr [g|] []]; destruct role; simpl;
      (repeat split; try congruence; try tauto; try lia;
       try (intros j Hj; apply lookup_alter_ne; congruence)).
Qed.

(** ** client.c: the ids of the handles *)

Lemma id_exists_bool l i : id_exists l i = 0 \/ id_exists l i = 1.
Proof.
  induction l as [|n r IH]; simpl; [tauto|]. destruct (_ =? _); tauto.
Qed.

Lemma id_exists_In l i : id_exists l i = 1 <-> In i (ids l).
Proof.
  induction l as [|n r IH]; simpl; [split; [discriminate | tauto]|].
  destruct (node_id n =? i) eqn:E.
  - split; [intros _; left; lia | reflexivity].
  - rewrite IH. split; [tauto | intros [H|H]; [lia | exact H]].
Qed.

Lemma id_exists_not_In l i : id_exists l i = 0 <-> ~ In i (ids l).
Proof.
  rewrite <- id_exists_In. destruct (id_exists_bool l i); lia.
Qed.

(** What the loop returns is the least id from [i] on that is free. *)
Lemma lowest_id_from_sound fuel l i r :
  lowest_id_from fuel l i = Some r ->
  i <= r /\ ~ In r (ids l) /\ forall j, i <= j < r -> In j (ids l).
Proof.
  revert i. induction fuel as [|fuel IH]; intros i; simpl; [discriminate|].
  destruct (id_exists l i =? 0) eqn:E.
  - intros [= <-]. split; [lia|]. split; [apply id_exists_not_In; lia | lia].
  - intros H. destruct (IH _ H) as (Hle & Hfree & Hused).
    split; [lia|]. split; [exact Hfree|].
    intros j Hj. destruct (Z.eq_dec j i) as [->|Hne]; [|apply Hused; lia].
    apply id_exists_In. destruct (id_exists_bool l i); lia.
Qed.

Lemma count_from_le i l : (count_from (i + 1) l <= count_from i l)%nat.
Proof.
  unfold count_from. induction l as [|x r IH]; simpl; [lia|].
  destruct (i + 1 <=? x) eqn:E1, (i <=? x) eqn:E2; simpl; lia.
Qed.

Lemma count_from_lt i l :
  In i l -> (count_from (i + 1) l < count_from i l)%nat.
Proof.
  unfold count_from. induction l as [|x r IH]; simpl; [tauto|].
  intros [-> | H].
  - pose proof (count_from_le i r) as Hle. unfold count_from in Hle.
    destruct (i + 1 <=? i) eqn:E1, (i <=? i) eqn:E2; simpl; lia.
  - specialize (IH H).
    destruct (i + 1 <=? x) eqn:E1, (i <=? x) eqn:E2; simpl; lia.
Qed.

(** The loop ends: every round that does not end it passes an id of the
    list, so more rounds than there are ids from [i] on are enough. *)
Lemma lowest_id_from_ends fuel l i :
  (count_from i (ids l) < fuel)%nat ->
  exists r, lowest_id_from fuel l i = Some r.
Proof.
  revert i. induction fuel as [|fuel IH]; intros i Hlt; [lia|].
  simpl. destruct (id_exists l i =? 0) eqn:E; [eauto|].
  apply IH.
  assert (In i (ids l)).
  { apply id_exists_In. destruct (id_exists_bool l i); lia. }
  pose proof (count_from_lt i (ids l) H). lia.
Qed.

Lemma count_from_length i l : (count_from i l <= length l)%nat.
Proof. unfold count_from. apply List.filter_length_le. Qed.

(** With enough fuel the loop of [find_lowest_id_availalble] returns the
    least free id, whatever the fuel is. *)
Lemma lowest_id_from_total fuel l :
  (length l < fuel)%nat ->
  exists r, lowest_id_from fuel l 0 = Some r /\ least_free_id l r.
Proof.
  intros Hlt.
  destruct (lowest_id_from_ends fuel l 0) as [r Hr].
  { pose proof (count_from_length 0 (ids l)). unfold ids in *.
    rewrite length_map in *. lia. }
  exists r. split; [exact Hr|].
  destruct (lowest_id_from_sound _ _ _ _ Hr) as (H0 & Hfree & Hused).
  repeat split; auto.
Qed.

Lemma least_free_id_unique l a b :
  least_free_id l a -> least_free_id l b -> a = b.
Proof.
  intros (Ha & Hfa & Hua) (Hb & Hfb & Hub).
  destruct (Z.lt_trichotomy a b) as [H | [H | H]]; [|exact H|].
  - exfalso. apply Hfa, Hub. lia.
  - exfalso. apply Hfb, Hua. lia.
Qed.

Lemma find_lowest_id_availalble_spec c w :
  exists r, find_lowest_id_availalble c w = (r, w)
            /\ least_free_id (invitations_head (the_client c w)) r.
Proof.
  unfold find_lowest_id_availalble, gets.
  destruct (lowest_id_from_total (S (length (invitations_head (the_client c w))))
              (invitations_head (the_client c w))) as (r & Hr & Hl); [lia|].
  exists r. rewrite Hr. split; [reflexivity | exact Hl].
Qed.

(** ** Functions respect stable relations *)

Create HintDb steps.

#[local] Instance stable_respects (R : World -> World -> Prop) :
  Stable R -> Respects R.
Proof.
  intros H. split; try apply H.
  intros p f w _. apply stable_players.
Qed.

Section StableSteps.

Context (R : World -> World -> Prop) `{!Respects R}.

Lemma steps_ret {A} (a : A) : steps R (ret a).
Proof. intros w. apply respects_refl. Qed.

Lemma steps_gets {A} (f : World -> A) : steps R (gets f).
Proof. intros w. apply respects_refl. Qed.

Lemma steps_bind {A B} (m : M A) (k : A -> M B) :
  steps R m -> (forall a, steps R (k a)) -> steps R (bind m k).
Proof.
  intros Hm Hk w. unfold bind. specialize (Hm w).
  destruct (m w) as [a w1]. simpl in Hm.
  eapply respects_trans; [exact Hm | apply Hk].
Qed.

Lemma steps_upd_player p f :
  (forall pl, username (f pl) = username pl) -> steps R (upd_player p f).
Proof. intros Hf w. apply respects_player. exact Hf. Qed.

Lemma steps_upd_client_ref_count c g :
  steps R (upd_client c (fun cl => with_client_ref_count (g cl) cl)).
Proof. intros w. apply respects_client_ref_count. Qed.

Lemma steps_upd_unlink c i :
  steps R (upd_client c (fun cl =>
    with_invitations_head (unlink_node (invitations_head cl) i) cl)).
Proof. intros w. apply respects_unlink. Qed.

Lemma steps_upd_inv_ref_count i g :
  steps R (upd_invitation i (fun x => with_inv_ref_count (g x) x)).
Proof. intros w. apply respects_inv_ref_count. Qed.

Lemma steps_upd_inv_game i g :
  steps R (upd_invitation i (fun x => with_game (g x) x)).
Proof. intros w. apply respects_inv_game. Qed.

Lemma steps_upd_inv_game_const i g :
  steps R (upd_invitation i (with_game g)).
Proof. intros w. apply (respects_inv_game i (fun _ => g)). Qed.

Lemma steps_upd_accept i :
  steps R (upd_invitation i (fun x => fst (accept_invitation x))).
Proof. intros w. apply respects_accept. Qed.

Lemma steps_upd_close i role :
  steps R (upd_invitation i (fun x => fst (close_invitation x role))).
Proof. intros w. apply respects_close. Qed.

Lemma steps_set_errno e : steps R (modify (set_errno e)).
Proof. intros w. apply respects_errno. Qed.

Lemma steps_malloc_node : steps R malloc_node.
Proof.
  intros w. unfold malloc_node.
  destruct (node_mallocs w); simpl; [apply respects_refl | apply respects_node_mallocs].
Qed.

Lemma steps_client_add_invitation c i : steps R (client_add_invitation c i).
Proof.
  destruct c as [c|], i as [i|]; try apply steps_ret.
  intros w. apply respects_link.
Qed.

Hint Resolve steps_ret steps_gets steps_upd_client_ref_count
  steps_upd_unlink steps_upd_inv_ref_count steps_upd_inv_game
  steps_upd_inv_game_const steps_upd_accept
  steps_upd_close steps_set_errno steps_malloc_node
  steps_client_add_invitation : steps.

(** Follow the structure of a function down to calls that are known to
    respect the relation. *)
Ltac steps_go :=
  repeat first
    [ solve [auto with steps]
    | solve [apply steps_upd_player; intros ?; reflexivity]
    | match goal with
      | |- steps _ (bind _ _) => apply steps_bind; [| intros ?]
      | |- steps _ (if ?c then _ else _) => destruct c eqn:?
      | |- steps _ (match ?x with _ => _ end) => destruct x eqn:?
      | |- steps _ (let '(_, _) := ?x in _) => destruct x eqn:?
      end ].

Lemma steps_player_ref p : steps R (player_ref p).
Proof. unfold player_ref. steps_go. Qed.

Lemma steps_player_unref p : steps R (player_unref p).
Proof. unfold player_unref. steps_go. Qed.

Lemma steps_player_get_name p : steps R (player_get_name p).
Proof. unfold player_get_name. steps_go. Qed.

Lemma steps_player_get_rating p : steps R (player_get_rating p).
Proof. unfold player_get_rating. steps_go. Qed.

Lemma steps_player_post_result p1 p2 r : steps R (player_post_result p1 p2 r).
Proof. unfold player_post_result. steps_go. Qed.

Hint Resolve steps_player_ref steps_player_unref steps_player_get_name
  steps_player_get_rating steps_player_post_result : steps.

Lemma steps_client_ref c : steps R (client_ref c).
Proof. unfold client_ref. steps_go. Qed.

Lemma steps_client_unref c : steps R (client_unref c).
Proof. unfold client_unref. steps_go. Qed.

Hint Resolve steps_client_ref steps_client_unref : steps.

Lemma steps_inv_ref i : steps R (inv_ref i).
Proof. unfold inv_ref. steps_go. Qed.

Lemma steps_inv_unref i : steps R (inv_unref i).
Proof. unfold inv_unref. steps_go. Qed.

Lemma steps_inv_get_source i : steps R (inv_get_source i).
Proof. unfold inv_get_source. steps_go. Qed.

Lemma steps_inv_get_target i : steps R (inv_get_target i).
Proof. unfold inv_get_target. steps_go. Qed.

Lemma steps_inv_get_source_role i : steps R (inv_get_source_role i).
Proof. unfold inv_get_source_role. steps_go. Qed.

Lemma steps_inv_get_target_role i : steps R (inv_get_target_role i).
Proof. unfold inv_get_target_role. steps_go. Qed.

Lemma steps_inv_get_game i : steps R (inv_get_game i).
Proof. unfold inv_get_game. steps_go. Qed.

Lemma steps_inv_accept i : steps R (inv_accept i).
Proof. unfold inv_accept. steps_go. Qed.

Lemma steps_inv_close i r : steps R (inv_close i r).
Proof. unfold inv_close. steps_go. Qed.

Hint Resolve steps_inv_ref steps_inv_unref steps_inv_get_source
  steps_inv_get_target steps_inv_get_source_role steps_inv_get_target_role
  steps_inv_get_game steps_inv_accept steps_inv_close : steps.

Lemma steps_proto_send_packet d h data : steps R (proto_send_packet d h data).
Proof. unfold proto_send_packet. steps_go. Qed.

Hint Resolve steps_proto_send_packet : steps.

Lemma steps_client_send_packet c h data :
  is_reply_hdr h = false -> steps R (client_send_packet c h data).
Proof.
  intros Hh. unfold client_send_packet, client_get_fd. steps_go.
  intros w. apply respects_wire. exact Hh.
Qed.

Lemma steps_list_of c : steps R (list_of c).
Proof. unfold list_of. steps_go. Qed.

Lemma steps_client_get_fd c : steps R (client_get_fd c).
Proof. unfold client_get_fd. steps_go. Qed.

Hint Resolve steps_client_get_fd : steps.

Lemma steps_client_get_player c : steps R (client_get_player c).
Proof. unfold client_get_player. steps_go. Qed.

Lemma steps_client_remove_invitation c i : steps R (client_remove_invitation c i).
Proof. unfold client_remove_invitation. steps_go. Qed.

Hint Resolve steps_list_of steps_client_get_player
  steps_client_remove_invitation : steps.

(** A notification: its type survives the setting of the other fields
    of the header. *)
Ltac notification :=
  solve [apply steps_client_send_packet; reflexivity].

Ltac steps_client :=
  repeat first
    [ solve [auto with steps]
    | notification
    | match goal with
      | |- steps _ (bind _ _) => apply steps_bind; [| intros ?]
      | |- steps _ (if ?c then _ else _) => destruct c eqn:?
      | |- steps _ (match ?x with _ => _ end) => destruct x eqn:?
      | |- steps _ (let '(_, _) := ?x in _) => destruct x eqn:?
      end ].

Lemma steps_client_revoke_invitation c id : steps R (client_revoke_invitation c id).
Proof. unfold client_revoke_invitation. steps_client. Qed.

Lemma steps_client_decline_invitation c id : steps R (client_decline_invitation c id).
Proof. unfold client_decline_invitation. steps_client. Qed.

Lemma steps_client_accept_invitation c id s : steps R (client_accept_invitation c id s).
Proof. unfold client_accept_invitation. steps_client. Qed.

Lemma steps_client_resign_game c id : steps R (client_resign_game c id).
Proof. unfold client_resign_game. steps_client. Qed.

Lemma steps_client_make_move c id mv : steps R (client_make_move c id mv).
Proof. unfold client_make_move. steps_client. Qed.

Hint Resolve steps_client_revoke_invitation steps_client_decline_invitation
  steps_client_accept_invitation steps_client_resign_game
  steps_client_make_move : steps.

Lemma steps_logout_walk c l : steps R (logout_walk c l).
Proof. induction l as [|n r IH]; cbn [logout_walk]; steps_client. Qed.

Hint Resolve steps_logout_walk : steps.

Lemma steps_client_logout c : steps R (client_logout c).
Proof. unfold client_logout. steps_client. Qed.

Hint Resolve steps_client_logout : steps.

Lemma steps_fd_already_used d : steps R (fd_already_used d).
Proof. unfold fd_already_used. steps_go. Qed.

Lemma steps_remove_client c : steps R (remove_client c).
Proof.
  intros w. unfold remove_client, modify. simpl.
  destruct (bool_decide _); [apply respects_creg | apply respects_refl].
Qed.

Lemma steps_insert_client c : steps R (insert_client c).
Proof. intros w. apply respects_creg. Qed.

Hint Resolve steps_fd_already_used steps_remove_client steps_insert_client : steps.

Lemma steps_creg_unregister c : steps R (creg_unregister c).
Proof. unfold creg_unregister, client_get_fd. steps_go. Qed.

Lemma steps_creg_lookup_walk l u : steps R (creg_lookup_walk l u).
Proof. induction l as [|c r IH]; cbn [creg_lookup_walk]; steps_go. Qed.

Hint Resolve steps_creg_unregister steps_creg_lookup_walk : steps.

Lemma steps_creg_lookup u : steps R (creg_lookup u).
Proof. unfold creg_lookup. steps_go. Qed.

Lemma steps_creg_all_players_walk l i : steps R (creg_all_players_walk l i).
Proof.
  revert i. induction l as [|c r IH]; intros i; cbn [creg_all_players_walk];
    steps_go.
Qed.

Hint Resolve steps_creg_lookup steps_creg_all_players_walk : steps.

Lemma steps_creg_all_players : steps R creg_all_players.
Proof. unfold creg_all_players. steps_go. Qed.

Lemma steps_same_name_walk l n r : steps R (same_name_walk l n r).
Proof.
  revert r. induction l as [|p l IH]; intros r; cbn [same_name_walk]; steps_go.
Qed.

Hint Resolve steps_creg_all_players steps_same_name_walk : steps.

Lemma steps_check_same_player n :
  steps R (check_if_other_clients_logged_in_with_same_player n).
Proof. unfold check_if_other_clients_logged_in_with_same_player. steps_go. Qed.

Lemma steps_check_same_name n :
  steps R (check_if_other_clients_logged_in_with_same_name n).
Proof. unfold check_if_other_clients_logged_in_with_same_name. steps_go. Qed.

Hint Resolve steps_check_same_player steps_check_same_name : steps.

(** [preg_register] and [client_login] respect a relation that admits
    the writes they make to the registry and to the client. *)
Lemma steps_preg_register_with n :
  (forall w, R w (snd (player_create n w))) ->
  (forall l w, R w (set_preg l w)) ->
  steps R (preg_register n).
Proof.
  intros Hc Hp. unfold preg_register. steps_go.
  intros w. apply Hp.
Qed.

Lemma steps_client_login_with c p :
  (forall c' w, R w (set_clients (alter (with_login 1 p) c') w)) ->
  steps R (client_login c p).
Proof.
  intros Hl. unfold client_login. steps_go.
  intros w. apply Hl.
Qed.

Lemma steps_creg_shutdown_walk l : steps R (creg_shutdown_walk l).
Proof. induction l as [|c r IH]; cbn [creg_shutdown_walk]; steps_go. Qed.

Hint Resolve steps_creg_shutdown_walk : steps.

Lemma steps_creg_shutdown_all : steps R creg_shutdown_all.
Proof. unfold creg_shutdown_all. steps_go. Qed.

Lemma steps_users_walk l t s i : steps R (users_walk l t s i).
Proof.
  revert t s i. induction l as [|p l IH]; intros t s i; cbn [users_walk];
    steps_go.
Qed.

Section ConnectSteps.

Context `{!RespectsConnect R}.

Lemma steps_creg_register d : steps R (creg_register d).
Proof.
  unfold creg_register. steps_go.
  intros w. apply respects_client_create.
Qed.

End ConnectSteps.

Section SessionSteps.

Context `{!RespectsSession R}.

Lemma steps_inv_create s t sr tr :
  s <> t ->
  (sr = FIRST_PLAYER_ROLE /\ tr = SECOND_PLAYER_ROLE)
  \/ (sr = SECOND_PLAYER_ROLE /\ tr = FIRST_PLAYER_ROLE) ->
  steps R (inv_create (Some s) (Some t) sr tr).
Proof.
  intros Hst Hr. unfold inv_create. steps_go.
  intros w. simpl. apply respects_inv_create; assumption.
Qed.

Lemma steps_client_make_invitation s t sr tr :
  s <> t ->
  (sr = FIRST_PLAYER_ROLE /\ tr = SECOND_PLAYER_ROLE)
  \/ (sr = SECOND_PLAYER_ROLE /\ tr = FIRST_PLAYER_ROLE) ->
  steps R (client_make_invitation s (Some t) sr tr).
Proof.
  intros Hst Hr. unfold client_make_invitation.
  apply steps_bind; [apply steps_inv_create; assumption | intros ?].
  steps_client.
Qed.

(** The registration of a name, the login under the player registered
    and what follows, as in the LOGIN case of [service_frame]. *)
Lemma steps_login_then n c {B} (k : Z -> M B) :
  (forall val, steps R (k val)) ->
  steps R (player <- preg_register n ;;
           val <- client_login (Some c) player ;; k val).
Proof.
  intros Hk w. pose proof (respects_login n c w) as H.
  unfold bind in *. destruct (preg_register n w) as [player w1].
  destruct (client_login (Some c) player w1) as [val w2]. cbn [snd] in H.
  eapply respects_trans; [exact H | apply Hk].
Qed.

Hint Resolve steps_users_walk steps_creg_shutdown_all : steps.

(** The target that [service_frame] hands to [client_make_invitation]
    is a client other than the requester, and the two roles are one
    FIRST and one SECOND. *)
Lemma steps_invite c (a : option ptr) (role : Z) :
  bool_decide (a = None) || bool_decide (a = Some c) = false ->
  steps R (client_make_invitation c a
             (if role =? 1 then SECOND_PLAYER_ROLE else FIRST_PLAYER_ROLE)
             (if role =? 1 then FIRST_PLAYER_ROLE else SECOND_PLAYER_ROLE)).
Proof.
  intros H. apply orb_false_elim in H. destruct H as [Hnone Hself].
  apply bool_decide_eq_false in Hnone, Hself. destruct a as [t|]; [|congruence].
  apply steps_client_make_invitation; [congruence|].
  destruct (role =? 1); [right | left]; split; reflexivity.
Qed.

Section ServiceSteps.

Context `{!StableService R}.

Ltac service_go :=
  repeat first
    [ solve [auto with steps]
    | apply steps_login_then; intros ?
    | match goal with
      | |- steps _ (bind _ _) => apply steps_bind; [| intros ?]
      | |- steps _ (if ?c then _ else _) => destruct c eqn:?
      | |- steps _ (match ?x with _ => _ end) => destruct x eqn:?
      | |- steps _ (let '(_, _) := ?x in _) => destruct x eqn:?
      end ].

(** For the service loop every send is admitted. *)
Lemma steps_any_send c h data : steps R (client_send_packet c h data).
Proof.
  unfold client_send_packet. service_go.
  intros w. apply stable_reply.
Qed.

Hint Resolve steps_any_send : steps.

Lemma steps_client_send_ack c d n : steps R (client_send_ack c d n).
Proof. unfold client_send_ack. service_go. Qed.

Lemma steps_client_send_nack c : steps R (client_send_nack c).
Proof. unfold client_send_nack. service_go. Qed.

Hint Resolve steps_client_send_ack steps_client_send_nack : steps.

Lemma steps_service_frame c li h p : steps R (service_frame c li h p).
Proof.
  unfold service_frame. service_go.
  apply steps_invite. assumption.
Qed.

Lemma steps_service_end c li : steps R (service_end c li).
Proof. unfold service_end. service_go. Qed.

End ServiceSteps.

End SessionSteps.

End StableSteps.

(** A stable relation admits what the LOGIN request and the registration
    of a descriptor write. *)
Section StableLogin.

Context (R : World -> World -> Prop) `{!Stable R} `{!StableSession R}.

Lemma steps_preg_register n : steps R (preg_register n).
Proof.
  apply (steps_preg_register_with R).
  - intros w. apply stable_players.
  - intros l w. apply stable_preg.
Qed.

Lemma steps_client_login c p : steps R (client_login c p).
Proof.
  apply (steps_client_login_with R).
  intros c' w. apply stable_login.
Qed.

End StableLogin.

#[local] Instance stable_respects_session (R : World -> World -> Prop) :
  Stable R -> StableSession R -> RespectsSession R.
Proof.
  intros HS HL. split.
  - intros name c w. revert w.
    change (steps R (player <- preg_register name ;; client_login (Some c) player)).
    apply (steps_bind R);
      [apply (steps_preg_register R) | intros p; apply (steps_client_login R)].
  - intros. apply stable_inv_create; assumption.
Qed.

#[local] Instance stable_respects_connect (R : World -> World -> Prop) :
  StableSession R -> RespectsConnect R.
Proof. intros HL. split. intros d w. apply stable_client_create. Qed.

(** An invariant that the service loop respects holds in every state
    that the server reaches. *)
Lemma reachable_invariant (I : World -> Prop) :
  Stable (fun w w' => I w -> I w') ->
  StableSession (fun w w' => I w -> I w') ->
  StableService (fun w w' => I w -> I w') ->
  I initial_world ->
  forall w ts, reachable w ts -> I w.
Proof.
  intros HB HL HS H0 w ts Hr.
  set (R := fun w w' : World => I w -> I w') in *.
  induction Hr.
  - exact H0.
  - exact (stable_broken (R := R) _ w IHHr).
  - exact (stable_node_mallocs (R := R) _ w IHHr).
  - pose proof (steps_creg_register R d w) as Hs. rewrite H in Hs. exact (Hs IHHr).
  - pose proof (steps_creg_register R d w) as Hs. rewrite H in Hs. exact (Hs IHHr).
  - pose proof (steps_service_frame R (th_client th) (th_logged_in th)
                  (frame_hdr f) (frame_payload f) w) as Hs.
    rewrite H in Hs. exact (Hs IHHr).
  - pose proof (steps_service_end R (th_client th) (th_logged_in th) w) as Hs.
    rewrite H in Hs. exact (Hs IHHr).
  - pose proof (steps_creg_shutdown_all R w) as Hs. rewrite H in Hs. exact (Hs IHHr).
Qed.

(** ** The ids of a list of handles stay distinct *)

Lemma unlink_node_sublist l i x : In x (ids (unlink_node l i)) -> In x (ids l).
Proof.
  induction l as [|n r IH]; simpl; [tauto|].
  destruct (decide (invitation n = i)); simpl; tauto.
Qed.

Lemma unlink_node_NoDup l i : NoDup (ids l) -> NoDup (ids (unlink_node l i)).
Proof.
  induction l as [|n r IH]; simpl; intros H; [exact H|].
  apply NoDup_cons in H. destruct H as [Hn Hr].
  destruct (decide (invitation n = i)); [exact Hr|].
  simpl. apply NoDup_cons. split; [|auto].
  intros Hin. apply Hn. apply list_elem_of_In.
  apply unlink_node_sublist with i. apply list_elem_of_In. exact Hin.
Qed.

Lemma ids_distinct_alter f c w :
  (forall cl, NoDup (ids (invitations_head cl)) ->
              NoDup (ids (invitations_head (f cl)))) ->
  ids_distinct w -> ids_distinct (set_clients (alter f c) w).
Proof.
  intros Hf Hw c' cl'. simpl. rewrite lookup_alter.
  destruct (decide (c = c')) as [<-|Hne].
  - destruct (clients w !! c) as [cl|] eqn:E; simpl; [|discriminate].
    intros [= <-]. apply Hf. eapply Hw. exact E.
  - apply Hw.
Qed.

Lemma ids_distinct_clients w w' :
  clients w' = clients w -> ids_distinct w -> ids_distinct w'.
Proof. intros E H c cl. rewrite E. apply H. Qed.

(** What [client_add_invitation] does to a client of the heap. *)
Lemma client_add_invitation_spec c i w cl id w' :
  clients w !! c = Some cl ->
  client_add_invitation (Some c) (Some i) w = (id, w') ->
  (id = -1 /\ clients w' = clients w /\ invitations w' = invitations w)
  \/ (least_free_id (invitations_head cl) id
      /\ clients w'
         = <[c := with_invitations_head (mkNODE i id :: invitations_head cl) cl]>
             (clients w)
      /\ invitations w'
         = alter (fun x => with_inv_ref_count (inv_ref_count x + 1) x) i
                 (invitations w)).
Proof.
  intros Hc. unfold client_add_invitation, bind.
  destruct (malloc_node w) as [ok w1] eqn:Em.
  assert (Hw1 : clients w1 = clients w /\ invitations w1 = invitations w).
  { unfold malloc_node in Em. destruct (node_mallocs w); injection Em as <- <-;
      split; reflexivity. }
  destruct Hw1 as [Hc1 Hi1].
  destruct ok; cbv beta iota; cbn [negb].
  - destruct (find_lowest_id_availalble_spec c w1) as (r & Hr & Hl).
    rewrite Hr. unfold upd_client, inv_ref, upd_invitation, bind, modify, ret.
    simpl. intros [= <- <-]. right.
    assert (Hcl : the_client c w1 = cl).
    { unfold the_client. rewrite Hc1, Hc. reflexivity. }
    rewrite Hcl in Hl. split; [exact Hl|]. simpl. rewrite Hc1, Hi1.
    split; [|reflexivity].
    apply map_eq. intros k. rewrite lookup_alter, lookup_insert.
    destruct (decide (c = k)) as [<-|Hne]; [rewrite Hc; reflexivity | reflexivity].
  - unfold ret. intros [= <- <-]. left. auto.
Qed.

Lemma ids_distinct_link c i w :
  ids_distinct w -> ids_distinct (snd (client_add_invitation (Some c) (Some i) w)).
Proof.
  intros Hw.
  destruct (client_add_invitation (Some c) (Some i) w) as [id w'] eqn:E. simpl.
  destruct (clients w !! c) as [cl|] eqn:Hc.
  - destruct (client_add_invitation_spec _ _ _ _ _ _ Hc E)
      as [(_ & Hcl & _) | (Hl & Hcl & _)].
    + eapply ids_distinct_clients; eauto.
    + intros c' cl'. rewrite Hcl, lookup_insert.
      destruct (decide (c = c')) as [<-|Hne]; [|apply Hw].
      intros [= <-]. simpl. apply NoDup_cons. split; [|eapply Hw; eauto].
      destruct Hl as (_ & Hfree & _). rewrite list_elem_of_In. exact Hfree.
  - (* no client at this address: nothing is linked *)
    revert E. unfold client_add_invitation, bind.
    destruct (malloc_node w) as [ok w1] eqn:Em.
    assert (Hc1 : clients w1 = clients w).
    { unfold malloc_node in Em. destruct (node_mallocs w); injection Em as <- <-;
        reflexivity. }
    destruct ok; simpl.
    + unfold find_lowest_id_availalble, gets, upd_client, inv_ref,
        upd_invitation, modify, bind, ret. simpl. intros [= <- <-].
      intros c' cl'. simpl. rewrite Hc1, lookup_alter.
      destruct (decide (c = c')) as [<-|Hne]; [rewrite Hc; discriminate | apply Hw].
    + unfold ret. intros [= <- <-]. eapply ids_distinct_clients; eauto.
Qed.

#[local] Instance ids_distinct_stable :
  Stable (fun w w' => ids_distinct w -> ids_distinct w').
Proof.
  split; try (intros; eapply ids_distinct_clients; [reflexivity | assumption]).
  - auto.
  - intros c g w. apply ids_distinct_alter. auto.
  - intros c i w. apply ids_distinct_alter. simpl. intros cl.
    apply unlink_node_NoDup.
  - intros c i w. apply ids_distinct_link.
Qed.

#[local] Instance ids_distinct_session :
  StableSession (fun w w' => ids_distinct w -> ids_distinct w').
Proof.
  split.
  - intros c p w. apply ids_distinct_alter. auto.
  - intros d w Hw c cl. simpl. rewrite lookup_insert.
    destruct (decide _) as [<-|Hne]; [|apply Hw].
    intros [= <-]. simpl. constructor.
  - intros. eapply ids_distinct_clients; [reflexivity | assumption].
Qed.

#[local] Instance ids_distinct_service :
  StableService (fun w w' => ids_distinct w -> ids_distinct w').
Proof.
  split. intros. eapply ids_distinct_clients; [reflexivity | assumption].
Qed.

Lemma ids_distinct_initial : ids_distinct initial_world.
Proof. intros c cl. simpl. rewrite lookup_empty. discriminate. Qed.

(** C5. In every state that the server reaches the ids of the handles of
    any one client are mutually distinct; and when [client_add_invitation]
    adds an invitation to the list of a client, the id of the new handle,
    which is put at the head of the list, is the smallest non-negative
    integer that is not the id of a handle of that list, so that the ids
    are distinct after the call as well. *)
Theorem ids_lowest_and_distinct (w : World) (ts : list THREAD) :
  reachable w ts ->
  ids_distinct w
  /\ forall c cl i id w',
       clients w !! c = Some cl ->
       client_add_invitation (Some c) (Some i) w = (id, w') ->
       id <> -1 ->
       least_free_id (invitations_head cl) id
       /\ (exists cl', clients w' !! c = Some cl'
             /\ invitations_head cl' = mkNODE i id :: invitations_head cl)
       /\ ids_distinct w'.
Proof.
  intros Hr.
  assert (Hw : ids_distinct w).
  { eapply (reachable_invariant ids_distinct); eauto using ids_distinct_initial;
      typeclasses eauto. }
  split; [exact Hw|].
  intros c cl i id w' Hc Hadd Hid.
  destruct (client_add_invitation_spec _ _ _ _ _ _ Hc Hadd)
    as [(Hfail & _) | (Hl & Hcl & _)]; [congruence|].
  split; [exact Hl|]. split.
  - eexists. rewrite Hcl, lookup_insert_eq. split; reflexivity.
  - pose proof (ids_distinct_link c i w Hw) as H. rewrite Hadd in H. exact H.
Qed.

(** ** Invitations stay between two distinct clients *)

Lemma invitations_well_formed_alter f i w :
  (forall x, well_formed_invitation x -> well_formed_invitation (f x)) ->
  invitations_well_formed w ->
  invitations_well_formed (set_invitations (alter f i) w).
Proof.
  intros Hf Hw j y. simpl. rewrite lookup_alter.
  destruct (decide (i = j)) as [<-|Hne]; [|apply Hw].
  destruct (invitations w !! i) as [x|] eqn:E; simpl; [|discriminate].
  intros [= <-]. apply Hf. eapply Hw. exact E.
Qed.

Lemma invitations_well_formed_same w w' :
  invitations w' = invitations w ->
  invitations_well_formed w -> invitations_well_formed w'.
Proof. intros E H i x. rewrite E. apply H. Qed.

Lemma accept_invitation_well_formed x :
  well_formed_invitation x -> well_formed_invitation (fst (accept_invitation x)).
Proof.
  unfold accept_invitation, well_formed_invitation.
  destruct x as [rc s t sr tr g []]; simpl; auto.
Qed.

Lemma close_invitation_well_formed x role :
  well_formed_invitation x ->
  well_formed_invitation (fst (close_invitation x role)).
Proof.
  unfold close_invitation, well_formed_invitation.
  destruct x as [rc s t sr tr [g|] []]; destruct role; simpl; auto.
Qed.

(** [client_add_invitation] writes the reference count of the invitation
    and nothing else of the invitations. *)
Lemma client_add_invitation_invitations c i w :
  invitations (snd (client_add_invitation (Some c) (Some i) w)) = invitations w
  \/ invitations (snd (client_add_invitation (Some c) (Some i) w))
     = alter (fun x => with_inv_ref_count (inv_ref_count x + 1) x) i
             (invitations w).
Proof.
  unfold client_add_invitation, bind.
  destruct (malloc_node w) as [ok w1] eqn:Em.
  assert (Hi1 : invitations w1 = invitations w).
  { unfold malloc_node in Em. destruct (node_mallocs w); injection Em as <- <-;
      reflexivity. }
  destruct ok; cbv beta iota; cbn [negb].
  - right. unfold find_lowest_id_availalble, gets, upd_client, inv_ref,
      upd_invitation, modify, bind, ret. simpl. rewrite Hi1. reflexivity.
  - left. exact Hi1.
Qed.

#[local] Instance invitations_well_formed_stable :
  Stable (fun w w' => invitations_well_formed w -> invitations_well_formed w').
Proof.
  split;
    try (intros; eapply invitations_well_formed_same; [reflexivity | assumption]).
  - auto.
  - intros i g w. apply invitations_well_formed_alter. auto.
  - intros i g w. apply invitations_well_formed_alter. auto.
  - intros i w. apply invitations_well_formed_alter.
    apply accept_invitation_well_formed.
  - intros i role w. apply invitations_well_formed_alter.
    intros x. apply close_invitation_well_formed.
  - intros c i w Hw.
    destruct (client_add_invitation_invitations c i w) as [E | E].
    + eapply invitations_well_formed_same; eauto.
    + intros j y. rewrite E.
      apply (invitations_well_formed_alter
               (fun x => with_inv_ref_count (inv_ref_count x + 1) x) i w
               (fun x H => H) Hw j y).
Qed.

#[local] Instance invitations_well_formed_session :
  StableSession (fun w w' => invitations_well_formed w -> invitations_well_formed w').
Proof.
  split;
    try (intros; eapply invitations_well_formed_same; [reflexivity | assumption]).
  intros s t sr tr w Hst Hr Hw j y. simpl. rewrite lookup_insert.
  destruct (decide _) as [<-|Hne]; [|apply Hw].
  intros [= <-]. split; simpl; eauto.
Qed.

#[local] Instance invitations_well_formed_service :
  StableService (fun w w' => invitations_well_formed w -> invitations_well_formed w').
Proof.
  split. intros. eapply invitations_well_formed_same; [reflexivity | assumption].
Qed.

Lemma reachable_invitations_well_formed w ts :
  reachable w ts -> invitations_well_formed w.
Proof.
  apply (reachable_invariant invitations_well_formed); try typeclasses eauto.
  intros i x. simpl. rewrite lookup_empty. discriminate.
Qed.

(** ** Sending a packet *)

Lemma same_objects_refl w : same_objects w w.
Proof. repeat split. Qed.

Lemma same_objects_trans a b c :
  same_objects a b -> same_objects b c -> same_objects a c.
Proof.
  unfold same_objects. intros (?&?&?&?&?&?) (?&?&?&?&?&?).
  repeat split; congruence.
Qed.

(** A send writes [errno] and the record of the packets sent. *)
Lemma client_send_packet_spec c h d w :
  exists r w',
    client_send_packet (Some c) h d w = (r, w')
    /\ wire w' = mkSEND c h d r :: wire w
    /\ same_objects w w'.
Proof.
  unfold client_send_packet, client_get_fd, proto_send_packet, bind, gets,
    modify, ret.
  destruct (_ || _).
  - eexists _, _. split; [reflexivity|]. split; [reflexivity | repeat split].
  - cbn [fst snd broken set_errno].
    destruct (write_error _ _);
      eexists _, _; (split; [reflexivity|]); (split; [reflexivity | repeat split]).
Qed.

Lemma client_send_nack_spec c w :
  exists r r' w',
    client_send_nack (Some c) w = (r, w')
    /\ wire w' = mkSEND c (make_packet JEUX_NACK_PKT 0) None r' :: wire w
    /\ same_objects w w'.
Proof.
  unfold client_send_nack, bind.
  destruct (client_send_packet_spec c (make_packet JEUX_NACK_PKT 0) None w)
    as (r & w' & -> & Hw & Ho).
  destruct (r =? -1); eexists _, r, w'; (split; [reflexivity|]); auto.
Qed.

Lemma client_send_ack_spec c d n w :
  exists r r' w',
    client_send_ack (Some c) d n w = (r, w')
    /\ wire w' = mkSEND c (make_packet JEUX_ACK_PKT n) d r' :: wire w
    /\ same_objects w w'.
Proof.
  unfold client_send_ack, bind.
  destruct (client_send_packet_spec c (make_packet JEUX_ACK_PKT n) d w)
    as (r & w' & -> & Hw & Ho).
  destruct (r =? -1); eexists _, r, w'; (split; [reflexivity|]); auto.
Qed.

(** ** Looking a client up leaves the invitations alone *)

Lemma keeps_invitations_refl w : keeps_invitations w w.
Proof. repeat split. Qed.

Lemma keeps_invitations_trans a b c :
  keeps_invitations a b -> keeps_invitations b c -> keeps_invitations a c.
Proof.
  intros (?&?&Hab) (?&?&Hbc).
  split; [congruence|]. split; [congruence|].
  intros x. rewrite Hbc. apply Hab.
Qed.

Lemma keeps_invitations_alter_client f c w :
  (forall cl, invitations_head (f cl) = invitations_head cl) ->
  keeps_invitations w (set_clients (alter f c) w).
Proof.
  intros Hf. repeat split. intros c'. unfold the_client. simpl.
  rewrite lookup_alter. destruct (decide (c = c')) as [<-|Hne]; [|reflexivity].
  destruct (clients w !! c); simpl; auto.
Qed.

Lemma keeps_invitations_players f w : keeps_invitations w (set_players f w).
Proof. repeat split. Qed.

Lemma keeps_invitations_bind {A B} (m : M A) (k : A -> M B) :
  (forall w, keeps_invitations w (snd (m w))) ->
  (forall a w, keeps_invitations w (snd (k a w))) ->
  forall w, keeps_invitations w (snd (bind m k w)).
Proof.
  intros Hm Hk w. unfold bind. specialize (Hm w). destruct (m w) as [a w1].
  eapply keeps_invitations_trans; [exact Hm | apply Hk].
Qed.

Lemma client_ref_keeps c w : keeps_invitations w (snd (client_ref c w)).
Proof.
  destruct c as [c|]; [|apply keeps_invitations_refl].
  apply (keeps_invitations_alter_client _ c w). reflexivity.
Qed.

Lemma player_unref_keeps p w : keeps_invitations w (snd (player_unref p w)).
Proof.
  destruct p as [p|]; [|apply keeps_invitations_refl].
  apply keeps_invitations_players.
Qed.

Lemma client_unref_keeps c w : keeps_invitations w (snd (client_unref c w)).
Proof.
  destruct c as [c|]; [|apply keeps_invitations_refl].
  unfold client_unref. revert w. apply keeps_invitations_bind.
  - intros w. apply (keeps_invitations_alter_client _ c w). reflexivity.
  - intros _. apply keeps_invitations_bind; [intros w; apply keeps_invitations_refl|].
    intros n. destruct (n =? 0); [|intros w; apply keeps_invitations_refl].
    apply keeps_invitations_bind; [intros w; apply keeps_invitations_refl|].
    intros [p|] w; [apply player_unref_keeps | apply keeps_invitations_refl].
Qed.

Lemma creg_lookup_walk_keeps l u w :
  keeps_invitations w (snd (creg_lookup_walk l u w)).
Proof.
  revert w. induction l as [|c r IH]; intros w; [apply keeps_invitations_refl|].
  cbn [creg_lookup_walk]. revert w.
  apply keeps_invitations_bind.
  { intros w. destruct (client_get_player (Some c) w) eqn:E.
    unfold client_get_player, gets in E. injection E as _ <-.
    apply keeps_invitations_refl. }
  intros p. apply keeps_invitations_bind.
  { intros w. destruct p; apply keeps_invitations_refl. }
  intros n w. destruct p as [p|]; [|apply IH]. destruct n as [n|]; [|apply IH].
  destruct (strcmp_eq n u); [|apply IH].
  revert w. apply keeps_invitations_bind; [apply client_ref_keeps|].
  intros _ w. apply keeps_invitations_refl.
Qed.

Lemma creg_lookup_keeps u w : keeps_invitations w (snd (creg_lookup u w)).
Proof.
  destruct u as [u|]; [|apply keeps_invitations_refl].
  apply creg_lookup_walk_keeps.
Qed.

Lemma same_objects_keeps w w' :
  same_objects w w' -> wire w' = wire w -> keeps_invitations w w'.
Proof.
  intros (_ & Hi & Hc & _) Hw. repeat split; auto.
  intros c. unfold the_client. rewrite Hc. reflexivity.
Qed.

(** C10. In every state that the server reaches, no invitation has the
    same client as its source and its target.  An INVITE request whose
    user name [creg_lookup] resolves to the requesting client itself is
    answered by a NACK and by nothing else: no invitation is created or
    written and no list of handles changes. *)
Theorem no_self_invitation (w : World) (ts : list THREAD) :
  reachable w ts ->
  (forall i x, invitations w !! i = Some x -> sender x <> recipient x)
  /\ (forall client li hdr payload w1,
        pkt_type hdr = JEUX_INVITE_PKT ->
        creg_lookup payload w = (Some client, w1) ->
        exists w' nack,
          service_frame client li hdr payload w = (li, w')
          /\ wire w' = nack :: wire w
          /\ send_to nack = client
          /\ pkt_type (send_hdr nack) = JEUX_NACK_PKT
          /\ invitations w' = invitations w
          /\ forall c, invitations_head (the_client c w')
                       = invitations_head (the_client c w)).
Proof.
  intros Hr. split.
  - intros i x Hx.
    destruct (reachable_invitations_well_formed w ts Hr i x Hx)
      as [(s & t & -> & -> & Hst) _].
    congruence.
  - intros client li hdr payload w1 Ht Hl.
    unfold service_frame. rewrite Ht.
    change (JEUX_INVITE_PKT =? JEUX_NO_PKT) with false.
    change (JEUX_INVITE_PKT =? JEUX_LOGIN_PKT) with false.
    change (JEUX_INVITE_PKT =? JEUX_USERS_PKT) with false.
    change (JEUX_INVITE_PKT =? JEUX_INVITE_PKT) with true.
    cbv iota.
    destruct (li =? 0).
    + unfold bind.
      destruct (client_send_nack_spec client w) as (r & r' & w' & -> & Hw & Ho).
      exists w', (mkSEND client (make_packet JEUX_NACK_PKT 0) None r').
      split; [reflexivity|]. split; [exact Hw|].
      split; [reflexivity|]. split; [reflexivity|].
      destruct Ho as (_ & Hi & Hc & _). split; [exact Hi|].
      intros c. unfold the_client. rewrite Hc. reflexivity.
    + unfold bind at 1. rewrite Hl.
      rewrite (bool_decide_eq_true_2 (Some client = Some client) eq_refl).
      rewrite orb_true_r. unfold bind.
      pose proof (creg_lookup_keeps payload w) as K1. rewrite Hl in K1.
      pose proof (client_unref_keeps (Some client) w1) as K2.
      destruct (client_unref (Some client) w1) as [[] w2].
      destruct (client_send_nack_spec client w2) as (r & r' & w' & -> & Hw & Ho).
      pose proof (keeps_invitations_trans _ _ _ K1 K2) as (Hi & Hwire & Hh).
      exists w', (mkSEND client (make_packet JEUX_NACK_PKT 0) None r').
      simpl in Hi, Hwire, Hh.
      split; [reflexivity|]. split; [rewrite Hw, Hwire; reflexivity|].
      split; [reflexivity|]. split; [reflexivity|].
      destruct Ho as (_ & Hi' & Hc' & _). split; [congruence|].
      intros c. rewrite <- Hh. unfold the_client. rewrite Hc'. reflexivity.
Qed.

(** ** The functions of client.c send no replies *)

(** What [client_add_invitation] leaves as it is. *)
Lemma client_add_invitation_frame c i w :
  let w' := snd (client_add_invitation (Some c) (Some i) w) in
  wire w' = wire w /\ players w' = players w
  /\ (forall c', logged_in (the_client c' w') = logged_in (the_client c' w)
                 /\ player (the_client c' w') = player (the_client c' w)).
Proof.
  unfold client_add_invitation, bind.
  destruct (malloc_node w) as [ok w1] eqn:Em.
  assert (Hw1 : wire w1 = wire w /\ players w1 = players w
                /\ clients w1 = clients w).
  { unfold malloc_node in Em. destruct (node_mallocs w); injection Em as <- <-;
      repeat split. }
  destruct Hw1 as (Hwi & Hp & Hc).
  destruct ok; cbv beta iota zeta; cbn [negb].
  - unfold find_lowest_id_availalble, gets, upd_client, inv_ref,
      upd_invitation, modify, bind, ret. cbn [fst snd].
    split; [exact Hwi|]. split; [exact Hp|].
    intros c'. unfold the_client. cbn [clients set_clients set_invitations].
    rewrite lookup_alter, Hc.
    destruct (decide (c = c')) as [<-|Hne]; [|split; reflexivity].
    destruct (clients w !! c); split; reflexivity.
  - cbn [snd ret]. split; [exact Hwi|]. split; [exact Hp|].
    intros c'. unfold the_client. rewrite Hc. split; reflexivity.
Qed.

Lemma quiet_same w w' : wire w' = wire w -> quiet w w'.
Proof. intros E. exists []. split; [exact E | constructor]. Qed.

#[local] Instance quiet_stable : Stable quiet.
Proof.
  split; try (intros; apply quiet_same; reflexivity).
  - intros a b c (o1 & H1 & F1) (o2 & H2 & F2). exists (o2 ++ o1).
    split; [|apply Forall_app; auto].
    unfold sent in *. rewrite H2, H1. apply app_assoc.
  - intros c i w. apply quiet_same.
    exact (proj1 (client_add_invitation_frame c i w)).
  - intros s w Hs. exists [s]. split; [reflexivity|]. repeat constructor. exact Hs.
Qed.

#[local] Instance quiet_session : StableSession quiet.
Proof. split; intros; apply quiet_same; reflexivity. Qed.

(** ** The functions of client.c other than the login keep the logins *)

Lemma same_logins_alter f c w :
  (forall cl, logged_in (f cl) = logged_in cl /\ player (f cl) = player cl) ->
  same_logins w (set_clients (alter f c) w).
Proof.
  intros Hf c'. unfold the_client. simpl. rewrite lookup_alter.
  destruct (decide (c = c')) as [<-|Hne]; [|split; reflexivity].
  destruct (clients w !! c); simpl; [apply Hf | split; reflexivity].
Qed.

Lemma same_logins_clients w w' : clients w' = clients w -> same_logins w w'.
Proof. intros E c. unfold the_client. rewrite E. split; reflexivity. Qed.

#[local] Instance same_logins_stable : Stable same_logins.
Proof.
  split; try (intros; apply same_logins_clients; reflexivity).
  - intros a b c Hab Hbc x. destruct (Hab x), (Hbc x). split; congruence.
  - intros c g w. apply same_logins_alter. intros cl. split; reflexivity.
  - intros c i w. apply same_logins_alter. intros cl. split; reflexivity.
  - intros c i w. exact (proj2 (proj2 (client_add_invitation_frame c i w))).
Qed.

(** ** Replies *)

Lemma replies_to_app c a b : replies_to c (a ++ b) = replies_to c a ++ replies_to c b.
Proof. apply List.filter_app. Qed.

(** ** Login *)

Lemma only_players_refl w : only_players w w.
Proof. exists (fun m => m). destruct w; reflexivity. Qed.

Lemma only_players_trans a b c :
  only_players a b -> only_players b c -> only_players a c.
Proof. intros [f ->] [g ->]. exists (fun m => g (f m)). reflexivity. Qed.

Lemma only_players_bind {A B} (m : M A) (k : A -> M B) :
  (forall w, only_players w (snd (m w))) ->
  (forall a w, only_players w (snd (k a w))) ->
  forall w, only_players w (snd (bind m k w)).
Proof.
  intros Hm Hk w. unfold bind. specialize (Hm w). destruct (m w) as [a w1].
  eapply only_players_trans; [exact Hm | apply Hk].
Qed.

Lemma player_ref_only_players p w : only_players w (snd (player_ref p w)).
Proof. destruct p; [eexists; reflexivity | apply only_players_refl]. Qed.

Lemma player_unref_only_players p w : only_players w (snd (player_unref p w)).
Proof. destruct p; [eexists; reflexivity | apply only_players_refl]. Qed.

Lemma creg_all_players_walk_only_players l i w :
  only_players w (snd (creg_all_players_walk l i w)).
Proof.
  revert i w. induction l as [|c r IH]; intros i w; [apply only_players_refl|].
  cbn [creg_all_players_walk].
  destruct (i <? MAX_CLIENTS); [|apply only_players_refl].
  revert w. apply only_players_bind.
  { intros w. unfold client_get_player, gets. apply only_players_refl. }
  intros [q|] w; [|apply IH].
  revert w. apply only_players_bind; [apply player_ref_only_players|].
  intros _. apply only_players_bind; [apply IH|].
  intros rest w. apply only_players_refl.
Qed.

Lemma same_name_walk_only_players l n r w :
  only_players w (snd (same_name_walk l n r w)).
Proof.
  revert r w. induction l as [|p l IH]; intros r w; [apply only_players_refl|].
  cbn [same_name_walk]. revert w.
  apply only_players_bind; [apply player_unref_only_players|].
  intros _. apply only_players_bind; [intros w; apply only_players_refl|].
  intros n' w. apply IH.
Qed.

Lemma check_same_name_only_players n w :
  only_players w (snd (check_if_other_clients_logged_in_with_same_name n w)).
Proof.
  revert w. apply only_players_bind.
  - intros w. apply creg_all_players_walk_only_players.
  - intros l w. apply same_name_walk_only_players.
Qed.

Lemma only_players_fields w w' :
  only_players w w' ->
  clients w' = clients w /\ invitations w' = invitations w
  /\ wire w' = wire w /\ preg_head w' = preg_head w
  /\ creg_head w' = creg_head w /\ client_count w' = client_count w.
Proof. intros [f ->]. repeat split. Qed.

Lemma strcmp_eq_cstr n : strcmp_eq (cstr n) n = true.
Proof. unfold strcmp_eq. rewrite cstr_idem. apply String.eqb_refl. Qed.

(** [preg_register] returns the player that the registry holds under the
    name, which it has created if there was none. *)
Lemma preg_register_spec name w :
  exists q w',
    preg_register name w = (Some q, w')
    /\ preg_find (preg_head w') name = Some q
    /\ clients w' = clients w /\ wire w' = wire w
    /\ invitations w' = invitations w.
Proof.
  unfold preg_register, bind, gets.
  destruct (preg_find (preg_head w) name) as [q|] eqn:E.
  - exists q. eexists. split; [reflexivity|]. simpl. auto.
  - eexists _, _. split; [reflexivity|]. simpl.
    rewrite strcmp_eq_cstr. auto.
Qed.

(** [client_login] either fails and writes PLAYER objects only, or binds
    the client to the player and marks it as logged in. *)
Lemma client_login_spec c p w val w' :
  client_login (Some c) p w = (val, w') ->
  wire w' = wire w /\ preg_head w' = preg_head w
  /\ invitations w' = invitations w
  /\ ((val = -1 /\ clients w' = clients w)
      \/ (val = 0 /\ clients w' = alter (with_login 1 p) c (clients w))).
Proof.
  unfold client_login. unfold bind at 1. unfold gets at 1. cbv beta iota.
  unfold bind at 1.
  set (chk := if negb (logged_in (the_client c w) =? 0) then _ else _).
  assert (Hc : only_players w (snd (chk w))).
  { subst chk. destruct (negb _); [apply only_players_refl|].
    revert w. apply only_players_bind.
    - intros w. destruct p; apply only_players_refl.
    - intros n w. apply check_same_name_only_players. }
  destruct (chk w) as [taken w1]. cbn [snd] in Hc.
  destruct (only_players_fields _ _ Hc) as (Hcl & Hi & Hw & Hp & _).
  destruct (negb (taken =? 0)).
  - intros [= <- <-]. repeat split; auto.
  - unfold upd_client, bind, modify, ret.
    destruct (player_ref p _) as [x w2] eqn:E. intros [= <- <-].
    pose proof (player_ref_only_players p
                  (set_clients (alter (with_login 1 p) c) w1)) as H2.
    rewrite E in H2. cbn [snd] in H2.
    destruct (only_players_fields _ _ H2) as (Hcl2 & Hi2 & Hw2 & Hp2 & _).
    simpl in *. repeat split; try congruence.
    right. split; [reflexivity|]. congruence.
Qed.

(** A NACK and the return of the flag. *)
Lemma nack_and_return c (li : Z) w :
  exists w' r,
    (client_send_nack (Some c) ;;; ret li) w = (li, w')
    /\ wire w' = mkSEND c (make_packet JEUX_NACK_PKT 0) None r :: wire w
    /\ same_objects w w'.
Proof.
  unfold bind.
  destruct (client_send_nack_spec c w) as (r & r' & w' & -> & Hw & Ho).
  exists w', r'. auto.
Qed.

(** ** Accepting an invitation *)

Lemma the_invitation_in_heap i w :
  recipient (the_invitation i w) <> None ->
  exists x, invitations w !! i = Some x /\ the_invitation i w = x.
Proof.
  unfold the_invitation. destruct (invitations w !! i) as [x|]; simpl.
  - eauto.
  - congruence.
Qed.

(** A successful [client_accept_invitation]: the handle and the invitation
    it names, the one packet that is sent, and what is left in the
    variable of the caller. *)
Lemma client_accept_invitation_ok client id str0 w str w1 :
  client_accept_invitation client id str0 w = ((0, str), w1) ->
  exists node x src h d r,
    find_node_by_id (invitations_head (the_client client w)) id = Some node
    /\ invitations w !! invitation node = Some x
    /\ sender x = Some src /\ recipient x = Some client
    /\ state x = INV_OPEN_STATE
    /\ wire w1 = mkSEND src h d r :: wire w
    /\ pkt_type h = JEUX_ACCEPTED_PKT
    /\ ((source_role x = FIRST_PLAYER_ROLE /\ d = Some initial_board
         /\ str = str0)
        \/ (source_role x <> FIRST_PLAYER_ROLE /\ d = None
            /\ str = Some initial_board)).
Proof.
  unfold client_accept_invitation, inv_get_target, inv_get_source,
    inv_get_game, inv_get_source_role, bind, gets, ret.
  cbv beta iota.
  destruct (find_node_by_id _ id) as [node|] eqn:En; [|intros [=]].
  destruct (bool_decide (recipient (the_invitation (invitation node) w)
                         <> Some client)) eqn:Et; [intros [=]|].
  apply bool_decide_eq_false in Et.
  assert (Ht : recipient (the_invitation (invitation node) w) = Some client).
  { destruct (decide (recipient (the_invitation (invitation node) w)
                      = Some client)); tauto. }
  destruct (the_invitation_in_heap (invitation node) w) as (x & Hx & Ex);
    [congruence|].
  rewrite Ex in *.
  destruct (bool_decide (game x <> None)) eqn:Eg; [intros [=]|].
  rewrite (inv_accept_spec _ _ _ Hx).
  destruct (snd (accept_invitation x) =? -1) eqn:Ea; [intros [=]|].
  assert (Hs : state x = INV_OPEN_STATE).
  { revert Ea. unfold accept_invitation.
    destruct (bool_decide (state x = INV_OPEN_STATE)) eqn:E; simpl.
    - intros _. apply bool_decide_eq_true in E. exact E.
    - discriminate. }
  set (w2 := set_invitations _ w).
  assert (Hx2 : the_invitation (invitation node) w2
                = with_game (Some game_create) (with_state INV_ACCEPTED_STATE x)).
  { unfold the_invitation, w2. simpl. rewrite lookup_alter_eq, Hx. simpl.
    unfold accept_invitation. rewrite Hs. reflexivity. }
  destruct (sender x) as [src|] eqn:Esrc.
  2:{ simpl. intros [=]. }
  unfold list_of, gets. cbv beta iota.
  destruct (find_node_by_inv _ (invitation node)) as [source_node|];
    [|intros [=]].
  rewrite Hx2. cbn [source_role game with_game with_state default].
  fold initial_board.
  destruct (bool_decide (source_role x = FIRST_PLAYER_ROLE)) eqn:Er.
  - apply bool_decide_eq_true in Er.
    match goal with |- context [client_send_packet (Some src) ?h ?d w2] =>
      destruct (client_send_packet_spec src h d w2) as (r & w' & -> & Hw & _)
    end.
    destruct (negb (r =? 0)); intros [= <- <-].
    exists node, x, src. eexists _, _, r.
    repeat split; try eassumption; try reflexivity. left. auto.
  - apply bool_decide_eq_false in Er.
    match goal with |- context [client_send_packet (Some src) ?h ?d w2] =>
      destruct (client_send_packet_spec src h d w2) as (r & w' & -> & Hw & _)
    end.
    destruct (negb (r =? 0)); intros [= <- <-].
    exists node, x, src. eexists _, _, r.
    repeat split; try eassumption; try reflexivity. right. auto.
Qed.

(** C4. When a client that has logged in accepts an invitation with
    success, two packets are sent: ACCEPTED to the source and then the ACK
    to the accepting target.  The ACCEPTED packet carries the initial
    board if and only if the source plays FIRST, the ACK carries it if
    and only if the target plays FIRST, and exactly one of the two
    carries it, the other having no payload. *)
Theorem accept_delivers_board_once (w : World) (ts : list THREAD)
  (client : ptr) (li : Z) (hdr : JEUX_PACKET_HEADER) (payload : option string)
  (str : option string) (w1 : World) :
  reachable w ts ->
  pkt_type hdr = JEUX_ACCEPT_PKT ->
  li <> 0 ->
  client_accept_invitation client (pkt_id hdr) None w = ((0, str), w1) ->
  exists node x src accepted ack w',
    find_node_by_id (invitations_head (the_client client w)) (pkt_id hdr)
    = Some node
    /\ invitations w !! invitation node = Some x
    /\ sender x = Some src /\ recipient x = Some client
    /\ service_frame client li hdr payload w = (li, w')
    /\ wire w' = ack :: accepted :: wire w
    /\ send_to accepted = src
    /\ pkt_type (send_hdr accepted) = JEUX_ACCEPTED_PKT
    /\ send_to ack = client
    /\ pkt_type (send_hdr ack) = JEUX_ACK_PKT
    /\ (send_data accepted = Some initial_board
        <-> source_role x = FIRST_PLAYER_ROLE)
    /\ (send_data ack = Some initial_board
        <-> target_role x = FIRST_PLAYER_ROLE)
    /\ ((send_data accepted = Some initial_board /\ send_data ack = None)
        \/ (send_data accepted = None /\ send_data ack = Some initial_board)).
Proof.
  intros Hr Ht Hli Hacc.
  destruct (client_accept_invitation_ok _ _ _ _ _ _ Hacc)
    as (node & x & src & h & d & r & Hn & Hx & Hsrc & Htgt & _ & Hw1 & Hh & Hd).
  destruct (reachable_invitations_well_formed w ts Hr _ x Hx) as [_ Hroles].
  assert (Hsf : exists ack_pkt r2 w',
             service_frame client li hdr payload w = (li, w')
             /\ wire w' = mkSEND client ack_pkt str r2 :: wire w1
             /\ pkt_type ack_pkt = JEUX_ACK_PKT).
  { unfold service_frame. rewrite Ht.
    change (JEUX_ACCEPT_PKT =? JEUX_NO_PKT) with false.
    change (JEUX_ACCEPT_PKT =? JEUX_LOGIN_PKT) with false.
    change (JEUX_ACCEPT_PKT =? JEUX_USERS_PKT) with false.
    change (JEUX_ACCEPT_PKT =? JEUX_INVITE_PKT) with false.
    change (JEUX_ACCEPT_PKT =? JEUX_REVOKE_PKT) with false.
    change (JEUX_ACCEPT_PKT =? JEUX_DECLINE_PKT) with false.
    change (JEUX_ACCEPT_PKT =? JEUX_ACCEPT_PKT) with true.
    cbv iota. destruct (li =? 0) eqn:E; [lia|].
    unfold bind at 1. rewrite Hacc. change (0 =? -1) with false. cbv iota.
    unfold bind.
    match goal with |- context [client_send_packet (Some client) ?h ?d w1] =>
      destruct (client_send_packet_spec client h d w1) as (r2 & w' & -> & Hw & _);
      exists h, r2, w'
    end.
    split; [reflexivity|]. split; [exact Hw|].
    destruct str; reflexivity. }
  destruct Hsf as (ack_pkt & r2 & w' & Hsf & Hw' & Hack).
  exists node, x, src, (mkSEND src h d r), (mkSEND client ack_pkt str r2), w'.
  split; [exact Hn|]. split; [exact Hx|]. split; [exact Hsrc|].
  split; [exact Htgt|]. split; [exact Hsf|].
  split; [rewrite Hw', Hw1; reflexivity|].
  split; [reflexivity|]. split; [exact Hh|]. split; [reflexivity|].
  split; [exact Hack|]. cbn [send_data].
  destruct Hd as [(Hfirst & -> & ->) | (Hnot & -> & ->)].
  - destruct Hroles as [[_ Htr] | [Hsr _]]; [|congruence].
    repeat split; auto; congruence.
  - destruct Hroles as [[Hsr _] | [_ Htr]]; [congruence|].
    repeat split; auto; congruence.
Qed.

(** ** Logging out *)

Lemma the_client_lookup c w cl : clients w !! c = Some cl -> the_client c w = cl.
Proof. intros H. unfold the_client. rewrite H. reflexivity. Qed.

(** [client_logout] of a client that is not logged in is an error and
    changes nothing. *)
Lemma client_logout_not_logged_in c w :
  logged_in (the_client c w) = 0 -> client_logout c w = (-1, w).
Proof.
  intros H. unfold client_logout, bind, gets. rewrite H. reflexivity.
Qed.

(** [client_logout] leaves every client logged in as it was, the one
    that it logs out included. *)
Lemma client_logout_same_logins c w :
  same_logins w (snd (client_logout c w)).
Proof. apply (steps_client_logout same_logins). Qed.

(** C6, where the code departs from it.  After a logout that succeeds
    the client still counts as logged in and still holds its player: a
    second logout succeeds as well instead of failing, and it releases
    the player a second time.  Here the client has no invitation left,
    as after the first logout of a client whose list could be emptied. *)
Theorem client_logout_twice (c : ptr) (w : World) (cl : CLIENT) (p : ptr)
  (pl : PLAYER) :
  clients w !! c = Some cl ->
  logged_in cl <> 0 ->
  player cl = Some p ->
  invitations_head cl = [] ->
  players w !! p = Some pl ->
  exists w1 w2,
    client_logout c w = (0, w1)
    /\ client_logout c w1 = (0, w2)
    /\ the_client c w1 = cl
    /\ player_ref_count (the_player p w1) = player_ref_count pl - 1
    /\ player_ref_count (the_player p w2) = player_ref_count pl - 2.
Proof.
  intros Hc Hli Hp Hl Hpl.
  assert (Hrun : forall w0 pl0,
            clients w0 !! c = Some cl -> players w0 !! p = Some pl0 ->
            client_logout c w0
            = (0, set_players
                    (alter (fun x => with_player_ref_count
                                       (player_ref_count x - 1) x) p) w0)).
  { intros w0 pl0 Hc0 Hp0. unfold client_logout, bind, gets. cbv beta iota.
    rewrite (the_client_lookup _ _ _ Hc0).
    destruct (logged_in cl =? 0) eqn:E; [lia|].
    rewrite (the_client_lookup _ _ _ Hc0), Hp. unfold player_unref, upd_player, modify. cbv beta iota.
    match goal with |- context [the_client c ?w1] =>
      change (the_client c w1) with (the_client c w0)
    end.
    rewrite (the_client_lookup _ _ _ Hc0), Hl. reflexivity. }
  eexists _, _. split; [apply (Hrun w pl Hc Hpl)|].
  split.
  - eapply Hrun; [exact Hc|]. simpl. rewrite lookup_alter_eq, Hpl. reflexivity.
  - split; [apply the_client_lookup; exact Hc|].
    unfold the_player. simpl. rewrite !lookup_alter_eq, Hpl. simpl. split; lia.
Qed.

(** ** Making an invitation *)

Lemma same_lists_refl w : same_lists w w.
Proof. intros c. reflexivity. Qed.

Lemma same_lists_trans a b c :
  same_lists a b -> same_lists b c -> same_lists a c.
Proof. intros Hab Hbc x. rewrite Hbc. apply Hab. Qed.

Lemma same_lists_clients w w' : clients w' = clients w -> same_lists w w'.
Proof. intros E c. unfold the_client. rewrite E. reflexivity. Qed.

Lemma same_lists_bind {A B} (m : M A) (k : A -> M B) :
  (forall w, same_lists w (snd (m w))) ->
  (forall a w, same_lists w (snd (k a w))) ->
  forall w, same_lists w (snd (bind m k w)).
Proof.
  intros Hm Hk w. unfold bind. specialize (Hm w). destruct (m w) as [a w1].
  eapply same_lists_trans; [exact Hm | apply Hk].
Qed.

Lemma client_unref_same_lists c w : same_lists w (snd (client_unref c w)).
Proof. exact (proj2 (proj2 (client_unref_keeps c w))). Qed.

Lemma client_ref_same_lists c w : same_lists w (snd (client_ref c w)).
Proof. exact (proj2 (proj2 (client_ref_keeps c w))). Qed.

Lemma inv_unref_same_lists i w : same_lists w (snd (inv_unref i w)).
Proof.
  destruct i as [i|]; [|apply same_lists_refl].
  unfold inv_unref. revert w. apply same_lists_bind.
  { intros w. apply same_lists_clients. reflexivity. }
  intros _. apply same_lists_bind; [intros w; apply same_lists_refl|].
  intros x. destruct (inv_ref_count x =? 0); [|intros w; apply same_lists_refl].
  apply same_lists_bind.
  { intros w. destruct (sender x);
      [apply client_unref_same_lists | apply same_lists_refl]. }
  intros _. apply same_lists_bind.
  { intros w. destruct (recipient x);
      [apply client_unref_same_lists | apply same_lists_refl]. }
  intros _ w. destruct (game x);
    [apply same_lists_clients; reflexivity | apply same_lists_refl].
Qed.

Lemma inv_create_spec s t sr tr w :
  exists w',
    inv_create s t sr tr w = (Some (fresh (dom (invitations w))), w')
    /\ same_lists w w'
    /\ node_mallocs w' = node_mallocs w
    /\ (forall c, c ∈ dom (clients w) <-> c ∈ dom (clients w')).
Proof.
  unfold inv_create. unfold bind at 1. cbv beta iota zeta.
  set (w0 := set_invitations _ w).
  unfold bind at 1.
  pose proof (client_ref_same_lists s w0) as H1.
  assert (N1 : node_mallocs (snd (client_ref s w0)) = node_mallocs w0
               /\ dom (clients (snd (client_ref s w0))) = dom (clients w0)).
  { destruct s; simpl; [|auto]. split; [reflexivity|]. apply dom_alter_L. }
  destruct (client_ref s w0) as [x1 w1]. cbn [snd] in *.
  unfold bind at 1.
  pose proof (client_ref_same_lists t w1) as H2.
  assert (N2 : node_mallocs (snd (client_ref t w1)) = node_mallocs w1
               /\ dom (clients (snd (client_ref t w1))) = dom (clients w1)).
  { destruct t; simpl; [|auto]. split; [reflexivity|]. apply dom_alter_L. }
  destruct (client_ref t w1) as [x2 w2]. cbn [snd] in *.
  exists w2. split; [reflexivity|].
  split.
  - eapply same_lists_trans; [|exact H2].
    eapply same_lists_trans; [|exact H1]. apply same_lists_clients. reflexivity.
  - destruct N1 as [N1 D1], N2 as [N2 D2]. split; [rewrite N2, N1; reflexivity|].
    intros c. rewrite D2, D1. reflexivity.
Qed.

(** C7, where the code departs from it.  When the allocation of the node
    for the target fails after the source has got its node,
    [client_make_invitation] gives up with -1 and releases its reference
    to the invitation, but the handle that it has put at the head of the
    list of the source stays there. *)
Theorem client_make_invitation_keeps_handle (source t : ptr)
  (sr tr : GAME_ROLE) (w : World) (cl : CLIENT) (l : list bool) :
  clients w !! source = Some cl ->
  node_mallocs w = true :: false :: l ->
  exists w' id,
    client_make_invitation source (Some t) sr tr w = (-1, w')
    /\ invitations w !! fresh (dom (invitations w)) = None
    /\ least_free_id (invitations_head cl) id
    /\ invitations_head (the_client source w')
       = mkNODE (fresh (dom (invitations w))) id :: invitations_head cl
    /\ (forall c, c <> source ->
          invitations_head (the_client c w') = invitations_head (the_client c w)).
Proof.
  intros Hc Hm. unfold client_make_invitation. unfold bind at 1.
  destruct (inv_create_spec (Some source) (Some t) sr tr w)
    as (w1 & -> & Hl1 & Hm1 & Hd1).
  set (i := fresh (dom (invitations w))).
  assert (Hfresh : invitations w !! i = None).
  { apply not_elem_of_dom. apply is_fresh. }
  assert (Hc1 : exists cl1, clients w1 !! source = Some cl1
                            /\ invitations_head cl1 = invitations_head cl).
  { assert (Hin : source ∈ dom (clients w1)).
    { apply Hd1. apply elem_of_dom. eauto. }
    apply elem_of_dom in Hin. destruct Hin as [cl1 Hcl1]. exists cl1.
    split; [exact Hcl1|]. specialize (Hl1 source).
    rewrite (the_client_lookup _ _ _ Hcl1), (the_client_lookup _ _ _ Hc) in Hl1.
    exact Hl1. }
  destruct Hc1 as (cl1 & Hcl1 & Hh1).
  unfold bind at 1.
  destruct (client_add_invitation (Some source) (Some i) w1) as [id w2] eqn:Eadd.
  (* the first allocation succeeds *)
  assert (Hadd : least_free_id (invitations_head cl) id
                 /\ invitations_head (the_client source w2)
                    = mkNODE i id :: invitations_head cl
                 /\ (forall c, c <> source ->
                       invitations_head (the_client c w2)
                       = invitations_head (the_client c w1))
                 /\ node_mallocs w2 = false :: l).
  { revert Eadd. unfold client_add_invitation, bind, malloc_node.
    rewrite Hm1, Hm. cbv beta iota. cbn [negb].
    destruct (find_lowest_id_availalble_spec source (set_node_mallocs (false :: l) w1))
      as (r & Hr & Hleast).
    rewrite Hr. unfold upd_client, inv_ref, upd_invitation, modify, ret, bind.
    cbv beta iota. intros [= <- <-].
    assert (Hcl' : the_client source (set_node_mallocs (false :: l) w1) = cl1).
    { unfold the_client. simpl. rewrite Hcl1. reflexivity. }
    rewrite Hcl', Hh1 in Hleast. split; [exact Hleast|].
    split; [|split].
    - unfold the_client. simpl. rewrite lookup_alter_eq, Hcl1. simpl.
      rewrite Hh1. reflexivity.
    - intros c Hne. unfold the_client. simpl.
      rewrite lookup_alter_ne by congruence. reflexivity.
    - reflexivity. }
  destruct Hadd as (Hleast & Hhead & Hothers & Hm2).
  assert (Hid : (id =? -1) = false).
  { destruct Hleast as (H0 & _). lia. }
  rewrite Hid. unfold bind at 1.
  (* the second allocation fails *)
  assert (Eadd2 : client_add_invitation (Some t) (Some i) w2
                  = (-1, set_node_mallocs l w2)).
  { unfold client_add_invitation, bind, malloc_node. rewrite Hm2. reflexivity. }
  rewrite Eadd2. change (-1 =? -1) with true. cbv iota.
  unfold bind, ret.
  pose proof (inv_unref_same_lists (Some i) (set_node_mallocs l w2)) as Hun.
  destruct (inv_unref (Some i) (set_node_mallocs l w2)) as [[] w3].
  cbn [snd] in Hun.
  exists w3, id. split; [reflexivity|]. split; [exact Hfresh|].
  split; [exact Hleast|]. split.
  - rewrite (Hun source). exact Hhead.
  - intros c Hne. rewrite (Hun c).
    change (the_client c (set_node_mallocs l w2)) with (the_client c w2).
    rewrite (Hothers c Hne). apply Hl1.
Qed.

(** * Further properties *)

(** ** C strings *)

Lemma strlen_nat_cstr s : strlen_nat (cstr s) = strlen_nat s.
Proof.
  induction s as [|c r IH]; simpl; [reflexivity|].
  destruct (Ascii.eqb c NUL) eqn:E; simpl; [reflexivity|].
  rewrite E, IH. reflexivity.
Qed.

Lemma strlen_nat_append a b :
  strlen_nat (cstr a +:+ cstr b) = (strlen_nat a + strlen_nat b)%nat.
Proof.
  induction a as [|c r IH]; simpl.
  - apply strlen_nat_cstr.
  - destruct (Ascii.eqb c NUL) eqn:E; simpl.
    + apply strlen_nat_cstr.
    + rewrite E, IH. reflexivity.
Qed.

Lemma strlen_strcat a b : strlen (strcat a b) = strlen a + strlen b.
Proof. unfold strlen, strcat. rewrite strlen_nat_append. lia. Qed.

Lemma cstr_append a b : cstr (cstr a +:+ cstr b) = cstr a +:+ cstr b.
Proof.
  induction a as [|c r IH]; simpl.
  - apply cstr_idem.
  - destruct (Ascii.eqb c NUL) eqn:E; simpl.
    + apply cstr_idem.
    + rewrite E, IH. reflexivity.
Qed.

Lemma cstr_strcat a b : cstr (strcat a b) = strcat a b.
Proof. apply cstr_append. Qed.

(** ** game.c *)

Lemma strlen_cell_str v : strlen (cell_str v) = 1.
Proof. unfold cell_str. destruct (v =? 0), (v =? 1); reflexivity. Qed.

(** X1. The rendering of a game state, whatever the state, is a string of 44
    characters without a NUL inside: it fits the 48 bytes that
    [game_unparse_state] allocates, and a MOVED or ACCEPTED packet that
    carries it has a payload of 44 bytes. *)
Theorem game_unparse_state_length (g : GAME) :
  strlen (game_unparse_state g) = 44
  /\ cstr (game_unparse_state g) = game_unparse_state g.
Proof.
  unfold game_unparse_state. split.
  - rewrite !strlen_strcat, !strlen_cell_str.
    destruct (negb (turn_X g =? 0)); reflexivity.
  - apply cstr_strcat.
Qed.

Lemma chr_digits : chr "0" = 48 /\ chr "1" = 49 /\ chr "9" = 57.
Proof. repeat split. Qed.

(** X2. Whatever [game_parse_move] returns is a move of player 1 or 2 on a
    square from 1 to 9, read off a string of length 1 or 4 whose first
    character is the digit of the square, for a role that is not out of
    turn; for a string of length 1 the player is the one of the role
    (player 2 for NULL_ROLE). *)
Theorem game_parse_move_sound (g : GAME) (role : GAME_ROLE) (s : string)
  (m : GAME_MOVE) :
  game_parse_move g role s = Some m ->
  legal_move m
  /\ role_out_of_turn g role = false
  /\ (strlen s = 1 \/ strlen s = 4)
  /\ move_square m = str_at s 0 - 48
  /\ (strlen s = 1 ->
      move_player m = if decide (role = FIRST_PLAYER_ROLE) then 1 else 2).
Proof.
  unfold game_parse_move, legal_move.
  destruct chr_digits as (E0 & E1 & E9). rewrite E0, E1, E9.
  destruct (role_out_of_turn g role); [discriminate|].
  destruct (strlen s =? 1) eqn:L1.
  - destruct ((str_at s 0 <? 49) || (str_at s 0 >? 57)) eqn:Ed; [discriminate|].
    apply orb_false_elim in Ed. destruct Ed as [Ha Hb].
    intros [= <-]. cbn [move_player move_square].
    repeat split; try lia.
    destruct (decide (role = FIRST_PLAYER_ROLE)); auto.
  - destruct (strlen s =? 4) eqn:L4; [|discriminate].
    destruct ((str_at s 0 <? 49) || (str_at s 0 >? 57)) eqn:Ed; [discriminate|].
    apply orb_false_elim in Ed. destruct Ed as [Ha Hb].
    destruct (_ || _); [discriminate|].
    intros [= <-]. cbn [move_player move_square].
    repeat split; try lia.
    destruct (str_at s 3 =? chr "X"); auto.
Qed.

(** X3. A string that is not 1 or 4 characters long, or that does not start
    with a digit from 1 to 9, is no move; neither is any string for a
    role that is not on the move. *)
Theorem game_parse_move_rejects (g : GAME) (role : GAME_ROLE) (s : string) :
  (strlen s <> 1 /\ strlen s <> 4)
  \/ str_at s 0 < 49 \/ str_at s 0 > 57
  \/ role_out_of_turn g role = true ->
  game_parse_move g role s = None.
Proof.
  intros H. unfold game_parse_move.
  destruct chr_digits as (E0 & E1 & E9). rewrite E0, E1, E9.
  destruct (role_out_of_turn g role) eqn:Hr; [reflexivity|].
  assert (Hd : (strlen s <> 1 /\ strlen s <> 4)
               \/ (str_at s 0 <? 49) || (str_at s 0 >? 57) = true).
  { destruct H as [H | [H | [H | H]]]; [left; exact H | right | right |
                                        discriminate H].
    - apply orb_true_iff. left. apply Z.ltb_lt. exact H.
    - apply orb_true_iff. right. apply Z.gtb_lt. lia. }
  destruct (Z.eqb_spec (strlen s) 1) as [L1|L1].
  - destruct Hd as [[Hd _] | Hd]; [contradiction|]. rewrite Hd. reflexivity.
  - destruct (Z.eqb_spec (strlen s) 4) as [L4|L4]; [|reflexivity].
    destruct Hd as [[_ Hd] | Hd]; [contradiction|]. rewrite Hd. reflexivity.
Qed.

(** X4. What an accepted move changes and what a refused move leaves
    alone.  [game_apply_move] returns 0 or -1.  On -1 the game is as it
    was.  On 0 the game had not ended, the square is on the board and was
    empty, a move of player 1 came on X's turn and a move of player 2 on
    O's turn, and afterwards that square holds the player, the other
    squares are as they were, the turn has passed to the other side and
    one more move is counted. *)
Theorem game_apply_move_effect (g : GAME) (m : GAME_MOVE) (g' : option GAME)
  (r : Z) :
  game_apply_move (Some g) (Some m) = (g', r) ->
  (r = -1 /\ g' = Some g)
  \/ (r = 0 /\ exists g1, g' = Some g1
      /\ terminated g = 0
      /\ 1 <= move_square m <= 9
      /\ cell g (Z.to_nat (move_square m - 1)) = 0
      /\ (move_player m = 1 -> turn_X g = 1)
      /\ (move_player m = 2 -> turn_X g = 0)
      /\ board g1 = <[Z.to_nat (move_square m - 1) := move_player m]> (board g)
      /\ turn_X g1 = (if turn_X g =? 0 then 1 else 0)
      /\ num_turns g1 = num_turns g + 1).
Proof.
  unfold game_apply_move.
  destruct (illegal_move g m) eqn:Hill.
  - intros [= <- <-]. left. auto.
  - set (g1 := set_turn_X (set_cell g _ _) _).
    assert (H1 : board g1
                 = <[Z.to_nat (move_square m - 1) := move_player m]> (board g)
                 /\ turn_X g1 = (if turn_X g =? 0 then 1 else 0)
                 /\ num_turns g1 = num_turns g).
    { subst g1. cbn [board turn_X num_turns set_turn_X set_cell].
      destruct (turn_X g =? 0); repeat split. }
    clearbody g1.
    set (g2 := if negb (win g1 1 =? 0) then _ else g1).
    assert (H2 : board g2 = board g1 /\ turn_X g2 = turn_X g1
                 /\ num_turns g2 = num_turns g1)
      by (subst g2; destruct (negb (win g1 1 =? 0)); repeat split).
    clearbody g2.
    set (g3 := if negb (win g2 2 =? 0) then _ else g2).
    assert (H3 : board g3 = board g2 /\ turn_X g3 = turn_X g2
                 /\ num_turns g3 = num_turns g2)
      by (subst g3; destruct (negb (win g2 2 =? 0)); repeat split).
    clearbody g3.
    set (g4 := set_num_turns g3 _).
    assert (H4 : board g4 = board g3 /\ turn_X g4 = turn_X g3
                 /\ num_turns g4 = num_turns g3 + 1) by (repeat split).
    clearbody g4.
    set (g5 := if num_turns g4 >=? 9 then _ else g4).
    assert (H5 : board g5 = board g4 /\ turn_X g5 = turn_X g4
                 /\ num_turns g5 = num_turns g4)
      by (subst g5; destruct (num_turns g4 >=? 9); repeat split).
    clearbody g5.
    intros [= <- <-]. right. split; [reflexivity|].
    unfold illegal_move in Hill.
    repeat (apply orb_false_elim in Hill; destruct Hill as [Hill ?]).
    exists g5. split; [reflexivity|].
    split; [destruct (terminated g =? 0) eqn:E; [lia | discriminate]|].
    split; [lia|].
    split; [destruct (cell g _ =? 0) eqn:E; [lia | discriminate]|].
    split; [intros Hp; rewrite Hp in *;
            destruct (turn_X g =? 1) eqn:E; [lia | discriminate]|].
    split; [intros Hp; rewrite Hp in *;
            destruct (turn_X g =? 0) eqn:E; [lia | discriminate]|].
    destruct H1 as (? & ? & ?), H2 as (? & ? & ?), H3 as (? & ? & ?),
      H4 as (? & ? & ?), H5 as (? & ? & ?).
    repeat split; [congruence | congruence | lia].
Qed.


(** The game that an accepted move leaves, written out field by field:
    both tests for three in a row are made on the board with the new
    mark. *)
Lemma game_apply_move_eq g m :
  illegal_move g m = false ->
  game_apply_move (Some g) (Some m)
  = (let g1 := set_cell g (Z.to_nat (move_square m - 1)) (move_player m) in
     (Some {| turn_X := if turn_X g =? 0 then 1 else 0;
              num_turns := num_turns g + 1;
              board := board g1;
              winner := if negb (win g1 2 =? 0) then SECOND_PLAYER_ROLE
                        else if negb (win g1 1 =? 0) then FIRST_PLAYER_ROLE
                        else winner g;
              terminated := if negb (win g1 1 =? 0) || negb (win g1 2 =? 0)
                               || (num_turns g + 1 >=? 9)
                            then 1 else terminated g;
              game_ref_count := game_ref_count g |}, 0)).
Proof.
  intros Hill. unfold game_apply_move. rewrite Hill.
  set (g1 := set_cell g _ _).
  set (g2 := set_turn_X g1 _).
  assert (E2 : forall p, win g2 p = win g1 p) by (intros; apply win_board; reflexivity).
  assert (F2 : g2 = set_turn_X g1 (if turn_X g =? 0 then 1 else 0)).
  { subst g2. f_equal. subst g1. cbn [turn_X set_cell].
    destruct (turn_X g =? 0); reflexivity. }
  clearbody g2.
  cbv zeta.
  assert (E3 : forall p, win (set_terminated (set_winner g2 FIRST_PLAYER_ROLE) 1) p
                         = win g1 p).
  { intros p. rewrite <- E2. apply win_board. reflexivity. }
  destruct (win g1 1 =? 0) eqn:W1; destruct (win g1 2 =? 0) eqn:W2;
    rewrite ?E2, ?W1; cbn [negb]; rewrite ?E3, ?E2, ?W2; cbn [negb];
    subst g2; cbn [num_turns set_num_turns set_terminated set_winner set_turn_X];
    destruct (num_turns g1 + 1 >=? 9) eqn:N; subst g1;
    cbn [num_turns set_cell] in N; rewrite ?N; reflexivity.
Qed.

Lemma game_apply_move_accepted g m g' :
  game_apply_move (Some g) (Some m) = (Some g', 0) -> illegal_move g m = false.
Proof.
  unfold game_apply_move.
  destruct (illegal_move g m); [discriminate | reflexivity].
Qed.

Lemma illegal_move_false g m :
  illegal_move g m = false ->
  terminated g = 0
  /\ 1 <= move_square m <= 9
  /\ cell g (Z.to_nat (move_square m - 1)) = 0
  /\ (move_player m = 1 -> turn_X g = 1)
  /\ (move_player m = 2 -> turn_X g = 0).
Proof.
  unfold illegal_move. intros Hill.
  repeat (apply orb_false_elim in Hill; destruct Hill as [Hill ?]).
  split; [destruct (terminated g =? 0) eqn:E; [lia | discriminate]|].
  split; [lia|].
  split; [destruct (cell g _ =? 0) eqn:E; [lia | discriminate]|].
  split; intros Hp; rewrite Hp in *.
  - destruct (turn_X g =? 1) eqn:E; [lia | discriminate].
  - destruct (turn_X g =? 0) eqn:E; [lia | discriminate].
Qed.

Lemma win_bool g p : win g p = 0 \/ win g p = 1.
Proof. unfold win. destruct (_ || _); auto. Qed.

Lemma cell_set_cell g i p j q :
  cell g i = 0 -> q <> 0 -> q <> p ->
  (cell (set_cell g i p) j =? q) = (cell g j =? q).
Proof.
  unfold cell, set_cell. cbn [board]. intros H0 Hq Hp.
  rewrite !nth_lookup in *. rewrite list_lookup_insert.
  destruct (decide (i = j /\ (i < length (board g))%nat)) as [[-> Hl]|Hn];
    [|reflexivity].
  rewrite H0. cbn [default].
  unfold id. destruct (Z.eqb_spec p q), (Z.eqb_spec 0 q); congruence.
Qed.

(** A mark of one player makes no three in a row for the other. *)
Lemma win_other g i p q :
  cell g i = 0 -> q <> 0 -> q <> p -> win (set_cell g i p) q = win g q.
Proof.
  intros H0 Hq Hp. unfold win.
  rewrite !(cell_set_cell g i p _ q H0 Hq Hp). reflexivity.
Qed.

Lemma result_settled_move g m g' :
  legal_move m ->
  game_apply_move (Some g) (Some m) = (Some g', 0) ->
  result_settled g -> result_settled g'.
Proof.
  intros [Hp _] H Hs.
  pose proof (game_apply_move_accepted _ _ _ H) as Hill.
  destruct (illegal_move_false _ _ Hill) as (Ht & _ & Hc & _).
  rewrite (game_apply_move_eq _ _ Hill) in H. cbv zeta in H.
  set (g1 := set_cell g _ _) in H.
  destruct Hs as [(_ & W1 & W2 & Hn & Hw) | (Ht1 & _)]; [|lia].
  assert (Hwin : forall p, win g' p = win g1 p).
  { intros p. apply win_board. injection H as <-. reflexivity. }
  assert (Hother : (move_player m = 1 /\ win g1 2 = 0)
                   \/ (move_player m = 2 /\ win g1 1 = 0)).
  { subst g1. destruct Hp as [Hp|Hp]; [left|right]; (split; [exact Hp|]);
      rewrite win_other; auto; lia. }
  unfold result_settled. rewrite !Hwin.
  injection H as <-. cbn [terminated winner num_turns].
  fold g1. rewrite Ht, Hw.
  destruct Hother as [[_ E]|[_ E]]; rewrite E; cbn [Z.eqb negb orb].
  - destruct (win_bool g1 1) as [E1|E1]; rewrite E1; cbn [Z.eqb negb orb].
    + destruct (num_turns g + 1 >=? 9) eqn:N.
      * right. split; [reflexivity|]. right. right. repeat split. lia.
      * left. repeat split. lia.
    + right. split; [reflexivity|]. left. repeat split.
  - destruct (win_bool g1 2) as [E1|E1]; rewrite E1; cbn [Z.eqb negb orb].
    + destruct (num_turns g + 1 >=? 9) eqn:N.
      * right. split; [reflexivity|]. right. right. repeat split. lia.
      * left. repeat split. lia.
    + right. split; [reflexivity|]. right. left. repeat split.
Qed.

Lemma result_settled_play ms : forall g g',
  Forall legal_move ms ->
  play g ms = Some g' ->
  result_settled g -> result_settled g'.
Proof.
  induction ms as [|m r IH]; intros g g' Hl H Hs.
  - cbn [play] in H. congruence.
  - rewrite play_cons in H.
    destruct (game_apply_move (Some g) (Some m)) as [[g1|] [| |]] eqn:E;
      try discriminate.
    inversion Hl as [|? ? Hm Hr]; subst.
    apply (IH g1 g' Hr H). exact (result_settled_move _ _ _ Hm E Hs).
Qed.

Lemma result_settled_create : result_settled game_create.
Proof. left. repeat split. Qed.

(** X5. The result of a game played by the rules agrees with its board.  After
    any moves of players 1 and 2 that [game_apply_move] accepted one after
    the other from the initial position: while the game is not over,
    nobody has three in a row, fewer than nine moves were made and
    [game_get_winner] is NULL_ROLE; once it is over, [game_get_winner] is
    the one player who has three in a row, or nine moves were made, nobody
    has three in a row and [game_get_winner] is NULL_ROLE. *)
Theorem game_result_sound (ms : list GAME_MOVE) (g : GAME) :
  Forall legal_move ms ->
  play game_create ms = Some g ->
  (game_is_over g = 0 /\ win g 1 = 0 /\ win g 2 = 0 /\ num_turns g < 9
   /\ game_get_winner (Some g) = NULL_ROLE)
  \/ (game_is_over g = 1
      /\ ((game_get_winner (Some g) = FIRST_PLAYER_ROLE
           /\ win g 1 = 1 /\ win g 2 = 0)
          \/ (game_get_winner (Some g) = SECOND_PLAYER_ROLE
              /\ win g 2 = 1 /\ win g 1 = 0)
          \/ (game_get_winner (Some g) = NULL_ROLE
              /\ win g 1 = 0 /\ win g 2 = 0 /\ num_turns g = 9))).
Proof.
  intros Hl H.
  pose proof (result_settled_play ms _ _ Hl H result_settled_create) as Hs.
  unfold game_is_over, game_get_winner.
  destruct Hs as [(Ht & W1 & W2 & Hn & Hw) | (Ht & Hs)]; rewrite Ht;
    cbn [Z.eqb negb]; [left | right].
  - rewrite W1, W2. cbn [Z.eqb negb]. repeat split; assumption.
  - split; [reflexivity|]. exact Hs.
Qed.

Lemma play_last g ms m g' :
  play g (ms ++ [m]) = Some g' ->
  exists g1, play g ms = Some g1
             /\ game_apply_move (Some g1) (Some m) = (Some g', 0).
Proof.
  rewrite play_app. destruct (play g ms) as [g1|]; [|discriminate].
  intros H. exists g1. split; [reflexivity|]. apply play_step. exact H.
Qed.

Lemma play_num_turns g ms g' :
  play g ms = Some g' -> num_turns g' = num_turns g + Z.of_nat (length ms).
Proof.
  destruct ms as [|m r].
  - cbn [play length]. intros [= <-]. lia.
  - intros H. apply (play_open _ _ _ H). discriminate.
Qed.

(** X6. No game has more than nine moves: a tenth is never accepted, whatever
    the moves were, and the game counts every move it accepted. *)
Theorem play_at_most_nine (ms : list GAME_MOVE) (g : GAME) :
  play game_create ms = Some g ->
  (length ms <= 9)%nat /\ num_turns g = Z.of_nat (length ms).
Proof.
  intros H. pose proof (play_num_turns _ _ _ H) as Hn.
  cbn [num_turns game_create] in Hn. split; [|lia].
  clear Hn. destruct (decide (ms = [])) as [->|Hne]; [simpl; lia|].
  destruct (exists_last Hne) as (r & m & ->).
  apply play_last in H. destruct H as (g1 & H1 & Hm).
  destruct (game_apply_move_ok _ _ _ Hm) as (Ht & _).
  rewrite length_app. cbn [length].
  destruct (decide (r = [])) as [->|Hne1]; [simpl; lia|].
  pose proof (play_num_turns _ _ _ H1) as Hn1.
  cbn [num_turns game_create] in Hn1.
  destruct (exists_last Hne1) as (r' & m' & ->).
  apply play_last in H1. destruct H1 as (g2 & _ & Hm').
  destruct (game_apply_move_ok _ _ _ Hm') as (_ & _ & _ & _ & Hend & _).
  destruct (Z_lt_le_dec (num_turns g1) 9) as [Hlt|Hge]; [lia|].
  destruct (Hend Hge). exact Ht.
Qed.

Lemma player_at_succ t i :
  player_at (if t =? 0 then 1 else 0) i = player_at t (S i).
Proof.
  unfold player_at. rewrite Nat.even_succ, <- Nat.negb_even.
  destruct (Nat.even i), (t =? 0); reflexivity.
Qed.

Lemma play_player_at ms : forall g g' i m,
  Forall legal_move ms ->
  play g ms = Some g' ->
  ms !! i = Some m ->
  move_player m = player_at (turn_X g) i.
Proof.
  induction ms as [|m0 r IH]; intros g g' i m Hl H Hi; [discriminate|].
  rewrite play_cons in H.
  destruct (game_apply_move (Some g) (Some m0)) as [[g1|] [| |]] eqn:E;
    try discriminate.
  inversion Hl as [|? ? Hm Hr]; subst.
  pose proof (game_apply_move_accepted _ _ _ E) as Hill.
  destruct (illegal_move_false _ _ Hill) as (_ & _ & _ & HX & HO).
  destruct i as [|j].
  - injection Hi as <-. unfold player_at. cbn [Nat.even].
    destruct Hm as [[Hp|Hp] _]; rewrite Hp.
    + rewrite (HX Hp). reflexivity.
    + rewrite (HO Hp). reflexivity.
  - cbn in Hi. rewrite (IH g1 g' j m Hr H Hi).
    rewrite (game_apply_move_eq _ _ Hill) in E. injection E as <-.
    cbn [turn_X]. apply player_at_succ.
Qed.

Lemma play_turn_X ms : forall g g',
  play g ms = Some g' ->
  turn_X g = 0 \/ turn_X g = 1 ->
  turn_X g' = if Nat.even (length ms) then turn_X g else 1 - turn_X g.
Proof.
  induction ms as [|m0 r IH]; intros g g' H Ht.
  - cbn [play] in H. injection H as <-. reflexivity.
  - rewrite play_cons in H.
    destruct (game_apply_move (Some g) (Some m0)) as [[g1|] [| |]] eqn:E;
      try discriminate.
    pose proof (game_apply_move_accepted _ _ _ E) as Hill.
    rewrite (game_apply_move_eq _ _ Hill) in E. injection E as <-.
    rewrite (IH _ _ H); cbn [turn_X length].
    + rewrite Nat.even_succ, <- Nat.negb_even.
      destruct (Nat.even (length r)), Ht as [Ht|Ht]; rewrite Ht; reflexivity.
    + destruct Ht as [Ht|Ht]; rewrite Ht; auto.
Qed.

(** X7. X moves first and the players take turns.  In any sequence of moves
    of players 1 and 2 that [game_apply_move] accepted one after the other
    from the initial position, the moves at the even places are moves of
    player 1 and those at the odd places moves of player 2; afterwards it
    is X's turn exactly if the number of moves is even. *)
Theorem players_alternate (ms : list GAME_MOVE) (g : GAME) :
  Forall legal_move ms ->
  play game_create ms = Some g ->
  (forall i m, ms !! i = Some m ->
               move_player m = if Nat.even i then 1 else 2)
  /\ turn_X g = if Nat.even (length ms) then 1 else 0.
Proof.
  intros Hl H. split.
  - intros i m Hi. rewrite (play_player_at ms _ _ i m Hl H Hi).
    unfold player_at. cbn [turn_X game_create Z.eqb]. reflexivity.
  - rewrite (play_turn_X ms _ _ H); cbn [turn_X game_create]; auto.
Qed.

(** X8. Resigning ends a game for good.  On a game that has not ended
    [game_resign] returns 0 and leaves the board as it was; from then on
    the game is over, [game_get_winner] is the role opposite to the one
    that resigned (the first player, if the role given was NULL_ROLE), and
    every further move and every further resignation is refused with -1
    and changes nothing.  On a game that has ended, or on no game,
    [game_resign] returns -1 and changes nothing. *)
Theorem game_resign_effect (g : GAME) (role : GAME_ROLE) :
  (terminated g = 0 ->
   exists g', game_resign (Some g) role = (Some g', 0)
     /\ board g' = board g
     /\ game_is_over g' = 1
     /\ game_get_winner (Some g')
        = (if decide (role = FIRST_PLAYER_ROLE)
           then SECOND_PLAYER_ROLE else FIRST_PLAYER_ROLE)
     /\ (forall m, game_apply_move (Some g') m = (Some g', -1))
     /\ (forall r, game_resign (Some g') r = (Some g', -1)))
  /\ (terminated g <> 0 -> game_resign (Some g) role = (Some g, -1))
  /\ game_resign None role = (None, -1).
Proof.
  split; [|split; [|reflexivity]].
  - intros Ht. unfold game_resign at 1. rewrite Ht. cbn [Z.eqb negb].
    eexists. split; [reflexivity|].
    split; [reflexivity|]. split; [reflexivity|]. split; [reflexivity|].
    split.
    + intros [m|]; [|reflexivity]. unfold game_apply_move.
      assert (Hill : illegal_move
                (set_winner (set_terminated g 1)
                   (if decide (role = FIRST_PLAYER_ROLE)
                    then SECOND_PLAYER_ROLE else FIRST_PLAYER_ROLE)) m = true).
      { unfold illegal_move. cbn [terminated set_winner set_terminated Z.eqb negb].
        apply orb_true_r. }
      rewrite Hill. reflexivity.
    + intros r. reflexivity.
  - intros Ht. unfold game_resign.
    destruct (Z.eqb_spec (terminated g) 0); [contradiction | reflexivity].
Qed.


(** ** protocol.c *)

Lemma htons_arith x :
  htons x = (u16 x mod 256) * 256 + (u16 x / 256) mod 256.
Proof.
  unfold htons. set (y := u16 x). cbv zeta.
  assert (Hd : Z.land (Z.shiftl (Z.land y 255) 8) (Z.land (Z.shiftr y 8) 255) = 0).
  { rewrite (Z.land_comm (Z.shiftr y 8) 255), Z.land_assoc.
    change 255 with (Z.ones 8) at 2. rewrite (Z.land_ones _ 8) by lia.
    rewrite Z.shiftl_mul_pow2 by lia. rewrite Z.mod_mul by lia.
    apply Z.land_0_l. }
  rewrite <- Z.lxor_lor by exact Hd.
  rewrite <- Z.add_nocarry_lxor by exact Hd.
  change 255 with (Z.ones 8). rewrite !Z.land_ones by lia.
  rewrite Z.shiftl_mul_pow2, Z.shiftr_div_pow2 by lia. reflexivity.
Qed.

Lemma u16_range x : 0 <= u16 x < 65536.
Proof. unfold u16. apply Z.mod_pos_bound. lia. Qed.

Lemma u16_small x : 0 <= x < 65536 -> u16 x = x.
Proof. unfold u16. apply Z.mod_small. Qed.

Lemma htons_range x : 0 <= htons x < 65536.
Proof.
  rewrite htons_arith. pose proof (u16_range x).
  pose proof (Z.mod_pos_bound (u16 x) 256). 
  pose proof (Z.mod_pos_bound (u16 x / 256) 256). lia.
Qed.

Lemma htons_htons x : htons (htons x) = u16 x.
Proof.
  rewrite (htons_arith (htons x)).
  rewrite (u16_small (htons x)) by apply htons_range.
  rewrite htons_arith. pose proof (u16_range x) as Hr.
  set (y := u16 x) in *. clearbody y.
  Z.div_mod_to_equations. lia.
Qed.

(** X9. The byte order conversions undo each other: what [ntohs] reads off
    a size stored with [htons] is the size, as a 16-bit number.  So the
    payload size that [proto_send_packet] reads off a header made by
    [make_packet] is the size the header was made for, reduced modulo
    65536, and the type of the header is the type given as a byte. *)
Theorem ntohs_htons (x : Z) :
  ntohs (htons x) = u16 x
  /\ htons (ntohs x) = u16 x
  /\ (forall type, ntohs (pkt_size (make_packet type x)) = u16 x
                   /\ pkt_type (make_packet type x) = u8 type).
Proof.
  unfold ntohs. repeat split; apply htons_htons.
Qed.

(** X10. When a packet goes out.  [client_send_packet] records the packet and
    returns 0 or -1.  It returns 0 exactly if the header and the payload
    agree (the size read off the header is zero exactly if there is no
    payload) and the write on the descriptor of the client does not fail;
    [errno] is then 0.  A header that disagrees with the payload is
    refused before anything is written, with [errno] 0; a failed write
    leaves its error in [errno].  Nothing but [errno] and the record of
    the packets changes.  For an ACK made by [client_send_ack] the size
    read off the header is the length given modulo 65536, so an ACK with
    a payload and a length that is a multiple of 65536 is refused. *)
Theorem client_send_packet_result (c : ptr) (h : JEUX_PACKET_HEADER)
  (data : option string) (w : World) :
  (exists r w',
     client_send_packet (Some c) h data w = (r, w')
     /\ wire w' = mkSEND c h data r :: wire w
     /\ same_objects w w'
     /\ ((r = 0 /\ (ntohs (pkt_size h) = 0 <-> data = None)
          /\ write_error (fd (the_client c w)) (broken w) = None
          /\ errno w' = 0)
         \/ (r = -1 /\ ~ (ntohs (pkt_size h) = 0 <-> data = None)
             /\ errno w' = 0)
         \/ (r = -1 /\ (ntohs (pkt_size h) = 0 <-> data = None)
             /\ write_error (fd (the_client c w)) (broken w) = Some (errno w'))))
  /\ (forall n, fst (client_send_ack (Some c) data n w) = 0 <->
                ((u16 n = 0 <-> data = None)
                 /\ write_error (fd (the_client c w)) (broken w) = None))
  /\ client_send_packet None h data w = (-1, w).
Proof.
  assert (Hv : forall k, ((k =? 0) && bool_decide (data <> None))
                         || (negb (k =? 0) && bool_decide (data = None)) = false
                         <-> (k = 0 <-> data = None)).
  { intros k. destruct (Z.eqb_spec k 0) as [Hk|Hk]; destruct data as [s|];
      cbn; split; intros H; try reflexivity; try discriminate H.
    - destruct H as [H _]. discriminate (H Hk).
    - split; intros; [reflexivity | exact Hk].
    - split; intros; [contradiction | discriminate].
    - destruct H as [_ H]. destruct (Hk (H eq_refl)). }
  split; [|split; [|reflexivity]].
  - unfold client_send_packet, client_get_fd, proto_send_packet, bind, gets,
      modify, ret.
    destruct (_ || _) eqn:E.
    + eexists _, _. split; [reflexivity|]. split; [reflexivity|].
      split; [repeat split|]. right. left. split; [reflexivity|].
      split; [|reflexivity]. intros Hok. apply Hv in Hok. congruence.
    + apply Hv in E. cbn [fst snd broken set_errno].
      destruct (write_error _ _) as [e|] eqn:We;
        eexists _, _; (split; [reflexivity|]); (split; [reflexivity|]);
        (split; [repeat split|]).
      * right. right. split; [reflexivity|]. split; [exact E | reflexivity].
      * left. split; [reflexivity|]. split; [exact E|]. split; reflexivity.
  - intros n. unfold client_send_ack, client_send_packet, client_get_fd,
      proto_send_packet, bind, gets, modify, ret.
    cbn [pkt_size make_packet]. unfold ntohs. rewrite htons_htons.
    destruct (_ || _) eqn:E.
    + cbn. split; [discriminate|]. intros [Hok _]. apply Hv in Hok. congruence.
    + apply Hv in E. cbn [fst snd broken set_errno].
      destruct (write_error _ _) as [e|] eqn:We; cbn.
      * split; [discriminate|]. intros [_ Hn]. discriminate.
      * split; auto.
Qed.

(** ** player.c *)



(** ** player_registry.c *)

Lemma strcmp_eq_trans a b c :
  strcmp_eq a b = true -> strcmp_eq b c = true -> strcmp_eq a c = true.
Proof.
  unfold strcmp_eq. rewrite !String.eqb_eq. congruence.
Qed.

Lemma strcmp_eq_sym a b : strcmp_eq a b = strcmp_eq b a.
Proof. unfold strcmp_eq. apply String.eqb_sym. Qed.

Lemma preg_find_strcmp l a b :
  strcmp_eq a b = true -> preg_find l a = preg_find l b.
Proof.
  intros H. induction l as [|[n p] r IH]; [reflexivity|]. cbn [preg_find].
  destruct (strcmp_eq n a) eqn:Ea, (strcmp_eq n b) eqn:Eb; auto.
  - rewrite (strcmp_eq_trans _ _ _ Ea H) in Eb. discriminate.
  - rewrite strcmp_eq_sym in H.
    rewrite (strcmp_eq_trans _ _ _ Eb H) in Ea. discriminate.
Qed.

(** X12. The player registry binds a name to one player for good.
    [preg_register] always returns a player, and the registry then binds
    the name to it.  Every name that was bound stays bound to the same
    player.  For a name that was bound, nothing is created or added: the
    player it was bound to gets one more reference.  For a name that was
    not bound, the player is a new object with the name (up to its first
    NUL), the initial rating and two references, one for the registry and
    one for the caller, and no other player is written. *)
Theorem preg_register_effect (name : string) (w w' : World) (r : option ptr) :
  preg_register name w = (r, w') ->
  exists q,
    r = Some q
    /\ preg_find (preg_head w') name = Some q
    /\ (forall n q', preg_find (preg_head w) n = Some q' ->
                     preg_find (preg_head w') n = Some q')
    /\ (preg_find (preg_head w) name = Some q ->
        preg_head w' = preg_head w
        /\ players w'
           = alter (fun pl => with_player_ref_count (player_ref_count pl + 1) pl)
                   q (players w))
    /\ (preg_find (preg_head w) name = None ->
        players w !! q = None
        /\ players w' !! q = Some (mkPLAYER (cstr name) PLAYER_INITIAL_RATING 2)
        /\ preg_head w' = (cstr name, q) :: preg_head w
        /\ forall q', q' <> q -> players w' !! q' = players w !! q').
Proof.
  unfold preg_register, bind, gets.
  destruct (preg_find (preg_head w) name) as [q|] eqn:E.
  - intros [= <- <-]. exists q. cbn.
    repeat split; auto; discriminate.
  - unfold player_create, modify, player_ref, upd_player, bind, modify, ret.
    intros [= <- <-]. eexists. split; [reflexivity|].
    cbn [preg_head set_preg set_players players fst snd preg_find].
    split; [rewrite strcmp_eq_cstr; reflexivity|].
    split; [|split; [discriminate|]].
    + intros n q' Hn.
      destruct (strcmp_eq (cstr name) n) eqn:En; [|exact Hn].
      rewrite <- (preg_find_strcmp _ _ _ En) in Hn.
      assert (Hc : strcmp_eq (cstr name) name = true) by apply strcmp_eq_cstr.
      rewrite (preg_find_strcmp _ _ _ Hc) in Hn. congruence.
    + intros _.
      pose proof (is_fresh (dom (players w))) as Hf.
      apply not_elem_of_dom in Hf.
      split; [exact Hf|].
      split; [rewrite lookup_alter_eq, lookup_insert_eq; reflexivity|].
      split; [reflexivity|].
      intros q' Hq. rewrite lookup_alter_ne, lookup_insert_ne by congruence.
      reflexivity.
Qed.

(** ** client_registry.c *)

Lemma fd_already_used_in_spec w l d :
  (fd_already_used_in w l d = 0 /\ exists c, c ∈ l /\ fd (the_client c w) = d)
  \/ (fd_already_used_in w l d = -1
      /\ forall c, c ∈ l -> fd (the_client c w) <> d).
Proof.
  induction l as [|c r IH]; cbn [fd_already_used_in].
  - right. split; [reflexivity|]. intros c Hc. inversion Hc.
  - destruct (Z.eqb_spec (fd (the_client c w)) d) as [E|E].
    + left. split; [reflexivity|]. exists c. split; [left | exact E].
    + destruct IH as [[H (c' & Hc & Hd)] | [H Hall]].
      * left. split; [exact H|]. exists c'. split; [right; exact Hc | exact Hd].
      * right. split; [exact H|]. intros c' Hc.
        inversion Hc; subst; auto.
Qed.

(** X13. Registering a client.  [creg_register] refuses a descriptor, returning
    NULL and changing nothing, if a registered client has it or if the
    count of the registry has reached [MAX_CLIENTS].  Otherwise it returns
    a new client with that descriptor, one reference, not logged in and
    without invitations, puts it at the head of the registry and counts
    it; the same descriptor is then refused, and unregistering the client
    takes the registry and its count back to what they were and drops the
    one reference. *)
Theorem creg_register_effect (d : Z) (w : World) :
  ((exists c, c ∈ creg_head w /\ fd (the_client c w) = d)
   \/ MAX_CLIENTS <= client_count w ->
   creg_register d w = (None, w))
  /\ ((forall c, c ∈ creg_head w -> fd (the_client c w) <> d) ->
      client_count w < MAX_CLIENTS ->
      exists c w',
        creg_register d w = (Some c, w')
        /\ clients w !! c = None
        /\ clients w' = <[c := mkCLIENT d 1 0 None []]> (clients w)
        /\ creg_head w' = c :: creg_head w
        /\ client_count w' = client_count w + 1
        /\ creg_register d w' = (None, w')
        /\ exists w'',
             creg_unregister (Some c) w' = (0, w'')
             /\ creg_head w'' = creg_head w
             /\ client_count w'' = client_count w
             /\ client_ref_count (the_client c w'') = 0).
Proof.
  split.
  - intros H. unfold creg_register, fd_already_used, bind, gets.
    destruct (fd_already_used_in_spec w (creg_head w) d) as [[E _] | [E Hall]].
    + rewrite E. reflexivity.
    + destruct H as [(c & Hc & Hd) | H]; [destruct (Hall c Hc Hd)|].
      rewrite E. cbn [Z.eqb orb].
      destruct (Z.geb_spec (client_count w) MAX_CLIENTS); [reflexivity | lia].
  - intros Hall Hn. unfold creg_register at 1. unfold fd_already_used, bind, gets.
    destruct (fd_already_used_in_spec w (creg_head w) d)
      as [[_ (c & Hc & Hd)] | [E _]]; [destruct (Hall c Hc Hd)|].
    rewrite E. cbn [Z.eqb orb].
    destruct (Z.geb_spec (client_count w) MAX_CLIENTS); [lia|].
    unfold client_create, insert_client, modify, ret.
    set (c := fresh (dom (clients w))).
    assert (Hf : clients w !! c = None).
    { apply not_elem_of_dom. apply is_fresh. }
    eexists c, _. split; [reflexivity|].
    cbn [clients creg_head client_count set_creg set_clients fst snd].
    split; [exact Hf|]. split; [reflexivity|]. split; [reflexivity|].
    split; [reflexivity|].
    set (w1 := set_creg _ _ _).
    assert (Hc1 : the_client c w1 = mkCLIENT d 1 0 None []).
    { unfold the_client, w1. cbn [clients set_creg set_clients].
      rewrite lookup_insert_eq. reflexivity. }
    assert (Hu : fd_already_used_in w1 (creg_head w1) d = 0).
    { unfold w1 at 2. cbn [creg_head set_creg fd_already_used_in].
      rewrite Hc1. cbn [fd]. rewrite Z.eqb_refl. reflexivity. }
    split.
    + unfold creg_register, fd_already_used, bind, gets. rewrite Hu. reflexivity.
    + unfold creg_unregister, client_get_fd, fd_already_used, bind, gets.
      cbn [fst snd]. rewrite Hc1. cbn [fd]. rewrite Hu. cbn [Z.eqb].
      unfold remove_client, modify. cbn [fst snd].
      assert (Hin : bool_decide (c ∈ creg_head w1) = true).
      { apply bool_decide_eq_true_2. unfold w1. cbn [creg_head set_creg]. left. }
      rewrite Hin.
      set (w2 := set_creg _ _ w1).
      unfold client_unref, upd_client, bind, modify, gets, ret. cbn [fst snd].
      set (w3 := set_clients _ w2).
      assert (Hc3 : the_client c w3 = mkCLIENT d 0 0 None []).
      { unfold the_client, w3, w2, w1. cbn [clients set_clients set_creg].
        rewrite lookup_alter_eq, lookup_insert_eq. reflexivity. }
      rewrite Hc3. cbn [client_ref_count Z.eqb]. cbv beta iota.
      rewrite Hc3. cbn [player].
      exists w3. split; [reflexivity|].
      split; [|split]; [| |exact (f_equal client_ref_count Hc3)].
      * unfold w3, w2, w1. cbn [creg_head set_clients set_creg unlink_client].
        destruct (decide (c = c)); [reflexivity | contradiction].
      * unfold w3, w2, w1. cbn [client_count creg_head set_clients set_creg].
        lia.
Qed.

Lemma creg_lookup_walk_spec l u w r w' :
  creg_lookup_walk l u w = (r, w') ->
  match r with
  | Some c =>
    c ∈ l
    /\ logged_in (the_client c w) <> 0
    /\ (exists p, player (the_client c w) = Some p
                  /\ strcmp_eq (username (the_player p w)) u = true)
    /\ w' = set_clients
              (alter (fun cl =>
                 with_client_ref_count (client_ref_count cl + 1) cl) c) w
  | None =>
    w' = w
    /\ forall c p, c ∈ l -> logged_in (the_client c w) <> 0 ->
                   player (the_client c w) = Some p ->
                   strcmp_eq (username (the_player p w)) u = false
  end.
Proof.
  revert r w'. induction l as [|c l IH]; intros r w'.
  - intros [= <- <-]. split; [reflexivity|]. intros c p Hc. inversion Hc.
  - cbn [creg_lookup_walk]. unfold client_get_player, bind, gets.
    cbn [fst snd].
    destruct (Z.eqb_spec (logged_in (the_client c w)) 0) as [E0|E0]; cbn [negb].
    + cbn [player_get_name ret]. intros H. specialize (IH _ _ H).
      destruct r as [c'|].
      * destruct IH as (Hin & IH). split; [right; exact Hin | exact IH].
      * destruct IH as (-> & IH). split; [reflexivity|].
        intros c' p Hc. inversion Hc; subst; [contradiction | eauto].
    + destruct (player (the_client c w)) as [p|] eqn:Ep.
      * cbn [player_get_name gets].
        destruct (strcmp_eq (username (the_player p w)) u) eqn:Es.
        -- unfold client_ref, upd_client, bind, modify, ret.
           intros [= <- <-]. split; [left|]. split; [exact E0|].
           split; [exists p; auto | reflexivity].
        -- intros H. specialize (IH _ _ H). destruct r as [c'|].
           ++ destruct IH as (Hin & IH). split; [right; exact Hin | exact IH].
           ++ destruct IH as (-> & IH). split; [reflexivity|].
              intros c' p' Hc. inversion Hc; subst; [|eauto].
              intros _ Hp. congruence.
      * cbn [player_get_name ret]. intros H. specialize (IH _ _ H).
        destruct r as [c'|].
        -- destruct IH as (Hin & IH). split; [right; exact Hin | exact IH].
        -- destruct IH as (-> & IH). split; [reflexivity|].
           intros c' p Hc. inversion Hc; subst; [|eauto].
           intros _ Hp. congruence.
Qed.

(** X14. Looking a user up.  A client that [creg_lookup] returns is registered
    and logged in as a player whose name is the one asked for (as C
    strings compare), and the only change is one more reference to that
    client.  If it returns NULL nothing has changed, and no registered
    client is logged in as a player of that name.  A NULL name finds
    nobody. *)
Theorem creg_lookup_sound (u : string) (w w' : World) (r : option ptr) :
  creg_lookup (Some u) w = (r, w') ->
  creg_lookup None w = (None, w)
  /\ match r with
     | Some c =>
       c ∈ creg_head w
       /\ logged_in (the_client c w) <> 0
       /\ (exists p, player (the_client c w) = Some p
                     /\ strcmp_eq (username (the_player p w)) u = true)
       /\ w' = set_clients
                 (alter (fun cl =>
                    with_client_ref_count (client_ref_count cl + 1) cl) c) w
     | None =>
       w' = w
       /\ forall c p, c ∈ creg_head w -> logged_in (the_client c w) <> 0 ->
                      player (the_client c w) = Some p ->
                      strcmp_eq (username (the_player p w)) u = false
     end.
Proof.
  intros H. split; [reflexivity|].
  apply creg_lookup_walk_spec. exact H.
Qed.

(** ** server.c *)

Lemma strlen_tab : strlen tab = 1.
Proof. reflexivity. Qed.

Lemma strlen_newline : strlen newline = 1.
Proof. reflexivity. Qed.

Lemma strlen_cstr s : strlen (cstr s) = strlen s.
Proof. unfold strlen. rewrite strlen_nat_cstr. reflexivity. Qed.

Lemma users_walk_spec l : forall t s i w t' s' i' w',
  users_walk l t s i w = ((t', s', i'), w') ->
  (forall x, s = Some x -> cstr x = x) ->
  i' = i + Z.of_nat (length l)
  /\ t' - i' - strlen (default "" s') = t - i - strlen (default "" s)
  /\ (forall x, s' = Some x -> cstr x = x)
  /\ (s <> None \/ l <> [] -> s' <> None).
Proof.
  induction l as [|p r IH]; intros t s i w t' s' i' w'.
  - intros [= <- <- <- <-] Hc. cbn [length]. split; [lia|]. split; [lia|].
    split; [exact Hc|]. intros [H|H]; [exact H | destruct (H eq_refl)].
  - cbn [users_walk]. unfold bind.
    destruct (player_unref (Some p) w) as [[] w1].
    destruct (player_get_name (Some p) w1) as [n w2].
    destruct (player_get_rating (Some p) w2) as [rt w3].
    cbv zeta.
    set (line := strcat (strcat (strcat (strcat "" (name_or_empty n)) tab)
                                (sprintf_d rt)) newline).
    assert (Hl : strlen line
                 = strlen (name_or_empty n) + strlen (sprintf_d rt) + 2).
    { unfold line. rewrite !strlen_strcat, strlen_tab, strlen_newline.
      change (strlen "") with 0. lia. }
    intros H Hc. apply IH in H.
    + destruct H as (Hi & Ht & Hs & Hn).
      cbn [length]. split; [lia|]. split; [|split; [exact Hs|]].
      * rewrite Ht. destruct s as [x|]; cbn [from_option id].
        -- rewrite strlen_strcat, Hl. lia.
        -- rewrite strlen_cstr, Hl. change (strlen "") with 0. lia.
      * intros _. apply Hn. left. destruct s; discriminate.
    + intros x. destruct s as [y|]; intros [= <-].
      * apply cstr_strcat.
      * apply cstr_idem.
Qed.

(** X15. The size of the reply to USERS.  The loop that builds the listing
    visits every player of the list once.  Started as the service loop
    starts it, it ends with a payload without a NUL inside whose length is
    [total_size - i], the length that the ACK is then given; for an empty
    list there is no payload and that length is 0. *)
Theorem users_walk_size (l : list ptr) (w w' : World) (t i : Z)
  (s : option string) :
  users_walk l 0 None 0 w = ((t, s, i), w') ->
  i = Z.of_nat (length l)
  /\ t - i = strlen (default "" s)
  /\ cstr (default "" s) = default "" s
  /\ (s = None <-> l = []).
Proof.
  intros H. pose proof H as H'. apply users_walk_spec in H; [|discriminate].
  destruct H as (Hi & Ht & Hs & Hn).
  split; [lia|]. cbn [from_option id] in Ht. change (strlen "") with 0 in Ht.
  split; [lia|]. split.
  - destruct s as [x|]; [apply Hs; reflexivity | reflexivity].
  - split.
    + intros ->. destruct l as [|p r]; [reflexivity|].
      destruct Hn; [right; discriminate | reflexivity].
    + intros ->. cbn [users_walk] in H'. unfold ret in H'.
      injection H' as _ <- _ _. reflexivity.
Qed.



(** ** What no step of the server undoes *)

Lemma invitations_advance_same w w' :
  invitations w' = invitations w -> invitations_advance w w'.
Proof. intros E i x H. exists x. rewrite E. auto 10. Qed.

Lemma invitations_advance_alter f i w :
  (forall x, sender (f x) = sender x /\ recipient (f x) = recipient x
             /\ source_role (f x) = source_role x
             /\ target_role (f x) = target_role x
             /\ (state (f x) = state x \/ adjacent (state x) (state (f x)))) ->
  invitations_advance w (set_invitations (alter f i) w).
Proof.
  intros Hf j x H. cbn [invitations set_invitations]. rewrite lookup_alter.
  destruct (decide (i = j)) as [<-|Hne].
  - rewrite H. exists (f x). split; [reflexivity | apply Hf].
  - exists x. auto 10.
Qed.

Lemma adjacent_trans a b c :
  (b = a \/ adjacent a b) -> (c = b \/ adjacent b c) -> c = a \/ adjacent a c.
Proof.
  unfold adjacent. destruct a, b, c; intuition congruence.
Qed.

#[local] Instance invitations_advance_stable : Stable invitations_advance.
Proof.
  split; try (intros; apply invitations_advance_same; reflexivity).
  - intros a b c Hab Hbc i x H.
    destruct (Hab i x H) as (y & Hy & ? & ? & ? & ? & Hs1).
    destruct (Hbc i y Hy) as (z & Hz & ? & ? & ? & ? & Hs2).
    exists z. split; [exact Hz|]. repeat split; try congruence.
    exact (adjacent_trans _ _ _ Hs1 Hs2).
  - intros i g w. apply invitations_advance_alter. intros x. auto 10.
  - intros i g w. apply invitations_advance_alter. intros x. auto 10.
  - intros i w. apply invitations_advance_alter. intros x.
    unfold accept_invitation, adjacent.
    destruct x as [rc s t sr tr g []]; cbn; auto 10.
  - intros i role w. apply invitations_advance_alter. intros x.
    unfold close_invitation, adjacent.
    destruct x as [rc s t sr tr [g|] []]; destruct role; cbn; auto 10.
  - intros c i w.
    destruct (client_add_invitation_invitations c i w) as [E | E].
    + apply invitations_advance_same. exact E.
    + intros j x H. rewrite E.
      exact (invitations_advance_alter
               (fun x => with_inv_ref_count (inv_ref_count x + 1) x) i w
               (fun x => ltac:(auto 10)) j x H).
Qed.

#[local] Instance invitations_advance_session : StableSession invitations_advance.
Proof.
  split; try (intros; apply invitations_advance_same; reflexivity).
  intros s t sr tr w _ _ j x H. cbn [invitations set_invitations].
  exists x. rewrite lookup_insert_ne; [auto 10|].
  intros E. pose proof (is_fresh (dom (invitations w))) as Hf.
  rewrite E in Hf. apply Hf. apply elem_of_dom. eauto.
Qed.

#[local] Instance invitations_advance_service : StableService invitations_advance.
Proof. split. intros. apply invitations_advance_same. reflexivity. Qed.

(** X16. No step of the server rewrites an invitation or takes its state
    back.  Across the service of any packet, the end of a service thread,
    the registration of a descriptor and the shutdown of all clients,
    every invitation keeps its source, its target and their roles, and
    its state either stays or moves forward: from open to accepted or
    closed, from accepted to closed.  (Freed objects stay where they
    were: the model does not reuse memory.) *)
Theorem invitations_only_advance (w : World) :
  (forall c li h p, invitations_advance w (snd (service_frame c li h p w)))
  /\ (forall c li, invitations_advance w (snd (service_end c li w)))
  /\ (forall d, invitations_advance w (snd (creg_register d w)))
  /\ invitations_advance w (snd (creg_shutdown_all w)).
Proof.
  split; [|split; [|split]].
  - intros c li h p. apply (steps_service_frame invitations_advance).
  - intros c li. apply (steps_service_end invitations_advance).
  - intros d. apply (steps_creg_register invitations_advance).
  - apply (steps_creg_shutdown_all invitations_advance).
Qed.

Lemma clients_stay_same w w' : clients w' = clients w -> clients_stay w w'.
Proof. intros E c cl H. exists cl. rewrite E. auto. Qed.

Lemma clients_stay_alter f c w :
  (forall cl, fd (f cl) = fd cl /\ (logged_in cl <> 0 -> logged_in (f cl) <> 0)) ->
  clients_stay w (set_clients (alter f c) w).
Proof.
  intros Hf j x H. cbn [clients set_clients]. rewrite lookup_alter.
  destruct (decide (c = j)) as [<-|Hne].
  - rewrite H. exists (f x). split; [reflexivity | apply Hf].
  - exists x. auto.
Qed.

Lemma client_add_invitation_clients c i w :
  clients (snd (client_add_invitation (Some c) (Some i) w)) = clients w
  \/ clients (snd (client_add_invitation (Some c) (Some i) w))
     = alter (fun cl =>
                with_invitations_head
                  (mkNODE i (fst (find_lowest_id_availalble c w))
                     :: invitations_head cl) cl) c (clients w).
Proof.
  unfold client_add_invitation, bind.
  destruct (malloc_node w) as [ok w1] eqn:Em.
  assert (Hi1 : clients w1 = clients w).
  { unfold malloc_node in Em. destruct (node_mallocs w); injection Em as <- <-;
      reflexivity. }
  destruct ok; cbv beta iota; cbn [negb].
  - right. unfold find_lowest_id_availalble, gets, upd_client, inv_ref,
      upd_invitation, modify, bind, ret, the_client. cbn. rewrite Hi1. reflexivity.
  - left. exact Hi1.
Qed.

#[local] Instance clients_stay_stable : Stable clients_stay.
Proof.
  split; try (intros; apply clients_stay_same; reflexivity).
  - intros a b c Hab Hbc i x H.
    destruct (Hab i x H) as (y & Hy & ? & ?).
    destruct (Hbc i y Hy) as (z & Hz & ? & ?).
    exists z. split; [exact Hz|]. split; [congruence | auto].
  - intros c g w. apply clients_stay_alter. intros cl. auto.
  - intros c i w. apply clients_stay_alter. intros cl. auto.
  - intros c i w.
    destruct (client_add_invitation_clients c i w) as [E | E].
    + apply clients_stay_same. exact E.
    + intros j x H. rewrite E.
      refine (clients_stay_alter
                (fun cl =>
                   with_invitations_head
                     (mkNODE i (fst (find_lowest_id_availalble c w))
                        :: invitations_head cl) cl) c w _ j x H).
      intros cl. auto.
Qed.

#[local] Instance clients_stay_session : StableSession clients_stay.
Proof.
  split; try (intros; apply clients_stay_same; reflexivity).
  - intros c p w. apply clients_stay_alter. intros cl. cbn. split; [reflexivity|].
    intros _. discriminate.
  - intros d w j x H. cbn [client_create snd clients set_clients].
    exists x. rewrite lookup_insert_ne; [auto|].
    intros E. pose proof (is_fresh (dom (clients w))) as Hf.
    rewrite E in Hf. apply Hf. apply elem_of_dom. eauto.
Qed.

#[local] Instance clients_stay_service : StableService clients_stay.
Proof. split. intros. apply clients_stay_same. reflexivity. Qed.

(** X17. Nothing logs a client out.  Across the service of any packet, the
    end of a service thread (which calls [client_logout]), the
    registration of a descriptor and the shutdown of all clients, every
    client keeps its descriptor, and a client whose [logged_in] flag was
    set still has it set. *)
Theorem logged_in_is_never_cleared (w : World) :
  (forall c li h p, clients_stay w (snd (service_frame c li h p w)))
  /\ (forall c li, clients_stay w (snd (service_end c li w)))
  /\ (forall d, clients_stay w (snd (creg_register d w)))
  /\ clients_stay w (snd (creg_shutdown_all w)).
Proof.
  split; [|split; [|split]].
  - intros c li h p. apply (steps_service_frame clients_stay).
  - intros c li. apply (steps_service_end clients_stay).
  - intros d. apply (steps_creg_register clients_stay).
  - apply (steps_creg_shutdown_all clients_stay).
Qed.

(** ** client.c: the list of invitations *)

Lemma with_invitations_head_same cl :
  with_invitations_head (invitations_head cl) cl = cl.
Proof. destruct cl. reflexivity. Qed.

Lemma with_inv_ref_count_same x : with_inv_ref_count (inv_ref_count x) x = x.
Proof. destruct x. reflexivity. Qed.

(** X18. Adding an invitation to a list and removing it again.  If
    [client_add_invitation] has put an invitation that is referred to
    elsewhere on the list of a client, [client_remove_invitation] of that
    invitation returns the id that was assigned and leaves the clients
    and the invitations exactly as they were before the two calls.
    Removing an invitation that is not on the list, or with a NULL
    argument, returns -1 and changes nothing. *)
Theorem client_add_remove_invitation (c i : ptr) (cl : CLIENT) (x : INVITATION)
  (w w1 : World) (n : Z) :
  clients w !! c = Some cl ->
  invitations w !! i = Some x ->
  inv_ref_count x <> 0 ->
  client_add_invitation (Some c) (Some i) w = (n, w1) ->
  (n <> -1 ->
   0 <= n
   /\ exists w2,
        client_remove_invitation (Some c) (Some i) w1 = (n, w2)
        /\ clients w2 = clients w
        /\ invitations w2 = invitations w)
  /\ (find_node_by_inv (invitations_head cl) i = None ->
      client_remove_invitation (Some c) (Some i) w = (-1, w))
  /\ client_remove_invitation None (Some i) w = (-1, w)
  /\ client_remove_invitation (Some c) None w = (-1, w).
Proof.
  intros Hc Hi Hrc Hadd.
  split; [|split; [|split; reflexivity]].
  - intros Hid.
    destruct (client_add_invitation_spec _ _ _ _ _ _ Hc Hadd)
      as [(E & _) | (Hl & Hcl & Hin)]; [contradiction|].
    split; [apply Hl|].
    unfold client_remove_invitation, bind, gets. cbn [fst snd].
    assert (Hc1 : the_client c w1
                  = with_invitations_head (mkNODE i n :: invitations_head cl) cl).
    { unfold the_client. rewrite Hcl, lookup_insert_eq. reflexivity. }
    rewrite Hc1. cbn [invitations_head with_invitations_head find_node_by_inv
                      invitation].
    destruct (decide (i = i)) as [_|Hn]; [|contradiction].
    unfold upd_client, inv_unref, upd_invitation, bind, modify, gets, ret.
    cbn [fst snd node_id].
    set (w2 := set_invitations _ (set_clients _ w1)).
    assert (Hx2 : the_invitation i w2 = x).
    { unfold the_invitation, w2. cbn [invitations set_invitations set_clients].
      rewrite Hin, !lookup_alter_eq, Hi.
      cbn [fmap option_fmap option_map from_option id].
      destruct x. unfold with_inv_ref_count. cbn. f_equal. lia. }
    rewrite Hx2.
    destruct (Z.eqb_spec (inv_ref_count x) 0) as [E|_]; [contradiction|].
    exists w2. split; [reflexivity|]. split.
    + unfold w2. cbn [clients set_invitations set_clients]. rewrite Hcl.
      apply map_eq. intros k. rewrite lookup_alter.
      destruct (decide (c = k)) as [<-|Hne].
      * rewrite lookup_insert_eq, Hc.
        cbn [fmap option_fmap option_map invitations_head with_invitations_head
             unlink_node invitation].
        destruct (decide (i = i)) as [_|Hn]; [|contradiction].
        destruct cl. reflexivity.
      * rewrite lookup_insert_ne by exact Hne. reflexivity.
    + unfold w2. cbn [invitations set_invitations set_clients]. rewrite Hin.
      apply map_eq. intros k.
      destruct (decide (i = k)) as [<-|Hne];
        [|rewrite !lookup_alter_ne by exact Hne; reflexivity].
      rewrite !lookup_alter_eq, Hi. cbn. destruct x.
      unfold with_inv_ref_count. cbn. do 2 f_equal. lia.
  - intros Hnone. unfold client_remove_invitation, bind, gets. cbn [fst snd].
    unfold the_client. rewrite Hc. cbn [from_option id]. unfold id.
    rewrite Hnone. reflexivity.
Qed.

(** ** client.c: revoking and declining *)

Lemma wire_bind {A B} (m : M A) (k : A -> M B) :
  (forall w, wire (snd (m w)) = wire w) ->
  (forall a w, wire (snd (k a w)) = wire w) ->
  forall w, wire (snd (bind m k w)) = wire w.
Proof.
  intros Hm Hk w. unfold bind. specialize (Hm w).
  destruct (m w) as [a w1]. cbn [snd] in Hm. rewrite Hk. exact Hm.
Qed.

Lemma client_unref_wire c w : wire (snd (client_unref c w)) = wire w.
Proof.
  destruct c as [c|]; [|reflexivity]. unfold client_unref.
  revert w. apply wire_bind; [reflexivity|]. intros _.
  apply wire_bind; [reflexivity|]. intros n.
  destruct (n =? 0); [|reflexivity].
  apply wire_bind; [reflexivity|]. intros [p|] w; reflexivity.
Qed.

Lemma inv_unref_wire i w : wire (snd (inv_unref i w)) = wire w.
Proof.
  destruct i as [i|]; [|reflexivity]. unfold inv_unref.
  revert w. apply wire_bind; [reflexivity|]. intros _.
  apply wire_bind; [reflexivity|]. intros x.
  destruct (inv_ref_count x =? 0); [|reflexivity].
  apply wire_bind.
  { intros w. destruct (sender x); [apply client_unref_wire | reflexivity]. }
  intros _. apply wire_bind.
  { intros w. destruct (recipient x); [apply client_unref_wire | reflexivity]. }
  intros _ w. destruct (game x); reflexivity.
Qed.

(** What [client_remove_invitation] does to the lists and the wire. *)
Lemma client_remove_invitation_spec c i w r w1 :
  client_remove_invitation (Some c) (Some i) w = (r, w1) ->
  (r = -1 /\ w1 = w
   /\ find_node_by_inv (invitations_head (the_client c w)) i = None)
  \/ (exists n,
        find_node_by_inv (invitations_head (the_client c w)) i = Some n
        /\ r = node_id n
        /\ invitations_head (the_client c w1)
           = unlink_node (invitations_head (the_client c w)) i
        /\ (forall c', c' <> c ->
              invitations_head (the_client c' w1)
              = invitations_head (the_client c' w))
        /\ wire w1 = wire w).
Proof.
  unfold client_remove_invitation, bind, gets. cbn [fst snd].
  destruct (find_node_by_inv (invitations_head (the_client c w)) i) as [n|] eqn:E.
  - unfold upd_client, modify, ret. cbn [fst snd].
    set (w0 := set_clients _ w).
    pose proof (inv_unref_same_lists (Some i) w0) as Hl.
    pose proof (inv_unref_wire (Some i) w0) as Hw.
    destruct (inv_unref (Some i) w0) as [[] w2]. cbn [snd] in Hl, Hw.
    intros [= <- <-]. right. exists n. split; [reflexivity|].
    split; [reflexivity|].
    assert (H0 : forall c',
               invitations_head (the_client c' w0)
               = if decide (c = c')
                 then unlink_node (invitations_head (the_client c w)) i
                 else invitations_head (the_client c' w)).
    { intros c'. unfold the_client, w0. cbn [clients set_clients].
      rewrite lookup_alter.
      destruct (decide (c = c')) as [<-|Hne]; [|reflexivity].
      destruct (clients w !! c) as [cl|]; reflexivity. }
    split; [|split].
    + rewrite Hl, H0. destruct (decide (c = c)); [reflexivity | contradiction].
    + intros c' Hne. rewrite Hl, H0.
      destruct (decide (c = c')); [congruence | reflexivity].
    + exact Hw.
  - intros [= <- <-]. left. auto.
Qed.

Lemma the_invitation_present i w :
  sender (the_invitation i w) <> None \/ recipient (the_invitation i w) <> None ->
  invitations w !! i = Some (the_invitation i w).
Proof.
  unfold the_invitation. destruct (invitations w !! i); [reflexivity|].
  intros [H|H]; destruct H; reflexivity.
Qed.

Lemma invitations_advance_parties i w w' :
  invitations_advance w w' ->
  sender (the_invitation i w) <> None \/ recipient (the_invitation i w) <> None ->
  sender (the_invitation i w') = sender (the_invitation i w)
  /\ recipient (the_invitation i w') = recipient (the_invitation i w).
Proof.
  intros Ha Hs. pose proof (the_invitation_present _ _ Hs) as Hp.
  destruct (Ha _ _ Hp) as (x' & Hx' & H1 & H2 & _).
  unfold the_invitation at 1 3. rewrite Hx'. cbn [from_option id]. auto.
Qed.

(** Taking an invitation off the list of one client and then off the
    list of another. *)
Lemma remove_from_both a b i w r1 w1 r2 w2 :
  sender (the_invitation i w) <> None \/ recipient (the_invitation i w) <> None ->
  client_remove_invitation (Some a) (Some i) w = (r1, w1) ->
  r1 <> -1 ->
  client_remove_invitation b (Some i) w1 = (r2, w2) ->
  r2 <> -1 ->
  exists bp,
    b = Some bp
    /\ wire w2 = wire w
    /\ sender (the_invitation i w1) = sender (the_invitation i w)
    /\ recipient (the_invitation i w1) = recipient (the_invitation i w)
    /\ (bp <> a ->
        invitations_head (the_client a w2)
        = unlink_node (invitations_head (the_client a w)) i
        /\ invitations_head (the_client bp w2)
           = unlink_node (invitations_head (the_client bp w)) i
        /\ exists bn,
             find_node_by_inv (invitations_head (the_client bp w)) i = Some bn
             /\ node_id bn = r2).
Proof.
  intros Hs H1 Hr1 H2 Hr2.
  destruct b as [bp|]; [|cbn in H2; injection H2 as <- _; contradiction].
  exists bp. split; [reflexivity|].
  pose proof (steps_client_remove_invitation invitations_advance
                (Some a) (Some i) w) as Ha.
  rewrite H1 in Ha. cbn [snd] in Ha.
  destruct (invitations_advance_parties i w w1 Ha Hs) as [Hs1 Hr].
  destruct (client_remove_invitation_spec _ _ _ _ _ H1)
    as [(E & _) | (n & Hn & -> & Hla & Hoa & Hwa)]; [contradiction|].
  destruct (client_remove_invitation_spec _ _ _ _ _ H2)
    as [(E & _) | (bn & Hbn & -> & Hlb & Hob & Hwb)]; [contradiction|].
  split; [congruence|]. split; [exact Hs1|]. split; [exact Hr|].
  intros Hne. split; [|split].
  - rewrite Hob by congruence. exact Hla.
  - rewrite Hlb, Hoa by exact Hne. reflexivity.
  - exists bn. split; [|reflexivity]. rewrite <- Hoa by exact Hne. exact Hbn.
Qed.

Lemma client_send_packet_cases c h d w :
  exists r w',
    client_send_packet (Some c) h d w = (r, w')
    /\ (r = 0 \/ r = -1)
    /\ wire w' = mkSEND c h d r :: wire w
    /\ same_objects w w'.
Proof.
  unfold client_send_packet, client_get_fd, proto_send_packet, bind, gets,
    modify, ret.
  destruct (_ || _).
  - eexists _, _. split; [reflexivity|]. split; [right; reflexivity|].
    split; [reflexivity | repeat split].
  - cbn [fst snd broken set_errno].
    destruct (write_error _ _);
      eexists _, _; (split; [reflexivity|]);
      (split; [first [left; reflexivity | right; reflexivity]|]);
      (split; [reflexivity | repeat split]).
Qed.

Lemma same_objects_lists w w' c :
  same_objects w w' ->
  invitations_head (the_client c w') = invitations_head (the_client c w).
Proof. intros (_ & _ & E & _). unfold the_client. rewrite E. reflexivity. Qed.

(** X19. A successful revocation.  If [client_revoke_invitation] returns 0,
    the id named an invitation on the list of the client of which the
    client is the source and for which no game has been created; the
    invitation has a target, to which one REVOKED packet was sent and
    nothing else; and, the target being another client, the invitation
    has been taken off the lists of both, the id in the packet being the
    one under which the target held it. *)
Theorem client_revoke_invitation_ok (c : ptr) (id0 : Z) (w w' : World) :
  client_revoke_invitation c id0 w = (0, w') ->
  exists n t tid,
    find_node_by_id (invitations_head (the_client c w)) id0 = Some n
    /\ sender (the_invitation (invitation n) w) = Some c
    /\ recipient (the_invitation (invitation n) w) = Some t
    /\ game (the_invitation (invitation n) w) = None
    /\ wire w'
       = mkSEND t (with_pkt_id tid (make_packet JEUX_REVOKED_PKT 0)) None 0
           :: wire w
    /\ (t <> c ->
        invitations_head (the_client c w')
        = unlink_node (invitations_head (the_client c w)) (invitation n)
        /\ invitations_head (the_client t w')
           = unlink_node (invitations_head (the_client t w)) (invitation n)
        /\ exists tn,
             find_node_by_inv (invitations_head (the_client t w)) (invitation n)
             = Some tn
             /\ node_id tn = tid).
Proof.
  unfold client_revoke_invitation. unfold bind at 1. unfold gets at 1.
  destruct (find_node_by_id (invitations_head (the_client c w)) id0)
    as [n|] eqn:En; [|discriminate].
  cbv zeta. set (i := invitation n).
  unfold bind at 1. unfold inv_get_game at 1. unfold gets at 1.
  destruct (game (the_invitation i w)) as [g|] eqn:Eg.
  { rewrite bool_decide_eq_true_2 by discriminate. discriminate. }
  rewrite bool_decide_eq_false_2 by (intros H; apply H; reflexivity).
  unfold bind at 1. unfold inv_get_source at 1. unfold gets at 1.
  destruct (decide (sender (the_invitation i w) = Some c)) as [Es|Es];
    [|rewrite bool_decide_eq_true_2 by exact Es; discriminate].
  rewrite bool_decide_eq_false_2 by (intros H; apply H; exact Es).
  unfold bind at 1.
  destruct (client_remove_invitation (Some c) (Some i) w) as [r1 w1] eqn:H1.
  destruct (Z.eqb_spec r1 (-1)) as [|Hr1]; [discriminate|].
  unfold bind at 1. unfold inv_get_target at 1. unfold gets at 1.
  unfold bind at 1.
  destruct (client_remove_invitation (recipient (the_invitation i w1)) (Some i) w1)
    as [r2 w2] eqn:H2.
  destruct (Z.eqb_spec r2 (-1)) as [|Hr2]; [discriminate|].
  assert (Hin : sender (the_invitation i w) <> None
                \/ recipient (the_invitation i w) <> None)
    by (left; rewrite Es; discriminate).
  destruct (remove_from_both _ _ _ _ _ _ _ _ Hin H1 Hr1 H2 Hr2)
    as (t & Ht & Hw & Hs1 & Hrc & Hlists).
  rewrite Ht. unfold bind.
  destruct (client_send_packet_cases t
              (with_pkt_id r2 (make_packet JEUX_REVOKED_PKT 0)) None w2)
    as (r & w3 & -> & Hr & Hwire & Hobj).
  destruct Hr as [-> | ->]; [|discriminate].
  intros [= <-]. exists n, t, r2. fold i.
  split; [reflexivity|]. split; [exact Es|].
  split; [rewrite <- Hrc; exact Ht|]. split; [exact Eg|].
  split; [rewrite Hwire, Hw; reflexivity|].
  intros Hne. destruct (Hlists Hne) as (Ha & Hb & Hn).
  rewrite !(same_objects_lists _ _ _ Hobj). auto.
Qed.

(** X20. A successful refusal.  If [client_decline_invitation] returns 0, the
    id named an invitation on the list of the client of which the client
    is the target and for which no game has been created; the invitation
    has a source, to which one DECLINED packet was sent and nothing else;
    and, the source being another client, the invitation has been taken
    off the lists of both, the id in the packet being the one under which
    the source held it. *)
Theorem client_decline_invitation_ok (c : ptr) (id0 : Z) (w w' : World) :
  client_decline_invitation c id0 w = (0, w') ->
  exists n s sid,
    find_node_by_id (invitations_head (the_client c w)) id0 = Some n
    /\ recipient (the_invitation (invitation n) w) = Some c
    /\ sender (the_invitation (invitation n) w) = Some s
    /\ game (the_invitation (invitation n) w) = None
    /\ wire w'
       = mkSEND s (with_pkt_id sid (make_packet JEUX_DECLINED_PKT 0)) None 0
           :: wire w
    /\ (s <> c ->
        invitations_head (the_client c w')
        = unlink_node (invitations_head (the_client c w)) (invitation n)
        /\ invitations_head (the_client s w')
           = unlink_node (invitations_head (the_client s w)) (invitation n)
        /\ exists sn,
             find_node_by_inv (invitations_head (the_client s w)) (invitation n)
             = Some sn
             /\ node_id sn = sid).
Proof.
  unfold client_decline_invitation. unfold bind at 1. unfold gets at 1.
  destruct (find_node_by_id (invitations_head (the_client c w)) id0)
    as [n|] eqn:En; [|discriminate].
  cbv zeta. set (i := invitation n).
  unfold bind at 1. unfold inv_get_game at 1. unfold gets at 1.
  destruct (game (the_invitation i w)) as [g|] eqn:Eg.
  { rewrite bool_decide_eq_true_2 by discriminate. discriminate. }
  rewrite bool_decide_eq_false_2 by (intros H; apply H; reflexivity).
  unfold bind at 1. unfold inv_get_target at 1. unfold gets at 1.
  destruct (decide (recipient (the_invitation i w) = Some c)) as [Et|Et];
    [|rewrite bool_decide_eq_true_2 by exact Et; discriminate].
  rewrite bool_decide_eq_false_2 by (intros H; apply H; exact Et).
  rewrite Et.
  unfold bind at 1.
  destruct (client_remove_invitation (Some c) (Some i) w) as [r1 w1] eqn:H1.
  destruct (Z.eqb_spec r1 (-1)) as [|Hr1]; [discriminate|].
  unfold bind at 1. unfold inv_get_source at 1. unfold gets at 1.
  unfold bind at 1.
  destruct (client_remove_invitation (sender (the_invitation i w1)) (Some i) w1)
    as [r2 w2] eqn:H2.
  destruct (Z.eqb_spec r2 (-1)) as [|Hr2]; [discriminate|].
  assert (Hin : sender (the_invitation i w) <> None
                \/ recipient (the_invitation i w) <> None)
    by (right; rewrite Et; discriminate).
  destruct (remove_from_both _ _ _ _ _ _ _ _ Hin H1 Hr1 H2 Hr2)
    as (s & Hs & Hw & Hs1 & Hrc & Hlists).
  rewrite Hs. unfold bind.
  destruct (client_send_packet_cases s
              (with_pkt_id r2 (make_packet JEUX_DECLINED_PKT 0)) None w2)
    as (r & w3 & -> & Hr & Hwire & Hobj).
  destruct Hr as [-> | ->]; [|discriminate].
  intros [= <-]. exists n, s, r2. fold i.
  split; [reflexivity|]. split; [exact Et|].
  split; [rewrite <- Hs1; exact Hs|]. split; [exact Eg|].
  split; [rewrite Hwire, Hw; reflexivity|].
  intros Hne. destruct (Hlists Hne) as (Ha & Hb & Hn).
  rewrite !(same_objects_lists _ _ _ Hobj). auto.
Qed.


(** ** Listing the players that are logged in *)

Lemma more_refs_0 pl : more_refs 0 pl = pl.
Proof.
  destruct pl. unfold more_refs, with_player_ref_count. cbn. f_equal. lia.
Qed.

Lemma more_refs_more a b pl : more_refs a (more_refs b pl) = more_refs (b + a) pl.
Proof.
  destruct pl. unfold more_refs, with_player_ref_count. cbn. f_equal. lia.
Qed.

Lemma listed_cons q l p :
  listed (q :: l) p = (if decide (q = p) then 1 else 0) + listed l p.
Proof.
  unfold listed. cbn [count_occ].
  destruct (Nat.eq_dec q p), (decide (q = p)); try contradiction; lia.
Qed.

Lemma players_alter_more k q w p :
  players (set_players (alter (more_refs k) q) w) !! p
  = more_refs (if decide (q = p) then k else 0) <$> players w !! p.
Proof.
  cbn [players set_players]. rewrite lookup_alter.
  destruct (decide (q = p)) as [<-|Hne]; [reflexivity|].
  destruct (players w !! p) as [pl|]; cbn; [|reflexivity].
  rewrite more_refs_0. reflexivity.
Qed.

Lemma creg_all_players_walk_spec l : forall i w r w',
  creg_all_players_walk l i w = (r, w') ->
  r = take (Z.to_nat (MAX_CLIENTS - i)) (omap (player_of w) l)
  /\ only_players w w'
  /\ forall p, players w' !! p = more_refs (listed r p) <$> players w !! p.
Proof.
  induction l as [|c l IH]; intros i w r w'.
  - intros [= <- <-]. split; [destruct (Z.to_nat _); reflexivity|].
    split; [apply only_players_refl|]. intros p.
    destruct (players w !! p); cbn; [rewrite more_refs_0|]; reflexivity.
  - cbn [creg_all_players_walk omap list_omap].
    destruct (Z.ltb_spec i MAX_CLIENTS) as [Hi|Hi].
    + unfold bind at 1. unfold client_get_player, gets. cbn [fst snd].
      fold (player_of w c).
      destruct (player_of w c) as [q|] eqn:Eq.
      * unfold bind at 1. unfold player_ref, upd_player, bind, modify, ret.
        cbn [fst snd].
        change (fun pl : PLAYER =>
                  with_player_ref_count (player_ref_count pl + 1) pl)
          with (more_refs 1).
        set (w1 := set_players (alter (more_refs 1) q) w).
        destruct (creg_all_players_walk l (i + 1) w1) as [rest w2] eqn:E.
        intros [= <- <-]. apply IH in E. destruct E as (Hr & Ho & Hp).
        split; [|split].
        -- replace (Z.to_nat (MAX_CLIENTS - i))
             with (S (Z.to_nat (MAX_CLIENTS - (i + 1)))) by lia.
           cbn [take]. f_equal. exact Hr.
        -- apply (only_players_trans w w1);
             [eexists; reflexivity | exact Ho].
        -- intros p. rewrite Hp. unfold w1. rewrite players_alter_more.
           rewrite listed_cons.
           destruct (players w !! p) as [pl|]; cbn; [|reflexivity].
           rewrite more_refs_more. reflexivity.
      * intros E. apply IH in E. destruct E as (Hr & Ho & Hp).
        split; [exact Hr|]. split; assumption.
    + intros [= <- <-]. replace (Z.to_nat (MAX_CLIENTS - i)) with 0%nat by lia.
      split; [reflexivity|]. split; [apply only_players_refl|]. intros p.
      destruct (players w !! p); cbn; [rewrite more_refs_0|]; reflexivity.
Qed.

(** X21. The list of the players that are logged in.  [creg_all_players]
    returns the players of the registered clients that are logged in, in
    the order of the registry, at most [MAX_CLIENTS] of them; it gives
    every player one reference for each time it is listed and changes
    nothing else. *)
Theorem creg_all_players_lists (w w' : World) (l : list ptr) :
  creg_all_players w = (l, w') ->
  l = take (Z.to_nat MAX_CLIENTS) (omap (player_of w) (creg_head w))
  /\ (forall c, player_of w c = fst (client_get_player (Some c) w))
  /\ only_players w w'
  /\ forall p, players w' !! p = more_refs (listed l p) <$> players w !! p.
Proof.
  unfold creg_all_players, bind, gets. cbn [fst snd]. intros H.
  apply creg_all_players_walk_spec in H. destruct H as (Hl & Ho & Hp).
  rewrite Z.sub_0_r in Hl. repeat split; assumption.
Qed.

Lemma existsb_same {A} (f g : A -> bool) l :
  (forall x, f x = g x) -> existsb f l = existsb g l.
Proof.
  intros H. induction l as [|a l IH]; [reflexivity|].
  cbn [existsb]. rewrite H, IH. reflexivity.
Qed.

Lemma same_name_walk_spec l name : forall res w r w',
  same_name_walk l name res w = (r, w') ->
  r = (if existsb (fun p => strcmp_eq (username (the_player p w)) name) l
       then 1 else res)
  /\ only_players w w'
  /\ forall p, players w' !! p = more_refs (- listed l p) <$> players w !! p.
Proof.
  induction l as [|q l IH]; intros res w r w'.
  - intros [= <- <-]. split; [reflexivity|].
    split; [apply only_players_refl|]. intros p.
    destruct (players w !! p); cbn; [rewrite more_refs_0|]; reflexivity.
  - cbn [same_name_walk existsb].
    unfold bind at 1. unfold player_unref, upd_player, modify. cbn [fst snd].
    change (fun pl : PLAYER =>
              with_player_ref_count (player_ref_count pl - 1) pl)
      with (more_refs (-1)).
    set (w1 := set_players (alter (more_refs (-1)) q) w).
    unfold bind at 1. unfold player_get_name, gets. cbn [fst snd name_or_empty
                                                        from_option id].
    unfold id.
    intros E. apply IH in E. destruct E as (Hr & Ho & Hp).
    assert (Hn : forall p, username (the_player p w1) = username (the_player p w)).
    { intros p. unfold the_player, w1. rewrite players_alter_more.
      destruct (players w !! p) as [[]|]; reflexivity. }
    split; [|split].
    + rewrite Hr, Hn.
      rewrite (existsb_same _ (fun p => strcmp_eq (username (the_player p w)) name))
        by (intros p; rewrite Hn; reflexivity).
      set (e := existsb _ l).
      destruct (strcmp_eq (username (the_player q w)) name), e; reflexivity.
    + apply (only_players_trans w w1); [eexists; reflexivity | exact Ho].
    + intros p. rewrite Hp. unfold w1. rewrite players_alter_more, listed_cons.
      destruct (players w !! p) as [pl|]; cbn; [|reflexivity].
      rewrite more_refs_more. do 2 f_equal.
      destruct (decide (q = p)); lia.
Qed.

(** X22. The check that LOGIN makes for a name in use is a pure test.  It
    leaves the whole state of the server as it was (every reference
    that the listing takes is given back), and it returns 1 if one of
    the players listed by [creg_all_players] has the name, as C strings
    compare, and 0 otherwise.  [client_login] makes the same check. *)
Theorem login_name_check_pure (name : string) (w w' : World) (r : Z) :
  check_if_other_clients_logged_in_with_same_name name w = (r, w') ->
  w' = w
  /\ r = (if existsb (fun p => strcmp_eq (username (the_player p w)) name)
                     (take (Z.to_nat MAX_CLIENTS)
                           (omap (player_of w) (creg_head w)))
          then 1 else 0)
  /\ check_if_other_clients_logged_in_with_same_player name w = (r, w).
Proof.
  assert (H : forall r w',
             check_if_other_clients_logged_in_with_same_name name w = (r, w') ->
             w' = w
             /\ r = (if existsb
                          (fun p => strcmp_eq (username (the_player p w)) name)
                          (take (Z.to_nat MAX_CLIENTS)
                                (omap (player_of w) (creg_head w)))
                     then 1 else 0)).
  { clear r w'. intros r w'.
    unfold check_if_other_clients_logged_in_with_same_name, bind.
    destruct (creg_all_players w) as [l w1] eqn:E1.
    unfold creg_all_players, bind, gets in E1. cbn [fst snd] in E1.
    apply creg_all_players_walk_spec in E1. destruct E1 as (Hl & Ho1 & Hp1).
    rewrite Z.sub_0_r in Hl.
    intros E2. apply same_name_walk_spec in E2. destruct E2 as (Hr & Ho2 & Hp2).
    assert (Hn : forall p, username (the_player p w1) = username (the_player p w)).
    { intros p. unfold the_player. rewrite Hp1.
      destruct (players w !! p) as [[]|]; reflexivity. }
    split.
    - destruct Ho1 as [f1 ->]. destruct Ho2 as [f2 ->].
      assert (Hp : players (set_players f2 (set_players f1 w)) = players w).
      { apply map_eq. intros p. rewrite Hp2, Hp1.
        destruct (players w !! p) as [pl|]; cbn; [|reflexivity].
        rewrite more_refs_more, Z.add_opp_diag_r, more_refs_0. reflexivity. }
      change (set_players f2 (set_players f1 w))
        with (set_players (fun m => f2 (f1 m)) w) in *.
      revert Hp. generalize (fun m : gmap ptr PLAYER => f2 (f1 m)). clear.
      intros f Hp. destruct w. unfold set_players in *. cbn in *.
      rewrite Hp. reflexivity.
    - rewrite Hr, <- Hl.
      rewrite (existsb_same _ (fun p => strcmp_eq (username (the_player p w)) name))
        by (intros p; rewrite Hn; reflexivity).
      reflexivity. }
  intros E. destruct (H _ _ E) as [-> Hr]. split; [reflexivity|].
  split; [exact Hr|]. exact E.
Qed.

(** ** client.c: making an invitation *)

Lemma inv_unref_live i x w :
  invitations w !! i = Some x ->
  inv_ref_count x <> 1 ->
  inv_unref (Some i) w
  = (tt, set_invitations
           (alter (fun x => with_inv_ref_count (inv_ref_count x - 1) x) i) w).
Proof.
  intros Hx Hrc. unfold inv_unref, upd_invitation, bind, modify, gets.
  cbn [fst snd]. unfold the_invitation. cbn [invitations set_invitations].
  rewrite lookup_alter_eq, Hx. cbn [fmap option_fmap option_map from_option id].
  unfold id. cbn [inv_ref_count with_inv_ref_count].
  destruct (Z.eqb_spec (inv_ref_count x - 1) 0); [lia | reflexivity].
Qed.

Lemma inv_create_eq s t sr tr w :
  inv_create (Some s) (Some t) sr tr w
  = (Some (fresh (dom (invitations w))),
     set_clients
       (alter (fun cl => with_client_ref_count (client_ref_count cl + 1) cl) t)
       (set_clients
          (alter (fun cl => with_client_ref_count (client_ref_count cl + 1) cl) s)
          (set_invitations
             <[fresh (dom (invitations w)) :=
                 mkINVITATION 1 (Some s) (Some t) sr tr None INV_OPEN_STATE]> w))).
Proof. reflexivity. Qed.

Lemma lookup_alter_ref_count (f : CLIENT -> Z) c k (m : gmap ptr CLIENT) cl :
  m !! k = Some cl ->
  exists cl',
    alter (fun cl => with_client_ref_count (f cl) cl) c m !! k = Some cl'
    /\ invitations_head cl' = invitations_head cl
    /\ logged_in cl' = logged_in cl /\ player cl' = player cl.
Proof.
  intros H. destruct (decide (c = k)) as [<-|Hne].
  - rewrite lookup_alter_eq, H. eexists. split; [reflexivity|]. auto.
  - rewrite lookup_alter_ne by exact Hne. exists cl. auto.
Qed.

(** X23. A successful invitation.  If [client_make_invitation] from a client
    to another client does not return -1, it returns the least id that
    was free on the list of the source; a new invitation between the two,
    open, without a game and with two references, is the first entry of
    both lists, under that id for the source and under the least id that
    was free for the target; no other list has changed; and exactly one
    packet was sent: INVITED, to the target, with the target's id, the
    target's role and the name of the source's player as payload. *)
Theorem client_make_invitation_ok (source t : ptr) (sr tr : GAME_ROLE)
  (w w' : World) (cls clt : CLIENT) (r : Z) :
  clients w !! source = Some cls ->
  clients w !! t = Some clt ->
  source <> t ->
  client_make_invitation source (Some t) sr tr w = (r, w') ->
  r <> -1 ->
  exists tid,
    least_free_id (invitations_head cls) r
    /\ least_free_id (invitations_head clt) tid
    /\ invitations_head (the_client source w')
       = mkNODE (fresh (dom (invitations w))) r :: invitations_head cls
    /\ invitations_head (the_client t w')
       = mkNODE (fresh (dom (invitations w))) tid :: invitations_head clt
    /\ (forall c, c <> source -> c <> t ->
          invitations_head (the_client c w') = invitations_head (the_client c w))
    /\ invitations w !! fresh (dom (invitations w)) = None
    /\ invitations w' !! fresh (dom (invitations w))
       = Some (mkINVITATION 2 (Some source) (Some t) sr tr None INV_OPEN_STATE)
    /\ wire w'
       = mkSEND t
           (with_pkt_role (role_val tr)
              (with_pkt_id tid
                 (make_packet JEUX_INVITED_PKT
                    (strlen (name_or_empty
                       (fst (player_get_name
                               (fst (client_get_player (Some source) w)) w)))))))
           (Some (name_or_empty
                    (fst (player_get_name
                            (fst (client_get_player (Some source) w)) w))))
           0
         :: wire w.
Proof.
  intros Hs Ht Hne Hmk Hr.
  set (i := fresh (dom (invitations w))) in *.
  assert (Hfresh : invitations w !! i = None).
  { apply not_elem_of_dom. apply is_fresh. }
  unfold client_make_invitation in Hmk. unfold bind at 1 in Hmk.
  rewrite inv_create_eq in Hmk. fold i in Hmk.
  set (w1 := set_clients _ (set_clients _ (set_invitations _ w))) in Hmk.
  assert (H1s : exists cl1, clients w1 !! source = Some cl1
                  /\ invitations_head cl1 = invitations_head cls
                  /\ logged_in cl1 = logged_in cls /\ player cl1 = player cls).
  { unfold w1. cbn [clients set_clients set_invitations].
    destruct (lookup_alter_ref_count (fun cl => client_ref_count cl + 1)
                source source _ _ Hs) as (a & Ha & Ha1 & Ha2 & Ha3).
    destruct (lookup_alter_ref_count (fun cl => client_ref_count cl + 1)
                t source _ _ Ha) as (b & Hb & Hb1 & Hb2 & Hb3).
    exists b. split; [exact Hb|]. repeat split; congruence. }
  assert (H1t : exists cl1, clients w1 !! t = Some cl1
                  /\ invitations_head cl1 = invitations_head clt
                  /\ logged_in cl1 = logged_in clt /\ player cl1 = player clt).
  { unfold w1. cbn [clients set_clients set_invitations].
    destruct (lookup_alter_ref_count (fun cl => client_ref_count cl + 1)
                source t _ _ Ht) as (a & Ha & Ha1 & Ha2 & Ha3).
    destruct (lookup_alter_ref_count (fun cl => client_ref_count cl + 1)
                t t _ _ Ha) as (b & Hb & Hb1 & Hb2 & Hb3).
    exists b. split; [exact Hb|]. repeat split; congruence. }
  assert (H1o : forall c, c <> source -> c <> t ->
                  clients w1 !! c = clients w !! c).
  { intros c Hc1 Hc2. unfold w1. cbn [clients set_clients set_invitations].
    rewrite !lookup_alter_ne by congruence. reflexivity. }
  assert (H1i : invitations w1
                = <[i := mkINVITATION 1 (Some source) (Some t) sr tr None
                           INV_OPEN_STATE]> (invitations w)) by reflexivity.
  assert (H1w : wire w1 = wire w /\ players w1 = players w) by (split; reflexivity).
  clearbody w1.
  destruct H1s as (cs1 & Hcs1 & Hls1 & Hli1 & Hpl1).
  destruct H1t as (ct1 & Hct1 & Hlt1 & _).
  (* the handle of the source *)
  unfold bind at 1 in Hmk.
  destruct (client_add_invitation (Some source) (Some i) w1) as [id1 w2] eqn:E2.
  pose proof (client_add_invitation_frame source i w1) as F2.
  rewrite E2 in F2. cbn [snd] in F2. destruct F2 as (F2w & F2p & F2l).
  destruct (client_add_invitation_spec _ _ _ _ _ _ Hcs1 E2)
    as [(-> & _) | (Hleast1 & Hc2 & Hi2)].
  { change (-1 =? -1) with true in Hmk. cbv iota in Hmk. unfold bind, ret in Hmk.
    destruct (inv_unref (Some i) w2). injection Hmk as <- _. contradiction. }
  assert (Hid1 : (id1 =? -1) = false) by (destruct Hleast1; lia).
  rewrite Hid1 in Hmk.
  (* the handle of the target *)
  unfold bind at 1 in Hmk.
  assert (Hct2 : clients w2 !! t = Some ct1).
  { rewrite Hc2, lookup_insert_ne by exact Hne. exact Hct1. }
  destruct (client_add_invitation (Some t) (Some i) w2) as [id2 w3] eqn:E3.
  pose proof (client_add_invitation_frame t i w2) as F3.
  rewrite E3 in F3. cbn [snd] in F3. destruct F3 as (F3w & F3p & F3l).
  destruct (client_add_invitation_spec _ _ _ _ _ _ Hct2 E3)
    as [(-> & _) | (Hleast2 & Hc3 & Hi3)].
  { change (-1 =? -1) with true in Hmk. cbv iota in Hmk. unfold bind, ret in Hmk.
    destruct (inv_unref (Some i) w3). injection Hmk as <- _. contradiction. }
  assert (Hid2 : (id2 =? -1) = false) by (destruct Hleast2; lia).
  rewrite Hid2 in Hmk.
  (* the name of the source and the packet *)
  unfold bind at 1 in Hmk. unfold client_get_player at 1 in Hmk.
  unfold gets at 1 in Hmk.
  unfold bind at 1 in Hmk.
  assert (Hpl : (if negb (logged_in (the_client source w3) =? 0)
                 then player (the_client source w3) else None)
                = fst (client_get_player (Some source) w)).
  { cbn [client_get_player gets fst].
    destruct (F3l source) as [-> ->]. destruct (F2l source) as [-> ->].
    unfold the_client. rewrite Hcs1, Hs. cbn [from_option id]. unfold id.
    rewrite Hli1, Hpl1. reflexivity. }
  rewrite Hpl in Hmk.
  set (pl := fst (client_get_player (Some source) w)) in *.
  assert (Hnm : player_get_name pl w3 = (fst (player_get_name pl w), w3)).
  { destruct pl as [p|]; [|reflexivity]. unfold player_get_name, gets.
    cbn [fst]. unfold the_player. rewrite F3p, F2p. destruct H1w as [_ ->]. reflexivity. }
  rewrite Hnm in Hmk. cbv zeta in Hmk.
  set (name := name_or_empty (fst (player_get_name pl w))) in *.
  unfold bind at 1 in Hmk.
  destruct (client_send_packet_cases t
              (with_pkt_role (role_val tr)
                 (with_pkt_id id2 (make_packet JEUX_INVITED_PKT (strlen name))))
              (Some name) w3) as (rs & w4 & Es & Hrs & Hwire & Hobj).
  rewrite Es in Hmk.
  destruct Hrs as [-> | ->];
    [|change (-1 =? -1) with true in Hmk; cbv iota in Hmk;
      injection Hmk as <- _; contradiction].
  change (0 =? -1) with false in Hmk. cbv iota in Hmk.
  (* the reference of the creator is given up *)
  assert (Hx4 : invitations w4 !! i
                = Some (mkINVITATION 3 (Some source) (Some t) sr tr None
                          INV_OPEN_STATE)).
  { destruct Hobj as (_ & -> & _). rewrite Hi3, Hi2, H1i.
    rewrite !lookup_alter_eq, lookup_insert_eq. reflexivity. }
  unfold bind in Hmk.
  rewrite (inv_unref_live _ _ _ Hx4 ltac:(discriminate)) in Hmk.
  injection Hmk as <- <-.
  exists id2.
  assert (Hcl4 : clients w4 = clients w3) by (destruct Hobj as (_ & _ & E & _); exact E).
  split; [rewrite <- Hls1; exact Hleast1|].
  split; [rewrite <- Hlt1; exact Hleast2|].
  split; [|split; [|split; [|split; [exact Hfresh|split]]]].
  - unfold the_client. cbn [clients set_invitations]. rewrite Hcl4, Hc3.
    rewrite lookup_insert_ne by congruence. rewrite Hc2, lookup_insert_eq.
    cbn. rewrite Hls1. reflexivity.
  - unfold the_client. cbn [clients set_invitations]. rewrite Hcl4, Hc3.
    rewrite lookup_insert_eq. cbn. rewrite Hlt1. reflexivity.
  - intros c Hc1 Hc2'. unfold the_client. cbn [clients set_invitations].
    rewrite Hcl4, Hc3. rewrite lookup_insert_ne by congruence.
    rewrite Hc2, lookup_insert_ne by congruence.
    rewrite (H1o c Hc1 Hc2'). reflexivity.
  - cbn [invitations set_invitations]. rewrite lookup_alter_eq, Hx4. reflexivity.
  - cbn [wire set_invitations]. rewrite Hwire, F3w, F2w.
    destruct H1w as [-> _]. reflexivity.
Qed.

(** ** client.c: making a move *)

Lemma game_apply_move_cases g m :
  game_apply_move (Some g) (Some m) = (Some g, -1)
  \/ exists g', game_apply_move (Some g) (Some m) = (Some g', 0).
Proof.
  destruct (illegal_move g m) eqn:Hill.
  - left. unfold game_apply_move. rewrite Hill. reflexivity.
  - right. rewrite (game_apply_move_eq _ _ Hill). eexists. reflexivity.
Qed.

Lemma game_parse_move_turn g role s m :
  game_parse_move g role s = Some m -> role_out_of_turn g role = false.
Proof.
  unfold game_parse_move. destruct (role_out_of_turn g role); [discriminate|].
  reflexivity.
Qed.

(** X24. A move that is not made.  [client_make_move] returns -1 and leaves
    the state of the server exactly as it was if the id names no
    invitation on the list of the client, if the invitation has no game,
    if the string is no move for the role that the client has in the game
    (in particular when it is not that role's turn), or if
    [game_apply_move] refuses the move. *)
Theorem client_make_move_refused (c : ptr) (id0 : Z) (mv : string) (w : World) :
  (find_node_by_id (invitations_head (the_client c w)) id0 = None ->
   client_make_move c id0 mv w = (-1, w))
  /\ (forall n g,
        find_node_by_id (invitations_head (the_client c w)) id0 = Some n ->
        let x := the_invitation (invitation n) w in
        let role := if bool_decide (Some c = sender x)
                    then source_role x else target_role x in
        (game x = None
         \/ (game x = Some g
             /\ (game_parse_move g role mv = None
                 \/ exists m, game_parse_move g role mv = Some m
                              /\ snd (game_apply_move (Some g) (Some m)) = -1))) ->
        client_make_move c id0 mv w = (-1, w)).
Proof.
  split.
  - intros Hn. unfold client_make_move, bind, gets. cbn [fst snd].
    rewrite Hn. reflexivity.
  - intros n g Hn x role H.
    unfold client_make_move. unfold bind at 1. unfold gets at 1.
    rewrite Hn. cbv zeta.
    unfold bind at 1. unfold inv_get_source at 1. unfold gets at 1.
    unfold bind at 1. unfold inv_get_target at 1. unfold gets at 1.
    unfold bind at 1. unfold inv_get_game at 1. unfold gets at 1.
    fold x.
    destruct H as [Hg | (Hg & H)]; rewrite Hg; [reflexivity|].
    unfold bind at 1. unfold inv_get_source_role at 1. unfold gets at 1.
    unfold bind at 1. unfold inv_get_target_role at 1. unfold gets at 1.
    fold x. fold role.
    destruct H as [Hp | (m & Hp & Ha)]; rewrite Hp; [reflexivity|].
    destruct (game_apply_move (Some g) (Some m)) as [g' r]. cbn [snd] in Ha.
    subst r. reflexivity.
Qed.

(** X25. A move that is made.  If [client_make_move] returns 0, the id named
    an invitation on the list of the client with a game; the string was a
    move for the role that the client has in that game, it was that
    role's turn, and [game_apply_move] accepted the move.  If the game is
    not over after the move, the only changes to the server are that the
    invitation holds the game after the move and that one packet was
    sent: MOVED, to the opponent, under the opponent's id for the
    invitation, with the rendering of the new state as payload. *)
Theorem client_make_move_ok (c : ptr) (id0 : Z) (mv : string) (w w' : World) :
  client_make_move c id0 mv w = (0, w') ->
  exists n g m g',
    find_node_by_id (invitations_head (the_client c w)) id0 = Some n
    /\ let x := the_invitation (invitation n) w in
       let role := if bool_decide (Some c = sender x)
                   then source_role x else target_role x in
       let opponent := if bool_decide (Some c = sender x)
                       then recipient x else sender x in
       game x = Some g
       /\ game_parse_move g role mv = Some m
       /\ role_out_of_turn g role = false
       /\ game_apply_move (Some g) (Some m) = (Some g', 0)
       /\ (game_is_over g' = 0 ->
           exists opp on,
             opponent = Some opp
             /\ find_node_by_inv (invitations_head (the_client opp w))
                                 (invitation n) = Some on
             /\ invitations w'
                = alter (with_game (Some g')) (invitation n) (invitations w)
             /\ clients w' = clients w
             /\ players w' = players w
             /\ wire w'
                = mkSEND opp
                    (with_pkt_id (node_id on)
                       (make_packet JEUX_MOVED_PKT
                          (strlen (game_unparse_state g'))))
                    (Some (game_unparse_state g')) 0
                  :: wire w).
Proof.
  unfold client_make_move. unfold bind at 1. unfold gets at 1.
  destruct (find_node_by_id (invitations_head (the_client c w)) id0)
    as [n|] eqn:Hn; [|discriminate].
  cbv zeta.
  unfold bind at 1. unfold inv_get_source at 1. unfold gets at 1.
  unfold bind at 1. unfold inv_get_target at 1. unfold gets at 1.
  unfold bind at 1. unfold inv_get_game at 1. unfold gets at 1.
  set (x := the_invitation (invitation n) w).
  destruct (game x) as [g|] eqn:Hg; [|discriminate].
  unfold bind at 1. unfold inv_get_source_role at 1. unfold gets at 1.
  unfold bind at 1. unfold inv_get_target_role at 1. unfold gets at 1.
  fold x.
  set (role := if bool_decide (Some c = sender x)
               then source_role x else target_role x).
  destruct (game_parse_move g role mv) as [m|] eqn:Hp; [|discriminate].
  destruct (game_apply_move_cases g m) as [Ea | (g' & Ea)]; rewrite Ea;
    [discriminate|].
  change (0 =? -1) with false. cbv iota.
  unfold bind at 1. unfold upd_invitation, modify at 1. cbv beta iota zeta.
  set (w1 := set_invitations (alter (with_game (Some g')) (invitation n)) w).
  unfold bind at 1. cbn [the_game from_option id]. unfold id.
  set (opponent := if bool_decide (Some c = sender x)
                   then recipient x else sender x).
  intros Hmv. exists n, g, m, g'. split; [reflexivity|]. cbv zeta.
  fold x. fold role. fold opponent.
  split; [exact Hg|]. split; [exact Hp|].
  split; [exact (game_parse_move_turn _ _ _ _ Hp)|]. split; [exact Ea|].
  intros Hover.
  destruct opponent as [opp|]; [|discriminate Hmv].
  cbn [list_of gets fst snd] in Hmv.
  change (the_client opp w1) with (the_client opp w) in Hmv.
  destruct (find_node_by_inv (invitations_head (the_client opp w)) (invitation n))
    as [on|] eqn:Hon; [|discriminate Hmv].
  cbv zeta in Hmv. unfold bind at 1 in Hmv.
  destruct (client_send_packet_cases opp
              (with_pkt_id (node_id on)
                 (make_packet JEUX_MOVED_PKT (strlen (game_unparse_state g'))))
              (Some (game_unparse_state g')) w1)
    as (rs & w2 & Es & Hrs & Hwire & Hobj).
  rewrite Es in Hmv.
  destruct Hrs as [-> | ->]; [|discriminate Hmv].
  cbn [Z.eqb negb] in Hmv. rewrite Hover in Hmv. cbn [Z.eqb negb] in Hmv.
  injection Hmv as <-.
  exists opp, on. split; [reflexivity|]. split; [exact Hon|].
  destruct Hobj as (Hp2 & Hi2 & Hc2 & _).
  split; [exact Hi2|]. split; [exact Hc2|]. split; [exact Hp2|].
  rewrite Hwire. reflexivity.
Qed.

(** ** client.c: the rating update at the end of a game *)

Lemma ratings_bind {A B} (m : M A) (k : A -> M B) :
  (forall w p, rating <$> players (snd (m w)) !! p = rating <$> players w !! p) ->
  (forall a w p, rating <$> players (snd (k a w)) !! p = rating <$> players w !! p) ->
  forall w p, rating <$> players (snd (bind m k w)) !! p = rating <$> players w !! p.
Proof.
  intros Hm Hk w p. unfold bind. specialize (Hm w p).
  destruct (m w) as [a w1]. cbn [snd] in Hm. rewrite Hk. exact Hm.
Qed.

Lemma player_unref_ratings q w p :
  rating <$> players (snd (player_unref q w)) !! p = rating <$> players w !! p.
Proof.
  destruct q as [q|]; [|reflexivity].
  unfold player_unref, upd_player, modify. cbn [snd players set_players].
  rewrite lookup_alter. destruct (decide (q = p)) as [<-|]; [|reflexivity].
  destruct (players w !! q); reflexivity.
Qed.

Lemma client_unref_ratings c w p :
  rating <$> players (snd (client_unref c w)) !! p = rating <$> players w !! p.
Proof.
  destruct c as [c|]; [|reflexivity]. unfold client_unref.
  revert w p. apply ratings_bind; [reflexivity|]. intros _.
  apply ratings_bind; [reflexivity|]. intros n.
  destruct (n =? 0); [|reflexivity].
  apply ratings_bind; [reflexivity|].
  intros [q|] w p; [apply player_unref_ratings | reflexivity].
Qed.

Lemma inv_unref_ratings i w p :
  rating <$> players (snd (inv_unref i w)) !! p = rating <$> players w !! p.
Proof.
  destruct i as [i|]; [|reflexivity]. unfold inv_unref.
  revert w p. apply ratings_bind; [reflexivity|]. intros _.
  apply ratings_bind; [reflexivity|]. intros x.
  destruct (inv_ref_count x =? 0); [|reflexivity].
  apply ratings_bind.
  { intros w p. destruct (sender x); [apply client_unref_ratings | reflexivity]. }
  intros _. apply ratings_bind.
  { intros w p. destruct (recipient x); [apply client_unref_ratings | reflexivity]. }
  intros _ w p. destruct (game x); reflexivity.
Qed.

Lemma client_remove_invitation_ratings c i w p :
  rating <$> players (snd (client_remove_invitation c i w)) !! p
  = rating <$> players w !! p.
Proof.
  destruct c as [c|], i as [i|]; try reflexivity.
  unfold client_remove_invitation. revert w p.
  apply ratings_bind; [reflexivity|]. intros l.
  destruct (find_node_by_inv l i); [|reflexivity].
  apply ratings_bind; [reflexivity|]. intros _.
  apply ratings_bind; [apply inv_unref_ratings | reflexivity].
Qed.

Lemma player_of_same_logins w w' c :
  same_logins w w' -> player_of w' c = player_of w c.
Proof. intros H. unfold player_of. destruct (H c) as [-> ->]. reflexivity. Qed.






(** ** client.c: an invitation from a player without a name *)

Lemma client_send_packet_mismatch c h s w :
  ntohs (pkt_size h) = 0 ->
  fst (client_send_packet c h (Some s) w) = -1.
Proof.
  intros Hz. destruct c as [c|]; [|reflexivity].
  unfold client_send_packet, client_get_fd, proto_send_packet, bind, gets,
    modify, ret. rewrite Hz. reflexivity.
Qed.

Lemma htons_0 : htons 0 = 0.
Proof. reflexivity. Qed.

Lemma inv_create_frame s target sr tr w :
  exists i w1,
    inv_create (Some s) target sr tr w = (Some i, w1)
    /\ same_logins w w1 /\ players w1 = players w.
Proof.
  assert (Hrc : forall c v,
             same_logins v
               (set_clients
                  (alter (fun cl =>
                     with_client_ref_count (client_ref_count cl + 1) cl) c) v)).
  { intros c v. apply same_logins_alter. intros cl. split; reflexivity. }
  destruct target as [t|]; eexists _, _; (split; [reflexivity|]);
    (split; [|reflexivity]).
  - eapply stable_trans; [|apply Hrc].
    eapply stable_trans; [|apply Hrc].
    apply same_logins_clients. reflexivity.
  - eapply stable_trans; [|apply Hrc].
    apply same_logins_clients. reflexivity.
Qed.

(** X27. A player whose name is empty cannot invite anybody.  The INVITED
    packet carries the name of the source's player as payload and its
    length as size; for the empty name the size is 0 while there is a
    payload, which [proto_send_packet] refuses.  So
    [client_make_invitation] returns -1 whenever the player of the
    source has an empty name, whoever the target is. *)
Theorem client_make_invitation_empty_name (source : ptr) (target : option ptr)
  (sr tr : GAME_ROLE) (w : World) (p : ptr) :
  client_get_player (Some source) w = (Some p, w) ->
  strlen (username (the_player p w)) = 0 ->
  fst (client_make_invitation source target sr tr w) = -1.
Proof.
  intros Hpl Hname.
  unfold client_make_invitation. unfold bind at 1.
  destruct (inv_create_frame source target sr tr w) as (i & w1 & -> & L1 & P1).
  unfold bind at 1.
  pose proof (client_add_invitation_frame source i w1) as F2.
  destruct (client_add_invitation (Some source) (Some i) w1) as [id1 w2].
  cbn [snd] in F2. destruct F2 as (_ & P2 & L2).
  destruct (id1 =? -1).
  { unfold bind, ret. destruct (inv_unref (Some i) w2). reflexivity. }
  unfold bind at 1.
  assert (F3 : players (snd (client_add_invitation target (Some i) w2)) = players w2
               /\ same_logins w2 (snd (client_add_invitation target (Some i) w2))).
  { destruct target as [t|]; [|split; [reflexivity | apply stable_refl]].
    destruct (client_add_invitation_frame t i w2) as (_ & P & L).
    split; [exact P | exact L]. }
  destruct (client_add_invitation target (Some i) w2) as [id2 w3].
  cbn [snd] in F3. destruct F3 as (P3 & L3).
  destruct (id2 =? -1).
  { unfold bind, ret. destruct (inv_unref (Some i) w3). reflexivity. }
  assert (Hpl3 : client_get_player (Some source) w3 = (Some p, w3)).
  { unfold client_get_player, gets in *.
    destruct (L3 source) as [-> ->]. destruct (L2 source) as [-> ->].
    destruct (L1 source) as [-> ->]. injection Hpl as ->. reflexivity. }
  unfold bind at 1. rewrite Hpl3.
  unfold bind at 1. unfold player_get_name at 1. unfold gets at 1.
  cbv zeta. cbn [name_or_empty from_option id]. unfold id.
  assert (Hn3 : username (the_player p w3) = username (the_player p w)).
  { unfold the_player. rewrite P3, P2, P1. reflexivity. }
  rewrite Hn3, Hname.
  unfold bind at 1.
  pose proof (client_send_packet_mismatch target
                (with_pkt_role (role_val tr)
                   (with_pkt_id id2 (make_packet JEUX_INVITED_PKT 0)))
                (username (the_player p w)) w3 htons_0) as Hs.
  destruct (client_send_packet target _ _ w3) as [rs w4].
  cbn [fst] in Hs. subst rs. reflexivity.
Qed.

(** ** client.c: the rating update after a resignation *)





(** ** server.c: the reply to USERS and the LOGIN request *)

(** X29. The buffer of the reply to USERS.  After the loop the listing, with
    its NUL, fits the buffer that [realloc] returns; but the NUL that the
    code then writes at the index [total_size] lies inside that buffer
    only if fewer than five players are listed: with five or more the
    write is past the end of the buffer. *)
Theorem users_reply_buffer (l : list ptr) (w w' : World) (t i : Z)
  (s : option string) :
  users_walk l 0 None 0 w = ((t, s, i), w') ->
  strlen (default "" s) < users_buffer_size t i
  /\ (users_nul_index t < users_buffer_size t i <-> (length l < 5)%nat).
Proof.
  intros H. apply users_walk_spec in H; [|discriminate].
  destruct H as (Hi & Ht & _). cbn [from_option id] in Ht.
  change (strlen "") with 0 in Ht.
  unfold users_buffer_size, users_nul_index. split; lia.
Qed.

Lemma check_same_name_pure name w :
  check_if_other_clients_logged_in_with_same_name name w
  = ((if existsb (fun p => strcmp_eq (username (the_player p w)) name)
                 (players_listed w)
      then 1 else 0), w).
Proof.
  destruct (check_if_other_clients_logged_in_with_same_name name w)
    as [r w'] eqn:E.
  revert E. unfold check_if_other_clients_logged_in_with_same_name, bind.
  destruct (creg_all_players w) as [l w1] eqn:E1.
  unfold creg_all_players, bind, gets in E1. cbn [fst snd] in E1.
  apply creg_all_players_walk_spec in E1. destruct E1 as (Hl & Ho1 & Hp1).
  rewrite Z.sub_0_r in Hl. fold (players_listed w) in Hl.
  intros E2. apply same_name_walk_spec in E2. destruct E2 as (Hr & Ho2 & Hp2).
  assert (Hn : forall p, username (the_player p w1) = username (the_player p w)).
  { intros p. unfold the_player. rewrite Hp1.
    destruct (players w !! p) as [[]|]; reflexivity. }
  f_equal.
  - rewrite Hr, <- Hl.
    rewrite (existsb_same _ (fun p => strcmp_eq (username (the_player p w)) name))
      by (intros p; rewrite Hn; reflexivity).
    reflexivity.
  - destruct Ho1 as [f1 ->]. destruct Ho2 as [f2 ->].
    assert (Hp : players (set_players f2 (set_players f1 w)) = players w).
    { apply map_eq. intros p. rewrite Hp2, Hp1.
      destruct (players w !! p) as [pl|]; cbn; [|reflexivity].
      rewrite more_refs_more, Z.add_opp_diag_r, more_refs_0. reflexivity. }
    change (set_players f2 (set_players f1 w))
      with (set_players (fun m => f2 (f1 m)) w) in *.
    revert Hp. generalize (fun m : gmap ptr PLAYER => f2 (f1 m)). clear.
    intros f Hp. destruct w. unfold set_players in *. cbn in *.
    rewrite Hp. reflexivity.
Qed.

(** X30. No second login under a name.  If the service loop answers a LOGIN
    request of a client that it has not logged in by logging it in, then
    none of the players that [creg_all_players] listed when the request
    arrived had the name asked for (as C strings compare), and the client
    was not marked as logged in. *)
Theorem login_needs_free_name (c : ptr) (hdr : JEUX_PACKET_HEADER)
  (payload : option string) (w w' : World) :
  pkt_type hdr = JEUX_LOGIN_PKT ->
  service_frame c 0 hdr payload w = (1, w') ->
  existsb (fun p => strcmp_eq (username (the_player p w))
                              (copy_payload payload (pkt_size hdr)))
          (players_listed w) = false
  /\ logged_in (the_client c w) = 0.
Proof.
  intros Hty. unfold service_frame. cbv zeta. rewrite Hty.
  change (JEUX_LOGIN_PKT =? JEUX_NO_PKT) with false.
  change (JEUX_LOGIN_PKT =? JEUX_LOGIN_PKT) with true.
  change (0 =? 0) with true. cbv iota.
  set (name := copy_payload payload (pkt_size hdr)).
  unfold bind at 1. rewrite check_same_name_pure.
  destruct (existsb _ (players_listed w)) eqn:Ex.
  { cbn [Z.eqb negb]. intros H.
    destruct (nack_and_return c 0 w) as (w2 & r & E & _). rewrite E in H.
    discriminate H. }
  cbn [Z.eqb negb]. unfold bind at 1.
  destruct (preg_register_spec name w) as (q & w1 & -> & _ & Hc1 & _).
  unfold bind at 1.
  assert (Hli : logged_in (the_client c w1) = logged_in (the_client c w)).
  { unfold the_client. rewrite Hc1. reflexivity. }
  destruct (Z.eqb_spec (logged_in (the_client c w)) 0) as [E0|E0];
    [intros _; split; [reflexivity | exact E0]|].
  assert (Hlogin : client_login (Some c) (Some q) w1 = (-1, w1)).
  { unfold client_login, bind, gets, ret. cbn [fst snd]. rewrite Hli.
    destruct (Z.eqb_spec (logged_in (the_client c w)) 0); [contradiction|].
    reflexivity. }
  rewrite Hlogin. change (-1 =? 0) with false. cbv iota.
  destruct (nack_and_return c 0 w1) as (w2 & r & E & _). rewrite E.
  discriminate.
Qed.


(** * The service of a request, with the lemmas above *)

(** ** server.c: the reply to a request *)

Lemma strlen_game_unparse_state g : strlen (game_unparse_state g) = 44.
Proof.
  unfold game_unparse_state. rewrite !strlen_strcat, !strlen_cell_str.
  destruct (negb (turn_X g =? 0)); reflexivity.
Qed.

Lemma returns_ret {A} (Q : A -> Prop) a : Q a -> returns Q (ret a).
Proof. intros H w. exact H. Qed.

Lemma returns_bind {A B} (Q : B -> Prop) (m : M A) (k : A -> M B) :
  (forall a, returns Q (k a)) -> returns Q (bind m k).
Proof. intros H w. unfold bind. destruct (m w) as [a w1]. apply H. Qed.

(** What [client_accept_invitation] leaves in the variable of its
    caller: nothing, or the rendering of a game. *)
Lemma client_accept_invitation_str c id0 :
  returns (fun res => snd res = None
                      \/ exists g, snd res = Some (game_unparse_state g))
          (client_accept_invitation c id0 None).
Proof.
  unfold client_accept_invitation.
  repeat first
    [ apply returns_ret; cbn [snd];
      solve [left; reflexivity | right; eexists; reflexivity]
    | apply returns_bind; intros ?
    | match goal with
      | |- returns _ (if ?b then _ else _) => destruct b
      | |- returns _ (match ?x with _ => _ end) => destruct x
      end ].
Qed.

Lemma users_walk_returns l :
  returns (fun acc => let '(t, s, i) := acc in t - i = strlen (default "" s))
          (users_walk l 0 None 0).
Proof.
  intros w. destruct (users_walk l 0 None 0 w) as [[[t s] i] w'] eqn:E.
  cbn [fst]. apply users_walk_spec in E; [|discriminate].
  destruct E as (_ & Ht & _). cbn [from_option id] in Ht.
  change (strlen "") with 0 in Ht. lia.
Qed.

Lemma calm_same w w' :
  wire w' = wire w -> broken w' = broken w -> clients w' = clients w ->
  calm w w'.
Proof.
  intros Hw Hb Hc. split; [apply quiet_same; exact Hw|]. split; [exact Hb|].
  intros c. unfold the_client. rewrite Hc. reflexivity.
Qed.

Lemma calm_alter f c w :
  (forall cl, fd (f cl) = fd cl) -> calm w (set_clients (alter f c) w).
Proof.
  intros Hf. split; [apply quiet_same; reflexivity|]. split; [reflexivity|].
  intros c'. unfold the_client. cbn [clients set_clients]. rewrite lookup_alter.
  destruct (decide (c = c')) as [<-|Hne]; [|reflexivity].
  destruct (clients w !! c); cbn; [apply Hf | reflexivity].
Qed.

Lemma client_add_invitation_broken c i w :
  broken (snd (client_add_invitation (Some c) (Some i) w)) = broken w.
Proof.
  unfold client_add_invitation, bind.
  destruct (malloc_node w) as [ok w1] eqn:Em.
  assert (H1 : broken w1 = broken w).
  { unfold malloc_node in Em. destruct (node_mallocs w); injection Em as <- <-;
      reflexivity. }
  destruct ok; cbv beta iota; cbn [negb]; [|exact H1].
  unfold find_lowest_id_availalble, gets, upd_client, inv_ref,
    upd_invitation, modify, bind, ret. cbn. exact H1.
Qed.

#[local] Instance calm_respects : Respects calm.
Proof.
  split; try (intros; apply calm_same; reflexivity).
  - intros a b c (Q1 & B1 & F1) (Q2 & B2 & F2).
    split; [exact (stable_trans (R := quiet) _ _ _ Q1 Q2)|].
    split; [congruence|]. intros x. rewrite F2. apply F1.
  - intros c g w. apply calm_alter. reflexivity.
  - intros c i w. apply calm_alter. reflexivity.
  - intros c i w. split; [apply (stable_link (R := quiet))|].
    split; [apply client_add_invitation_broken|].
    intros c'. destruct (client_add_invitation_clients c i w) as [E | E];
      unfold the_client; rewrite E; [reflexivity|].
    rewrite lookup_alter. destruct (decide (c = c')) as [<-|Hne]; [|reflexivity].
    destruct (clients w !! c); reflexivity.
  - intros s w Hs. split; [apply (stable_wire (R := quiet)); exact Hs|].
    split; [reflexivity|]. intros c. reflexivity.
Qed.

#[local] Instance calm_session : RespectsSession calm.
Proof.
  split.
  - intros name c w. revert w.
    change (steps calm (player <- preg_register name ;;
                        client_login (Some c) player)).
    apply (steps_bind calm).
    + apply (steps_preg_register_with calm);
        intros; apply calm_same; reflexivity.
    + intros p. apply (steps_client_login_with calm).
      intros c' w. apply calm_alter. reflexivity.
  - intros. apply calm_same; reflexivity.
Qed.

Lemma replies_to_quiet c out :
  Forall (fun s => is_reply s = false) out -> replies_to c out = [].
Proof.
  intros H. induction H as [|s l Hs _ IH]; [reflexivity|].
  unfold replies_to in *. cbn [List.filter]. rewrite Hs, andb_false_r. exact IH.
Qed.

(** The result of a send, read off the packet and the descriptor. *)
Lemma client_send_packet_verdict c h d w :
  exists r w',
    client_send_packet (Some c) h d w = (r, w')
    /\ wire w' = mkSEND c h d r :: wire w
    /\ r = (if refused (mkSEND c h d r) then -1
            else match write_error (fd (the_client c w)) (broken w) with
                 | None => 0
                 | Some _ => -1
                 end).
Proof.
  unfold client_send_packet, client_get_fd, proto_send_packet, bind, gets,
    modify, ret, refused. cbn [send_hdr send_data fst snd].
  destruct (_ || _).
  - eexists _, _. split; [reflexivity|]. split; reflexivity.
  - cbn [fst snd broken set_errno].
    destruct (write_error _ _);
      eexists _, _; (split; [reflexivity|]); split; reflexivity.
Qed.

Lemma answers_send c (P : SEND -> Prop) h d :
  is_reply_hdr h = true -> (forall r, P (mkSEND c h d r)) ->
  answers c P (client_send_packet (Some c) h d).
Proof.
  intros Hh HP w.
  destruct (client_send_packet_verdict c h d w) as (r & w' & E & Hw & Hr).
  rewrite E. exists [mkSEND c h d r], (mkSEND c h d r). split; [exact Hw|].
  split.
  { unfold replies_to. cbn [List.filter send_to].
    rewrite bool_decide_eq_true_2 by reflexivity.
    change (is_reply (mkSEND c h d r)) with (is_reply_hdr h).
    rewrite Hh. reflexivity. }
  split; [apply HP | exact Hr].
Qed.

Lemma answers_then c (P : SEND -> Prop) {A B} (m : M A) (k : A -> M B) :
  answers c P m -> (forall a w, snd (k a w) = w) -> answers c P (bind m k).
Proof.
  intros Hm Hk w. destruct (Hm w) as (out & s & H). exists out, s.
  unfold bind. destruct (m w) as [a w1]. rewrite Hk. exact H.
Qed.

Lemma answers_after c (P : SEND -> Prop) {A B} (Q : A -> Prop)
  (m : M A) (k : A -> M B) :
  steps calm m -> returns Q m -> (forall a, Q a -> answers c P (k a)) ->
  answers c P (bind m k).
Proof.
  intros Hm HQ Hk w. specialize (Hm w). specialize (HQ w). unfold bind.
  destruct (m w) as [a w1]. cbn [fst snd] in *.
  destruct Hm as ((o1 & H1 & F1) & Hb & Hf).
  destruct (Hk a HQ w1) as (o2 & s & H2 & Hr & HP & Hv).
  exists (o2 ++ o1), s.
  split; [unfold sent in *; rewrite H2, H1; apply app_assoc|].
  split; [rewrite replies_to_app, Hr, (replies_to_quiet _ _ F1); reflexivity|].
  split; [exact HP|]. rewrite Hv, Hb, Hf. reflexivity.
Qed.

Lemma answers_packet c (P : SEND -> Prop) h d (li : Z) :
  is_reply_hdr h = true -> (forall r, P (mkSEND c h d r)) ->
  answers c P (client_send_packet (Some c) h d ;;; ret li).
Proof.
  intros Hh HP. apply answers_then; [|reflexivity].
  apply answers_send; assumption.
Qed.

Lemma answers_nack c (P : SEND -> Prop) (li : Z) :
  (forall r, P (mkSEND c (make_packet JEUX_NACK_PKT 0) None r)) ->
  answers c P (client_send_nack (Some c) ;;; ret li).
Proof.
  intros HP. apply answers_then; [|reflexivity]. unfold client_send_nack.
  apply answers_then; [apply answers_send; [reflexivity | exact HP]|].
  intros r w. destruct (r =? -1); reflexivity.
Qed.

Lemma answers_ack c (P : SEND -> Prop) d n (li : Z) :
  (forall r, P (mkSEND c (make_packet JEUX_ACK_PKT n) d r)) ->
  answers c P (client_send_ack (Some c) d n ;;; ret li).
Proof.
  intros HP. apply answers_then; [|reflexivity]. unfold client_send_ack.
  apply answers_then; [apply answers_send; [reflexivity | exact HP]|].
  intros r w. destruct (r =? -1); reflexivity.
Qed.

(** A reply that passes the test of [proto_send_packet]. *)
Lemma reply_checked_plain hdr li s :
  pkt_type hdr <> JEUX_USERS_PKT \/ li = 0 ->
  refused s = false -> reply_checked hdr li s.
Proof.
  intros Hside Hs. split.
  - rewrite Hs. discriminate.
  - intros Ht Hli. destruct Hside; contradiction.
Qed.

(** The ACK of USERS. *)
Lemma reply_checked_users hdr li c text r :
  pkt_type hdr = JEUX_USERS_PKT -> li <> 0 ->
  reply_checked hdr li
    (mkSEND c (make_packet JEUX_ACK_PKT (strlen text)) (Some text) r).
Proof.
  intros Ht Hli.
  assert (Hr : refused (mkSEND c (make_packet JEUX_ACK_PKT (strlen text))
                          (Some text) r)
               = (u16 (strlen text) =? 0)).
  { unfold refused. cbn [send_hdr send_data make_packet pkt_size].
    unfold ntohs. rewrite htons_htons.
    rewrite bool_decide_eq_true_2 by discriminate.
    rewrite bool_decide_eq_false_2 by discriminate.
    rewrite andb_true_r, andb_false_r, orb_false_r. reflexivity. }
  split; [intros _; split; assumption|].
  intros _ _. exists text. split; [reflexivity|]. split; [reflexivity|].
  rewrite Hr. unfold u16. apply Z.eqb_eq.
Qed.

(** The prefix of a case of [service_frame]: a function of client.c or
    of a registry, which sends no reply. *)
Ltac quiet_call lem :=
  apply (answers_after _ _ (fun _ => True));
    [apply lem | intros ?; exact I | intros ? _].

Lemma answers_service_frame c li h p :
  is_request (pkt_type h) ->
  answers c (reply_checked h li) (service_frame c li h p).
Proof.
  intros Hreq. unfold is_request, JEUX_LOGIN_PKT, JEUX_RESIGN_PKT in Hreq.
  destruct (Z.eq_dec (pkt_type h) JEUX_USERS_PKT) as [EU | NU].
  - (* USERS *)
    unfold service_frame. rewrite EU.
    change (JEUX_USERS_PKT =? JEUX_NO_PKT) with false.
    change (JEUX_USERS_PKT =? JEUX_LOGIN_PKT) with false.
    change (JEUX_USERS_PKT =? JEUX_USERS_PKT) with true. cbv iota.
    destruct (Z.eqb_spec li 0) as [E0 | N0].
    + apply answers_nack. intros r. apply reply_checked_plain;
        [right; exact E0 | reflexivity].
    + quiet_call (steps_creg_all_players calm).
      apply (answers_after _ _ _ _ _ (steps_users_walk calm _ _ _ _)
                           (users_walk_returns _)).
      intros [[t s] i] Hts. rewrite Hts.
      apply answers_ack. intros r. apply reply_checked_users; assumption.
  - (* the other requests *)
    assert (Hside : pkt_type h <> JEUX_USERS_PKT \/ li = 0) by (left; exact NU).
    assert (Hplain : forall s, refused s = false -> reply_checked h li s).
    { intros s. apply reply_checked_plain. exact Hside. }
    assert (Hnack : forall v : Z,
               answers c (reply_checked h li) (client_send_nack (Some c) ;;; ret v)).
    { intros v. apply answers_nack. intros r. apply Hplain. reflexivity. }
    assert (Hack : forall v : Z,
               answers c (reply_checked h li)
                       (client_send_ack (Some c) None 0 ;;; ret v)).
    { intros v. apply answers_ack. intros r. apply Hplain. reflexivity. }
    unfold service_frame.
    destruct (pkt_type h =? JEUX_NO_PKT) eqn:E0; [unfold JEUX_NO_PKT in E0; lia|].
    destruct (pkt_type h =? JEUX_LOGIN_PKT) eqn:E1.
    { destruct (li =? 0); [|apply Hnack].
      quiet_call (steps_check_same_name calm).
      match goal with |- answers _ _ (if ?b then _ else _) => destruct b end;
        [apply Hnack|].
      quiet_call (steps_preg_register_with calm);
        try (intros; apply calm_same; reflexivity).
      quiet_call (steps_client_login_with calm);
        try (intros; apply calm_alter; reflexivity).
      match goal with |- answers _ _ (if ?b then _ else _) => destruct b end;
        [apply Hack | apply Hnack]. }
    destruct (pkt_type h =? JEUX_USERS_PKT) eqn:E2;
      [apply Z.eqb_eq in E2; contradiction|].
    destruct (pkt_type h =? JEUX_INVITE_PKT) eqn:E3.
    { destruct (li =? 0); [apply Hnack|].
      quiet_call (steps_creg_lookup calm).
      match goal with |- answers _ _ (if ?b then _ else _) => destruct b eqn:Hb end.
      - quiet_call (steps_client_unref calm). apply Hnack.
      - destruct ((pkt_role h =? 1) || (pkt_role h =? 2)); [|apply Hnack].
        apply (answers_after _ _ (fun _ => True));
          [apply (steps_invite calm); exact Hb | intros ?; exact I | intros ? _].
        match goal with |- answers _ _ (if ?b then _ else _) => destruct b end;
          [apply Hnack|].
        quiet_call (steps_client_unref calm).
        apply answers_packet; [reflexivity|].
        intros r. apply Hplain. reflexivity. }
    destruct (pkt_type h =? JEUX_REVOKE_PKT) eqn:E4.
    { destruct (li =? 0); [apply Hnack|].
      quiet_call (steps_client_revoke_invitation calm).
      match goal with |- answers _ _ (if ?b then _ else _) => destruct b end;
        [apply Hnack | apply Hack]. }
    destruct (pkt_type h =? JEUX_DECLINE_PKT) eqn:E5.
    { destruct (li =? 0); [apply Hnack|].
      quiet_call (steps_client_decline_invitation calm).
      match goal with |- answers _ _ (if ?b then _ else _) => destruct b end;
        [apply Hnack | apply Hack]. }
    destruct (pkt_type h =? JEUX_ACCEPT_PKT) eqn:E6.
    { destruct (li =? 0); [apply Hnack|].
      apply (answers_after _ _ _ _ _ (steps_client_accept_invitation calm _ _ _)
                           (client_accept_invitation_str _ _)).
      intros [result str] Hstr. cbn [snd] in Hstr.
      destruct (result =? -1); [apply Hnack|].
      apply answers_packet.
      - destruct str; reflexivity.
      - intros r. apply Hplain.
        destruct Hstr as [-> | (g & ->)]; [reflexivity|].
        unfold refused. cbn [send_hdr send_data].
        rewrite strlen_game_unparse_state. reflexivity. }
    destruct (pkt_type h =? JEUX_MOVE_PKT) eqn:E7.
    { destruct (li =? 0); [apply Hnack|].
      quiet_call (steps_client_make_move calm).
      match goal with |- answers _ _ (if ?b then _ else _) => destruct b end;
        [apply Hnack | apply Hack]. }
    destruct (pkt_type h =? JEUX_RESIGN_PKT) eqn:E8.
    { destruct (li =? 0); [apply Hnack|].
      quiet_call (steps_client_resign_game calm).
      match goal with |- answers _ _ (if ?b then _ else _) => destruct b end;
        [apply Hnack | apply Hack]. }
    unfold JEUX_NO_PKT, JEUX_LOGIN_PKT, JEUX_USERS_PKT, JEUX_INVITE_PKT,
      JEUX_REVOKE_PKT, JEUX_ACCEPT_PKT, JEUX_DECLINE_PKT, JEUX_MOVE_PKT,
      JEUX_RESIGN_PKT in *.
    lia.
Qed.

(** C1, as the code has it.  For every packet whose type is one of the
    eight request types (LOGIN to RESIGN) the service loop makes exactly
    one call that sends an ACK or a NACK to the client that sent the
    packet, before and after login alike, among the packets of that
    round.  Unless the packet is USERS from a session that has logged in,
    the reply passes the test that [proto_send_packet] makes before it
    writes; the ACK of USERS carries the listing and is refused by that
    test, so that no byte of it is written, exactly if the length of the
    listing is a multiple of 65536.  The send returns 0 exactly if the
    reply passes the test and the write on the descriptor of the client
    does not fail.  A packet of any other type, the unused type 0
    included, is dropped: nothing is sent and nothing changes. *)
Theorem one_reply_per_request (client : ptr) (li : Z)
  (hdr : JEUX_PACKET_HEADER) (payload : option string) (w : World) :
  (is_request (pkt_type hdr) ->
   exists out s,
     sent w (snd (service_frame client li hdr payload w)) out
     /\ replies_to client out = [s]
     /\ (refused s = true -> pkt_type hdr = JEUX_USERS_PKT /\ li <> 0)
     /\ (pkt_type hdr = JEUX_USERS_PKT -> li <> 0 ->
         exists text,
           pkt_type (send_hdr s) = JEUX_ACK_PKT
           /\ send_data s = Some text
           /\ (refused s = true <-> strlen text mod 65536 = 0))
     /\ send_result s
        = (if refused s then -1
           else match write_error (fd (the_client client w)) (broken w) with
                | None => 0
                | Some _ => -1
                end))
  /\ (~ is_request (pkt_type hdr) ->
      service_frame client li hdr payload w = (li, w)).
Proof.
  split.
  - intros Hreq.
    destruct (answers_service_frame client li hdr payload Hreq w)
      as (out & s & Hs & Hr & (H1 & H2) & Hv).
    exists out, s. auto.
  - unfold is_request, service_frame, JEUX_NO_PKT, JEUX_LOGIN_PKT,
      JEUX_USERS_PKT, JEUX_INVITE_PKT, JEUX_REVOKE_PKT, JEUX_ACCEPT_PKT,
      JEUX_DECLINE_PKT, JEUX_MOVE_PKT, JEUX_RESIGN_PKT.
    intros Hn.
    repeat match goal with
           | |- context [pkt_type hdr =? ?k] =>
             destruct (pkt_type hdr =? k) eqn:?; [try lia|]
           end; reflexivity.
Qed.


(** ** server.c: the LOGIN request *)

(** An invariant that the functions of the server respect, each write
    taken as narrow as the code makes it, holds in every state that the
    server reaches. *)
Lemma reachable_respects (I : World -> Prop) :
  Respects (fun w w' => I w -> I w') ->
  RespectsSession (fun w w' => I w -> I w') ->
  RespectsConnect (fun w w' => I w -> I w') ->
  StableService (fun w w' => I w -> I w') ->
  (forall l w, I w -> I (set_broken l w)) ->
  I initial_world ->
  forall w ts, reachable w ts -> I w.
Proof.
  intros HB HL HC HS Hbr H0 w ts Hr.
  set (R := fun w w' : World => I w -> I w') in *.
  induction Hr.
  - exact H0.
  - apply Hbr. exact IHHr.
  - exact (respects_node_mallocs (R := R) _ w IHHr).
  - pose proof (steps_creg_register R d w) as Hs. rewrite H in Hs. exact (Hs IHHr).
  - pose proof (steps_creg_register R d w) as Hs. rewrite H in Hs. exact (Hs IHHr).
  - pose proof (steps_service_frame R (th_client th) (th_logged_in th)
                  (frame_hdr f) (frame_payload f) w) as Hs.
    rewrite H in Hs. exact (Hs IHHr).
  - pose proof (steps_service_end R (th_client th) (th_logged_in th) w) as Hs.
    rewrite H in Hs. exact (Hs IHHr).
  - pose proof (steps_creg_shutdown_all R w) as Hs. rewrite H in Hs. exact (Hs IHHr).
Qed.

Lemma strcmp_eq_right a b c :
  strcmp_eq b c = true -> strcmp_eq a b = strcmp_eq a c.
Proof.
  unfold strcmp_eq. rewrite String.eqb_eq. intros ->. reflexivity.
Qed.

Lemma preg_find_elem l name q :
  preg_find l name = Some q ->
  exists n, (n, q) ∈ l /\ strcmp_eq n name = true.
Proof.
  induction l as [|[n p] r IH]; [discriminate|]. cbn [preg_find].
  destruct (strcmp_eq n name) eqn:E.
  - intros [= <-]. exists n. split; [apply list_elem_of_here | exact E].
  - intros H. destruct (IH H) as (n' & Hin & Hn').
    exists n'. split; [apply list_elem_of_further; exact Hin | exact Hn'].
Qed.

Lemma existsb_same_in {A} (f g : A -> bool) l :
  (forall x, x ∈ l -> f x = g x) -> existsb f l = existsb g l.
Proof.
  intros H. induction l as [|a l IH]; [reflexivity|].
  cbn [existsb]. rewrite (H a) by apply list_elem_of_here.
  rewrite IH; [reflexivity|]. intros x Hx. apply H.
  apply list_elem_of_further. exact Hx.
Qed.

(** *** The registries agree with the heap of players *)

Lemma players_bound_same w w' :
  players w' = players w -> preg_head w' = preg_head w ->
  clients w' = clients w -> players_bound w -> players_bound w'.
Proof.
  intros Hp Hr Hc [H1 H2]. split.
  - intros n p. rewrite Hr, Hp. apply H1.
  - intros c cl q. rewrite Hc, Hp. apply H2.
Qed.

Lemma players_bound_player p f w :
  (forall pl, username (f pl) = username pl) ->
  players_bound w -> players_bound (set_players (alter f p) w).
Proof.
  intros Hf [H1 H2]. split.
  - intros n q Hin. destruct (H1 n q Hin) as (pl & Hpl & Hn).
    cbn [players set_players]. rewrite lookup_alter.
    destruct (decide (p = q)) as [<-|Hne].
    + rewrite Hpl. exists (f pl). split; [reflexivity|]. rewrite Hf. exact Hn.
    + exists pl. split; assumption.
  - intros c cl q Hc Hq. cbn [players set_players]. rewrite lookup_alter.
    destruct (H2 c cl q Hc Hq) as [pl Hpl].
    destruct (decide (p = q)) as [<-|Hne]; [rewrite Hpl|]; eauto.
Qed.

Lemma players_bound_client f c w :
  (forall cl, player (f cl) = player cl) ->
  players_bound w -> players_bound (set_clients (alter f c) w).
Proof.
  intros Hf [H1 H2]. split; [exact H1|].
  intros c' cl' q. cbn [clients set_clients players]. rewrite lookup_alter.
  destruct (decide (c = c')) as [<-|Hne]; [|apply H2].
  destruct (clients w !! c) as [cl|] eqn:E; cbn; [|discriminate].
  intros [= <-]. rewrite Hf. apply (H2 c cl q E).
Qed.

(** A client may be bound to a PLAYER object. *)
Lemma players_bound_login c q w :
  is_Some (players w !! q) ->
  players_bound w ->
  players_bound (set_clients (alter (with_login 1 (Some q)) c) w).
Proof.
  intros Hq [H1 H2]. split; [exact H1|].
  intros c' cl' q'. cbn [clients set_clients players]. rewrite lookup_alter.
  destruct (decide (c = c')) as [<-|Hne]; [|apply H2].
  destruct (clients w !! c) as [cl|] eqn:E; cbn; [|discriminate].
  intros [= <-]. cbn [player with_login]. intros [= <-]. exact Hq.
Qed.

Lemma client_add_invitation_preg c i w :
  preg_head (snd (client_add_invitation (Some c) (Some i) w)) = preg_head w.
Proof.
  unfold client_add_invitation, bind.
  destruct (malloc_node w) as [ok w1] eqn:Em.
  assert (H1 : preg_head w1 = preg_head w).
  { unfold malloc_node in Em. destruct (node_mallocs w); injection Em as <- <-;
      reflexivity. }
  destruct ok; cbv beta iota; cbn [negb]; [|exact H1].
  unfold find_lowest_id_availalble, gets, upd_client, inv_ref,
    upd_invitation, modify, bind, ret. cbn. exact H1.
Qed.

#[local] Instance players_bound_respects :
  Respects (fun w w' => players_bound w -> players_bound w').
Proof.
  split;
    try (intros; eapply players_bound_same; [reflexivity .. | assumption]).
  - auto.
  - intros p f w Hf. apply players_bound_player. exact Hf.
  - intros c g w. apply players_bound_client. reflexivity.
  - intros c i w. apply players_bound_client. reflexivity.
  - intros c i w Hw.
    destruct (client_add_invitation_frame c i w) as (_ & Hp & _).
    destruct (client_add_invitation_clients c i w) as [E | E].
    + eapply players_bound_same; [exact Hp | apply client_add_invitation_preg
                                  | exact E | exact Hw].
    + pose proof (players_bound_client
                    (fun cl =>
                       with_invitations_head
                         (mkNODE i (fst (find_lowest_id_availalble c w))
                            :: invitations_head cl) cl) c w
                    (fun cl => eq_refl) Hw) as Hb.
      refine (players_bound_same _ _ _ _ _ Hb);
        [exact Hp | exact (client_add_invitation_preg c i w) | exact E].
Qed.

(** [preg_register] in a state where the registries agree with the
    heap. *)
Lemma preg_register_bound name w :
  players_bound w ->
  exists q w1,
    preg_register name w = (Some q, w1)
    /\ players_bound w1
    /\ is_Some (players w1 !! q)
    /\ strcmp_eq (username (the_player q w1)) name = true
    /\ preg_find (preg_head w1) name = Some q
    /\ (forall p, is_Some (players w !! p) ->
          username (the_player p w1) = username (the_player p w))
    /\ clients w1 = clients w /\ creg_head w1 = creg_head w
    /\ wire w1 = wire w /\ invitations w1 = invitations w.
Proof.
  intros Hb. unfold preg_register, bind, gets. cbn [fst snd].
  destruct (preg_find (preg_head w) name) as [q|] eqn:E.
  - unfold player_ref, upd_player, modify, bind, ret. cbn [fst snd].
    exists q. eexists. split; [reflexivity|].
    destruct (preg_find_elem _ _ _ E) as (n & Hin & Hn).
    destruct (proj1 Hb n q Hin) as (pl & Hpl & Hname).
    split; [apply players_bound_player; [reflexivity | exact Hb]|].
    cbn [players set_players preg_head clients creg_head wire invitations].
    split; [rewrite lookup_alter_eq, Hpl; eauto|].
    split.
    { unfold the_player. cbn [players set_players].
      rewrite lookup_alter_eq, Hpl. cbn. rewrite Hname. exact Hn. }
    split; [exact E|].
    split; [|repeat split].
    intros p _. unfold the_player. cbn [players set_players].
    rewrite lookup_alter. destruct (decide (q = p)) as [<-|Hne]; [|reflexivity].
    destruct (players w !! q); reflexivity.
  - unfold player_create, player_ref, upd_player, modify, bind, ret.
    cbn [fst snd].
    set (q := fresh (dom (players w))).
    assert (Hq : players w !! q = None).
    { apply not_elem_of_dom. apply is_fresh. }
    assert (Hne : forall p, is_Some (players w !! p) -> q <> p).
    { intros p [pl Hpl] <-. congruence. }
    exists q. eexists. split; [reflexivity|].
    cbn [players set_players set_preg preg_head clients creg_head wire
         invitations].
    split.
    { split.
      - intros n p Hin. cbn [players set_players set_preg preg_head] in *.
        apply elem_of_cons in Hin. destruct Hin as [[= -> ->] | Hin].
        + rewrite lookup_alter_eq, lookup_insert_eq. eexists.
          split; reflexivity.
        + destruct (proj1 Hb n p Hin) as (pl & Hpl & Hname).
          rewrite lookup_alter_ne, lookup_insert_ne
            by (apply Hne; rewrite Hpl; eauto).
          eauto.
      - intros c cl p Hc Hp.
        cbn [players set_players set_preg clients] in *.
        pose proof (proj2 Hb c cl p Hc Hp) as Hs.
        rewrite lookup_alter_ne, lookup_insert_ne by (apply Hne; exact Hs).
        exact Hs. }
    split; [rewrite lookup_alter_eq, lookup_insert_eq; eauto|].
    split.
    { unfold the_player. cbn [players set_players set_preg].
      rewrite lookup_alter_eq, lookup_insert_eq. cbn. apply strcmp_eq_cstr. }
    split; [cbn [preg_find]; rewrite strcmp_eq_cstr; reflexivity|].
    split; [|repeat split].
    intros p Hp. unfold the_player. cbn [players set_players set_preg].
    rewrite lookup_alter_ne, lookup_insert_ne by (apply Hne; exact Hp).
    reflexivity.
Qed.

(** [client_login], computed: the client must not be marked as logged
    in, and none of the players listed may have the name of the
    player. *)
Lemma client_login_exact c q w :
  client_login (Some c) (Some q) w
  = if negb (logged_in (the_client c w) =? 0)
       || existsb (fun p => strcmp_eq (username (the_player p w))
                                      (username (the_player q w)))
                  (players_listed w)
    then (-1, w)
    else (0, snd (player_ref (Some q)
                    (set_clients (alter (with_login 1 (Some q)) c) w))).
Proof.
  unfold client_login. unfold bind at 1. unfold gets at 1. cbn [fst snd].
  destruct (negb (logged_in (the_client c w) =? 0)); [reflexivity|].
  cbn [orb]. unfold bind at 1. unfold bind at 1.
  unfold player_get_name, gets. cbn [fst snd name_or_empty from_option id].
  unfold id.
  change (check_if_other_clients_logged_in_with_same_player
            (username (the_player q w)) w)
    with (check_if_other_clients_logged_in_with_same_name
            (username (the_player q w)) w).
  rewrite check_same_name_pure.
  destruct (existsb _ (players_listed w)); [reflexivity|].
  cbn [Z.eqb negb]. unfold upd_client, modify, bind, ret. cbn [fst snd].
  destruct (player_ref (Some q) _). reflexivity.
Qed.

#[local] Instance players_bound_session :
  RespectsSession (fun w w' => players_bound w -> players_bound w').
Proof.
  split.
  - intros name c w Hb. unfold bind.
    destruct (preg_register_bound name w Hb)
      as (q & w1 & -> & Hb1 & Hq & _).
    rewrite client_login_exact.
    destruct (_ || _); cbn [snd]; [exact Hb1|].
    unfold player_ref, upd_player, modify, bind, ret. cbn [fst snd].
    apply players_bound_player; [reflexivity|].
    apply players_bound_login; assumption.
  - intros. eapply players_bound_same; [reflexivity .. | assumption].
Qed.

#[local] Instance players_bound_connect :
  RespectsConnect (fun w w' => players_bound w -> players_bound w').
Proof.
  split. intros d w [H1 H2]. split; [exact H1|].
  intros c cl q. cbn [client_create snd clients set_clients players].
  rewrite lookup_insert. destruct (decide _) as [<-|Hne]; [|apply H2].
  intros [= <-]. discriminate.
Qed.

#[local] Instance players_bound_service :
  StableService (fun w w' => players_bound w -> players_bound w').
Proof.
  split. intros. eapply players_bound_same; [reflexivity .. | assumption].
Qed.

Lemma reachable_players_bound w ts : reachable w ts -> players_bound w.
Proof.
  apply (reachable_respects players_bound); try typeclasses eauto.
  - intros l w0 H. eapply players_bound_same; [reflexivity .. | exact H].
  - split.
    + intros n p H. cbn in H. apply elem_of_nil in H. destruct H.
    + intros c cl q. cbn. rewrite lookup_empty. discriminate.
Qed.

(** The players that are listed are PLAYER objects. *)
Lemma players_listed_bound w p :
  players_bound w -> p ∈ players_listed w -> is_Some (players w !! p).
Proof.
  intros [_ H2] Hp. unfold players_listed in Hp.
  apply elem_of_take in Hp. destruct Hp as (k & Hk & _).
  apply list_elem_of_lookup_2 in Hk.
  apply list_elem_of_omap in Hk. destruct Hk as (c & _ & Hc).
  unfold player_of, the_client in Hc.
  destruct (clients w !! c) as [cl|] eqn:E; cbn [from_option id] in Hc.
  - destruct (negb _); [|discriminate]. exact (H2 c cl p E Hc).
  - cbn in Hc. discriminate.
Qed.

(** C2. A session that has not logged in gets a NACK for each of USERS,
    INVITE, REVOKE, ACCEPT, DECLINE, MOVE and RESIGN, and no object of the
    server changes; a session that has logged in gets a NACK for LOGIN,
    and no object changes, its login least of all.  A LOGIN of a session
    that has not logged in is processed: either it is answered by an ACK,
    the session is logged in from then on and its client is bound to the
    player registered under the name of the payload, or it is answered by
    a NACK and no client changes.  In a state that the server reaches
    the ACK is given exactly if none of the players that
    [creg_all_players] lists has the name (as C strings compare) and the
    client is not marked as logged in: if a player listed has the name,
    the NACK comes with no object of the server changed; if only the
    client is marked, the name has been registered but no client
    changes. *)
Theorem login_gates_requests (client : ptr) (hdr : JEUX_PACKET_HEADER)
  (payload : option string) (w : World) :
  (JEUX_USERS_PKT <= pkt_type hdr <= JEUX_RESIGN_PKT ->
   exists w' r,
     service_frame client 0 hdr payload w = (0, w')
     /\ wire w' = mkSEND client (make_packet JEUX_NACK_PKT 0) None r :: wire w
     /\ same_objects w w')
  /\ (forall li, li <> 0 -> pkt_type hdr = JEUX_LOGIN_PKT ->
      exists w' r,
        service_frame client li hdr payload w = (li, w')
        /\ wire w' = mkSEND client (make_packet JEUX_NACK_PKT 0) None r :: wire w
        /\ same_objects w w')
  /\ (pkt_type hdr = JEUX_LOGIN_PKT ->
      exists li' w' reply,
        service_frame client 0 hdr payload w = (li', w')
        /\ wire w' = reply :: wire w
        /\ send_to reply = client
        /\ invitations w' = invitations w
        /\ ((li' = 1 /\ pkt_type (send_hdr reply) = JEUX_ACK_PKT
             /\ exists q,
                  preg_find (preg_head w') (copy_payload payload (pkt_size hdr))
                  = Some q
                  /\ clients w' = alter (with_login 1 (Some q)) client (clients w))
            \/ (li' = 0 /\ pkt_type (send_hdr reply) = JEUX_NACK_PKT
                /\ clients w' = clients w)))
  /\ (forall ts, reachable w ts -> pkt_type hdr = JEUX_LOGIN_PKT ->
      exists li' w' reply,
        service_frame client 0 hdr payload w = (li', w')
        /\ wire w' = reply :: wire w
        /\ send_to reply = client
        /\ if existsb (fun p => strcmp_eq (username (the_player p w))
                                  (copy_payload payload (pkt_size hdr)))
                      (players_listed w)
           then li' = 0 /\ pkt_type (send_hdr reply) = JEUX_NACK_PKT
                /\ same_objects w w'
           else if negb (logged_in (the_client client w) =? 0)
           then li' = 0 /\ pkt_type (send_hdr reply) = JEUX_NACK_PKT
                /\ clients w' = clients w
           else li' = 1 /\ pkt_type (send_hdr reply) = JEUX_ACK_PKT
                /\ exists q,
                     preg_find (preg_head w')
                               (copy_payload payload (pkt_size hdr)) = Some q
                     /\ strcmp_eq (username (the_player q w'))
                                  (copy_payload payload (pkt_size hdr)) = true
                     /\ clients w'
                        = alter (with_login 1 (Some q)) client (clients w)).
Proof.
  split; [|split; [|split]].
  - unfold service_frame, JEUX_NO_PKT, JEUX_LOGIN_PKT,
      JEUX_USERS_PKT, JEUX_INVITE_PKT, JEUX_REVOKE_PKT, JEUX_ACCEPT_PKT,
      JEUX_DECLINE_PKT, JEUX_MOVE_PKT, JEUX_RESIGN_PKT.
    intros Hn. change (0 =? 0) with true. cbv iota.
    repeat match goal with
           | |- context [pkt_type hdr =? ?k] =>
             destruct (pkt_type hdr =? k) eqn:?;
               [try lia; try apply nack_and_return|]
           end.
    lia.
  - intros li Hli Ht. unfold service_frame. rewrite Ht.
    change (JEUX_LOGIN_PKT =? JEUX_NO_PKT) with false.
    change (JEUX_LOGIN_PKT =? JEUX_LOGIN_PKT) with true. cbv iota.
    destruct (li =? 0) eqn:E; [lia|]. apply nack_and_return.
  - intros Ht. unfold service_frame. rewrite Ht.
    change (JEUX_LOGIN_PKT =? JEUX_NO_PKT) with false.
    change (JEUX_LOGIN_PKT =? JEUX_LOGIN_PKT) with true.
    change (0 =? 0) with true. cbv iota.
    set (name := copy_payload payload (pkt_size hdr)).
    unfold bind at 1.
    pose proof (check_same_name_only_players name w) as H1.
    destruct (check_if_other_clients_logged_in_with_same_name name w)
      as [taken w1].
    cbn [snd] in H1.
    destruct (only_players_fields _ _ H1) as (Hc1 & Hi1 & Hw1 & Hp1 & _).
    destruct (negb (taken =? 0)).
    { destruct (nack_and_return client 0 w1) as (w' & r & -> & Hw & Ho).
      destruct Ho as (_ & Hi & Hc & _).
      eexists 0, w', _. split; [reflexivity|].
      split; [rewrite Hw, Hw1; reflexivity|].
      split; [reflexivity|]. split; [congruence|].
      right. repeat split; congruence. }
    unfold bind at 1.
    destruct (preg_register_spec name w1) as (q & w2 & -> & Hq & Hc2 & Hw2 & Hi2).
    unfold bind at 1.
    destruct (client_login (Some client) (Some q) w2) as [val w3] eqn:El.
    destruct (client_login_spec _ _ _ _ _ El) as (Hw3 & Hp3 & Hi3 & Hcase).
    destruct Hcase as [[-> Hc3] | [-> Hc3]].
    + change (-1 =? 0) with false. cbv iota.
      destruct (nack_and_return client 0 w3) as (w' & r & -> & Hw & Ho).
      destruct Ho as (_ & Hi & Hc & _).
      eexists 0, w', _. split; [reflexivity|].
      split; [rewrite Hw, Hw3, Hw2, Hw1; reflexivity|].
      split; [reflexivity|]. split; [congruence|].
      right. repeat split; congruence.
    + change (0 =? 0) with true. cbv iota. unfold bind.
      destruct (client_send_ack_spec client None 0 w3)
        as (r & r' & w' & -> & Hw & Ho).
      destruct Ho as (_ & Hi & Hc & _ & _ & Hp).
      eexists 1, w', _. split; [reflexivity|].
      split; [rewrite Hw, Hw3, Hw2, Hw1; reflexivity|].
      split; [reflexivity|]. split; [congruence|].
      left. split; [reflexivity|]. split; [reflexivity|].
      exists q. split; [congruence|]. congruence.
  - intros ts Hreach Ht.
    pose proof (reachable_players_bound _ _ Hreach) as Hb.
    unfold service_frame. rewrite Ht.
    change (JEUX_LOGIN_PKT =? JEUX_NO_PKT) with false.
    change (JEUX_LOGIN_PKT =? JEUX_LOGIN_PKT) with true.
    change (0 =? 0) with true. cbv iota.
    set (name := copy_payload payload (pkt_size hdr)).
    unfold bind at 1. rewrite check_same_name_pure.
    destruct (existsb _ (players_listed w)) eqn:Ex.
    { cbn [Z.eqb negb].
      destruct (nack_and_return client 0 w) as (w' & r & -> & Hw & Ho).
      eexists 0, w', _. split; [reflexivity|]. split; [exact Hw|].
      split; [reflexivity|]. auto. }
    cbn [Z.eqb negb]. unfold bind at 1.
    destruct (preg_register_bound name w Hb)
      as (q & w1 & -> & Hb1 & Hq & Hname & Hfind & Hkeep & Hc1 & Hr1 & Hw1 & Hi1).
    unfold bind at 1. rewrite client_login_exact.
    assert (Hli : logged_in (the_client client w1)
                  = logged_in (the_client client w)).
    { unfold the_client. rewrite Hc1. reflexivity. }
    assert (Hl : players_listed w1 = players_listed w).
    { unfold players_listed, player_of, the_client. rewrite Hc1, Hr1.
      reflexivity. }
    assert (Hex : existsb (fun p => strcmp_eq (username (the_player p w1))
                                      (username (the_player q w1)))
                          (players_listed w1) = false).
    { rewrite Hl, <- Ex. apply existsb_same_in. intros p Hp.
      rewrite (Hkeep p (players_listed_bound _ _ Hb Hp)).
      apply strcmp_eq_right. exact Hname. }
    rewrite Hli, Hex, orb_false_r.
    destruct (negb (logged_in (the_client client w) =? 0)).
    + change (-1 =? 0) with false. cbv iota.
      destruct (nack_and_return client 0 w1) as (w' & r & -> & Hw & Ho).
      destruct Ho as (_ & _ & Hc & _).
      eexists 0, w', _. split; [reflexivity|].
      split; [rewrite Hw, Hw1; reflexivity|].
      split; [reflexivity|]. split; [reflexivity|].
      split; [reflexivity | congruence].
    + change (0 =? 0) with true. cbv iota.
      unfold player_ref, upd_player, modify, bind at 2, ret. cbn [fst snd].
      set (w2 := set_players _ (set_clients _ w1)).
      unfold bind.
      destruct (client_send_ack_spec client None 0 w2)
        as (r & r' & w' & -> & Hw & Ho).
      destruct Ho as (Hp & _ & Hc & _ & _ & Hpr).
      eexists 1, w', _. split; [reflexivity|].
      split; [rewrite Hw; exact (f_equal _ Hw1)|].
      split; [reflexivity|]. split; [reflexivity|]. split; [reflexivity|].
      exists q. split; [rewrite Hpr; exact Hfind|]. split.
      * unfold the_player. rewrite Hp. unfold w2. cbn [players set_players
                                                        set_clients].
        rewrite lookup_alter_eq. destruct Hq as [pl Hpl].
        unfold the_player in Hname. rewrite Hpl in Hname |- *. exact Hname.
      * rewrite Hc. unfold w2. cbn [clients set_players set_clients].
        rewrite Hc1. reflexivity.
Qed.


(** ** client.c: the move that ends a game in a draw *)

(** A send that goes through: the packet passes the test of
    [proto_send_packet] and the write does not fail. *)
Lemma client_send_packet_goes c h d w :
  refused (mkSEND c h d 0) = false ->
  write_error (fd (the_client c w)) (broken w) = None ->
  exists w',
    client_send_packet (Some c) h d w = (0, w')
    /\ same_objects w w' /\ broken w' = broken w.
Proof.
  unfold refused. cbn [send_hdr send_data]. intros Hr He.
  unfold client_send_packet, client_get_fd, proto_send_packet, bind, gets,
    modify, ret. cbn [fst snd]. rewrite Hr. cbn [fst snd broken set_errno].
  rewrite He. eexists. split; [reflexivity|]. split; [repeat split | reflexivity].
Qed.

(** When the move that ends a game goes through: the opponent is
    another client, each of the two has the invitation on its list under
    an id other than -1, and the writes on their descriptors do not
    fail. *)
Lemma client_make_move_goes_through c id0 mv w n g8 m g opp :
  find_node_by_id (invitations_head (the_client c w)) id0 = Some n ->
  Some c = sender (the_invitation (invitation n) w)
  \/ Some c = recipient (the_invitation (invitation n) w) ->
  (if bool_decide (Some c = sender (the_invitation (invitation n) w))
   then recipient (the_invitation (invitation n) w)
   else sender (the_invitation (invitation n) w)) = Some opp ->
  game (the_invitation (invitation n) w) = Some g8 ->
  game_parse_move g8
    (if bool_decide (Some c = sender (the_invitation (invitation n) w))
     then source_role (the_invitation (invitation n) w)
     else target_role (the_invitation (invitation n) w)) mv = Some m ->
  game_apply_move (Some g8) (Some m) = (Some g, 0) ->
  game_is_over g = 1 ->
  c <> opp ->
  (exists cn,
     find_node_by_inv (invitations_head (the_client c w)) (invitation n) = Some cn
     /\ node_id cn <> -1) ->
  (exists on,
     find_node_by_inv (invitations_head (the_client opp w)) (invitation n) = Some on
     /\ node_id on <> -1) ->
  write_error (fd (the_client c w)) (broken w) = None ->
  write_error (fd (the_client opp w)) (broken w) = None ->
  fst (client_make_move c id0 mv w) = 0.
Proof.
  intros Hn Hparty Hopp Hg Hp Ha Hover Hne Hlc Hlo Hwc Hwo.
  set (i := invitation n) in *. set (x := the_invitation i w) in *.
  assert (Hab : exists a b,
             sender x = Some a /\ recipient x = Some b /\ a <> b
             /\ (exists na,
                   find_node_by_inv (invitations_head (the_client a w)) i = Some na
                   /\ node_id na <> -1)
             /\ (exists nb,
                   find_node_by_inv (invitations_head (the_client b w)) i = Some nb
                   /\ node_id nb <> -1)).
  { destruct (decide (Some c = sender x)) as [Es|Es].
    - rewrite (bool_decide_eq_true_2 _ Es) in Hopp.
      exists c, opp. rewrite <- Es. auto.
    - rewrite (bool_decide_eq_false_2 _ Es) in Hopp.
      destruct Hparty as [E|E]; [contradiction|].
      exists opp, c. rewrite <- E. auto. }
  destruct Hab as (a & b & Hsa & Hrb & Hab & (na & Hla & Hia) & (nb & Hlb & Hib)).
  destruct Hlo as (on & Hon & _).
  unfold client_make_move. unfold bind at 1.
  unfold gets at 1. rewrite Hn. cbv zeta. fold i.
  unfold bind at 1. unfold inv_get_source at 1. unfold gets at 1.
  unfold bind at 1. unfold inv_get_target at 1. unfold gets at 1.
  unfold bind at 1. unfold inv_get_game at 1. unfold gets at 1.
  fold x. rewrite Hg.
  unfold bind at 1. unfold inv_get_source_role at 1. unfold gets at 1.
  unfold bind at 1. unfold inv_get_target_role at 1. unfold gets at 1.
  fold x. rewrite Hp, Ha. change (0 =? -1) with false. cbv iota.
  unfold bind at 1. unfold upd_invitation, modify at 1. cbv beta iota zeta.
  set (w1 := set_invitations (alter (with_game (Some g)) i) w).
  rewrite Hopp.
  unfold bind at 1. cbn [list_of gets fst snd the_game from_option].
  unfold id.
  change (the_client opp w1) with (the_client opp w).
  rewrite Hon. cbv zeta. rewrite Hover.
  (* MOVED *)
  unfold bind at 1.
  destruct (client_send_packet_goes opp
              (with_pkt_id (node_id on)
                 (make_packet JEUX_MOVED_PKT (strlen (game_unparse_state g))))
              (Some (game_unparse_state g)) w1)
    as (w2 & E2 & Ho2 & Hb2).
  { unfold refused. cbn [send_hdr send_data].
    rewrite strlen_game_unparse_state. reflexivity. }
  { exact Hwo. }
  rewrite E2. cbn [Z.eqb negb].
  assert (Hc2 : clients w2 = clients w) by (destruct Ho2 as (_ & _ & -> & _); reflexivity).
  (* ENDED to the opponent *)
  unfold bind at 1.
  destruct (client_send_packet_goes opp
              (with_pkt_role (role_val (game_get_winner (Some g)))
                 (with_pkt_id (node_id on) (make_packet JEUX_ENDED_PKT 0)))
              None w2)
    as (w3 & E3 & Ho3 & Hb3).
  { reflexivity. }
  { unfold the_client. rewrite Hc2, Hb2. exact Hwo. }
  rewrite E3. cbn [Z.eqb negb].
  assert (Hc3 : clients w3 = clients w) by (destruct Ho3 as (_ & _ & -> & _); exact Hc2).
  (* ENDED to the client *)
  unfold bind at 1.
  destruct (client_send_packet_goes c
              (with_pkt_role (role_val (game_get_winner (Some g)))
                 (with_pkt_id id0 (make_packet JEUX_ENDED_PKT 0)))
              None w3)
    as (w4 & E4 & Ho4 & Hb4).
  { reflexivity. }
  { unfold the_client. rewrite Hc3, Hb3, Hb2. exact Hwc. }
  rewrite E4. cbn [Z.eqb negb].
  assert (Hc4 : clients w4 = clients w) by (destruct Ho4 as (_ & _ & -> & _); exact Hc3).
  assert (Hl4 : forall k, invitations_head (the_client k w4)
                          = invitations_head (the_client k w)).
  { intros k. unfold the_client. rewrite Hc4. reflexivity. }
  (* the two removals *)
  rewrite Hsa, Hrb.
  unfold bind at 1.
  destruct (client_remove_invitation (Some a) (Some i) w4) as [r5 w5] eqn:E5.
  destruct (client_remove_invitation_spec _ _ _ _ _ E5)
    as [(_ & _ & Hnone) | (na' & Hna & -> & _ & Hoth & _)].
  { rewrite Hl4, Hla in Hnone. discriminate. }
  rewrite Hl4, Hla in Hna. injection Hna as <-.
  destruct (Z.eqb_spec (node_id na) (-1)) as [Eid|_]; [contradiction|].
  unfold bind at 1.
  destruct (client_remove_invitation (Some b) (Some i) w5) as [r6 w6] eqn:E6.
  destruct (client_remove_invitation_spec _ _ _ _ _ E6)
    as [(_ & _ & Hnone) | (nb' & Hnb & -> & _)].
  { rewrite (Hoth b) in Hnone by congruence. rewrite Hl4, Hlb in Hnone.
    discriminate. }
  rewrite (Hoth b) in Hnb by congruence. rewrite Hl4, Hlb in Hnb.
  injection Hnb as <-.
  destruct (Z.eqb_spec (node_id nb) (-1)) as [Eid|_]; [contradiction|].
  unfold bind. destruct (client_get_player (Some a) w6) as [ps v1].
  destruct (client_get_player (Some b) v1) as [pt v2].
  destruct (player_post_result _ _ _ v2). reflexivity.
Qed.


(** The move that ends a game without a winner, as [client_make_move]
    makes it. *)
Lemma client_make_move_draw c id0 mv w w' r n g8 m g opp :
  find_node_by_id (invitations_head (the_client c w)) id0 = Some n ->
  Some c = sender (the_invitation (invitation n) w)
  \/ Some c = recipient (the_invitation (invitation n) w) ->
  (if bool_decide (Some c = sender (the_invitation (invitation n) w))
   then recipient (the_invitation (invitation n) w)
   else sender (the_invitation (invitation n) w)) = Some opp ->
  game (the_invitation (invitation n) w) = Some g8 ->
  game_parse_move g8
    (if bool_decide (Some c = sender (the_invitation (invitation n) w))
     then source_role (the_invitation (invitation n) w)
     else target_role (the_invitation (invitation n) w)) mv = Some m ->
  game_apply_move (Some g8) (Some m) = (Some g, 0) ->
  game_is_over g = 1 ->
  game_get_winner (Some g) = NULL_ROLE ->
  client_make_move c id0 mv w = (r, w') ->
  (r = 0 \/ r = -1)
  /\ (r = 0 ->
      exists w6,
        (forall q, rating <$> players w6 !! q = rating <$> players w !! q)
        /\ w' = snd (player_post_result (player_of w c) (player_of w opp) 0 w6))
  /\ (r = -1 ->
      forall q, rating <$> players w' !! q = rating <$> players w !! q).
Proof.
  intros Hn Hparty Hopp Hg Hp Ha Hover Hgw Hmv.
  set (i := invitation n) in *. set (x := the_invitation i w) in *.
  unfold client_make_move in Hmv. unfold bind at 1 in Hmv.
  unfold gets at 1 in Hmv. rewrite Hn in Hmv. cbv zeta in Hmv. fold i in Hmv.
  unfold bind at 1 in Hmv. unfold inv_get_source at 1 in Hmv.
  unfold gets at 1 in Hmv.
  unfold bind at 1 in Hmv. unfold inv_get_target at 1 in Hmv.
  unfold gets at 1 in Hmv.
  unfold bind at 1 in Hmv. unfold inv_get_game at 1 in Hmv.
  unfold gets at 1 in Hmv. fold x in Hmv. rewrite Hg in Hmv.
  unfold bind at 1 in Hmv. unfold inv_get_source_role at 1 in Hmv.
  unfold gets at 1 in Hmv.
  unfold bind at 1 in Hmv. unfold inv_get_target_role at 1 in Hmv.
  unfold gets at 1 in Hmv. fold x in Hmv.
  rewrite Hp, Ha in Hmv. change (0 =? -1) with false in Hmv.
  cbv iota in Hmv.
  unfold bind at 1 in Hmv. unfold upd_invitation, modify at 1 in Hmv.
  cbv beta iota zeta in Hmv.
  set (w1 := set_invitations (alter (with_game (Some g)) i) w) in Hmv.
  rewrite Hopp in Hmv.
  unfold bind at 1 in Hmv. cbn [list_of gets fst snd the_game from_option] in Hmv.
  unfold id in Hmv.
  assert (Hfail : forall v : World,
             (forall q, rating <$> players v !! q = rating <$> players w !! q) ->
             (-1, v) = (r, w') ->
             (r = 0 \/ r = -1)
             /\ (r = 0 ->
                 exists w6,
                   (forall q, rating <$> players w6 !! q
                              = rating <$> players w !! q)
                   /\ w' = snd (player_post_result (player_of w c)
                                  (player_of w opp) 0 w6))
             /\ (r = -1 ->
                 forall q, rating <$> players w' !! q
                           = rating <$> players w !! q)).
  { intros v Hv [= <- <-]. split; [right; reflexivity|].
    split; [discriminate | intros _; exact Hv]. }
  destruct (find_node_by_inv (invitations_head (the_client opp w1)) i)
    as [on|]; [|apply (Hfail w1); [reflexivity | exact Hmv]].
  cbv zeta in Hmv. rewrite Hgw, Hover in Hmv.
  (* MOVED *)
  unfold bind at 1 in Hmv.
  destruct (client_send_packet_cases opp
              (with_pkt_id (node_id on)
                 (make_packet JEUX_MOVED_PKT (strlen (game_unparse_state g))))
              (Some (game_unparse_state g)) w1)
    as (r2 & w2 & E2 & Hr2 & _ & Ho2).
  rewrite E2 in Hmv.
  destruct Hr2 as [-> | ->];
    [|apply (Hfail w2); [destruct Ho2 as (-> & _); reflexivity | exact Hmv]].
  cbn [Z.eqb negb] in Hmv.
  (* ENDED to the opponent *)
  unfold bind at 1 in Hmv.
  destruct (client_send_packet_cases opp
              (with_pkt_role (role_val NULL_ROLE)
                 (with_pkt_id (node_id on) (make_packet JEUX_ENDED_PKT 0)))
              None w2)
    as (r3 & w3 & E3 & Hr3 & _ & Ho3).
  rewrite E3 in Hmv.
  destruct Hr3 as [-> | ->];
    [|apply (Hfail w3);
      [destruct Ho3 as (-> & _), Ho2 as (-> & _); reflexivity | exact Hmv]].
  cbn [Z.eqb negb] in Hmv.
  (* ENDED to the client *)
  unfold bind at 1 in Hmv.
  destruct (client_send_packet_cases c
              (with_pkt_role (role_val NULL_ROLE)
                 (with_pkt_id id0 (make_packet JEUX_ENDED_PKT 0)))
              None w3)
    as (r4 & w4 & E4 & Hr4 & _ & Ho4).
  rewrite E4 in Hmv.
  assert (Hrat4 : forall q, rating <$> players w4 !! q = rating <$> players w !! q).
  { intros q. destruct Ho4 as (-> & _), Ho3 as (-> & _), Ho2 as (-> & _).
    reflexivity. }
  destruct Hr4 as [-> | ->]; [|apply (Hfail w4); [exact Hrat4 | exact Hmv]].
  cbn [Z.eqb negb] in Hmv.
  (* the two removals *)
  unfold bind at 1 in Hmv.
  pose proof (client_remove_invitation_ratings (sender x) (Some i) w4) as Hr5.
  pose proof (steps_client_remove_invitation same_logins (sender x) (Some i) w4)
    as Hl5.
  destruct (client_remove_invitation (sender x) (Some i) w4) as [r5 w5].
  cbn [snd] in Hr5, Hl5.
  assert (Hrat5 : forall q, rating <$> players w5 !! q = rating <$> players w !! q).
  { intros q. rewrite Hr5. apply Hrat4. }
  destruct (r5 =? -1); [apply (Hfail w5); [exact Hrat5 | exact Hmv]|].
  unfold bind at 1 in Hmv.
  pose proof (client_remove_invitation_ratings (recipient x) (Some i) w5) as Hr6.
  pose proof (steps_client_remove_invitation same_logins (recipient x) (Some i) w5)
    as Hl6.
  destruct (client_remove_invitation (recipient x) (Some i) w5) as [r6 w6].
  cbn [snd] in Hr6, Hl6.
  assert (Hrat6 : forall q, rating <$> players w6 !! q = rating <$> players w !! q).
  { intros q. rewrite Hr6. apply Hrat5. }
  destruct (r6 =? -1); [apply (Hfail w6); [exact Hrat6 | exact Hmv]|].
  assert (Hlog : forall k, player_of w6 k = player_of w k).
  { intros k. rewrite (player_of_same_logins _ _ _ Hl6).
    rewrite (player_of_same_logins _ _ _ Hl5).
    unfold player_of, the_client.
    destruct Ho4 as (_ & _ & -> & _), Ho3 as (_ & _ & -> & _),
      Ho2 as (_ & _ & -> & _). reflexivity. }
  (* the players handed to [player_post_result] *)
  assert (Hargs :
    exists ps pt,
      client_get_player (sender x) w6 = (ps, w6)
      /\ client_get_player (recipient x) w6 = (pt, w6)
      /\ (if bool_decide (Some c = sender x) then ps else pt) = player_of w c
      /\ (if bool_decide (Some c = sender x) then pt else ps) = player_of w opp).
  { destruct (decide (Some c = sender x)) as [Es|Es].
    - rewrite (bool_decide_eq_true_2 _ Es) in Hopp |- *.
      rewrite <- Es, Hopp. eexists _, _. split; [reflexivity|].
      split; [reflexivity|]. cbn [fst].
      split; [exact (Hlog c) | exact (Hlog opp)].
    - rewrite (bool_decide_eq_false_2 _ Es) in Hopp |- *.
      destruct Hparty as [E|E]; [contradiction|].
      rewrite <- E, Hopp. eexists _, _. split; [reflexivity|].
      split; [reflexivity|]. cbn [fst].
      split; [exact (Hlog c) | exact (Hlog opp)]. }
  destruct Hargs as (ps & pt & Eps & Ept & H1 & H2).
  unfold bind at 1 in Hmv. rewrite Eps in Hmv.
  unfold bind at 1 in Hmv. rewrite Ept in Hmv.
  rewrite H1, H2 in Hmv.
  change (move_result NULL_ROLE) with 0 in Hmv.
  unfold bind, ret in Hmv.
  destruct (player_post_result (player_of w c) (player_of w opp) 0 w6)
    as [[] w7] eqn:E7.
  injection Hmv as <- <-. split; [left; reflexivity|]. split; [|discriminate].
  intros _. exists w6. split; [exact Hrat6|]. rewrite E7. reflexivity.
Qed.

(** C8. Nine moves made one after the other from the initial position,
    each accepted by [game_apply_move], after which neither player has
    three in a row, leave the game terminated with no winner; the result
    that [client_make_move] computes for it is 0, for which
    [player_post_result] scores 0.5 for each player.  And when the move
    that ends the game so is made by [client_make_move] (the move is the
    one that the string of the request denotes for the role of the
    client in the game of the invitation), the function returns 0 or -1:
    if it returns 0, what it has done to the ratings is one call of
    [player_post_result], with the player of the client that moved, the
    player of the opponent and the result 0; if it returns -1 (a send or
    the removal of the invitation from a list has failed), no rating has
    changed.  It returns 0 if the opponent is another client, each of
    the two has the invitation on its list under an id other than -1, and
    the writes on their descriptors do not fail. *)
Theorem nine_moves_draw (ms : list GAME_MOVE) (g : GAME) :
  length ms = 9%nat ->
  play game_create ms = Some g ->
  win g 1 = 0 ->
  win g 2 = 0 ->
  terminated g <> 0
  /\ winner g = NULL_ROLE
  /\ game_is_over g = 1
  /\ game_get_winner (Some g) = NULL_ROLE
  /\ move_result (game_get_winner (Some g)) = 0
  /\ result_scores (move_result (game_get_winner (Some g))) = Some (1 # 2, 1 # 2)%Q
  /\ forall (c : ptr) (id0 : Z) (mv : string) (w w' : World) (r : Z)
       (n : INVITATION_NODE) (g8 : GAME) (m : GAME_MOVE) (opp : ptr),
       find_node_by_id (invitations_head (the_client c w)) id0 = Some n ->
       Some c = sender (the_invitation (invitation n) w)
       \/ Some c = recipient (the_invitation (invitation n) w) ->
       (if bool_decide (Some c = sender (the_invitation (invitation n) w))
        then recipient (the_invitation (invitation n) w)
        else sender (the_invitation (invitation n) w)) = Some opp ->
       game (the_invitation (invitation n) w) = Some g8 ->
       game_parse_move g8
         (if bool_decide (Some c = sender (the_invitation (invitation n) w))
          then source_role (the_invitation (invitation n) w)
          else target_role (the_invitation (invitation n) w)) mv = Some m ->
       game_apply_move (Some g8) (Some m) = (Some g, 0) ->
       client_make_move c id0 mv w = (r, w') ->
       (r = 0 \/ r = -1)
       /\ (r = 0 ->
           exists w6,
             (forall q, rating <$> players w6 !! q = rating <$> players w !! q)
             /\ w' = snd (player_post_result (player_of w c) (player_of w opp)
                                             0 w6))
       /\ (r = -1 ->
           forall q, rating <$> players w' !! q = rating <$> players w !! q)
       /\ (c <> opp ->
           (exists cn,
              find_node_by_inv (invitations_head (the_client c w)) (invitation n)
              = Some cn /\ node_id cn <> -1) ->
           (exists on,
              find_node_by_inv (invitations_head (the_client opp w)) (invitation n)
              = Some on /\ node_id on <> -1) ->
           write_error (fd (the_client c w)) (broken w) = None ->
           write_error (fd (the_client opp w)) (broken w) = None ->
           r = 0).
Proof.
  intros Hlen Hplay Hw1 Hw2.
  assert (Hgame : terminated g <> 0 /\ winner g = NULL_ROLE
                  /\ game_is_over g = 1
                  /\ game_get_winner (Some g) = NULL_ROLE).
  { destruct (exists_last (l := ms)) as (ms8 & m9 & ->).
    { intros ->. discriminate. }
    rewrite length_app in Hlen. simpl in Hlen.
    rewrite play_app in Hplay.
    destruct (play game_create ms8) as [g8|] eqn:H8; [|discriminate].
    apply play_step in Hplay.
    destruct (game_apply_move_ok _ _ _ Hplay) as (Ht8 & Hn & Hwin & _ & Hend & _).
    assert (Hn8 : num_turns g8 = 8).
    { destruct ms8 as [|m r]; [simpl in Hlen; lia|].
      destruct (play_open _ _ _ H8 ltac:(discriminate)) as [_ ->].
      simpl num_turns. lia. }
    assert (Hw8 : winner g8 = NULL_ROLE).
    { apply (play_no_winner _ _ _ H8); [reflexivity | exact Ht8]. }
    assert (Ht : terminated g <> 0) by (apply Hend; lia).
    assert (Hw : winner g = NULL_ROLE) by (rewrite Hwin; auto).
    split; [exact Ht|]. split; [exact Hw|].
    unfold game_is_over, game_get_winner.
    destruct (terminated g =? 0) eqn:E; [lia|]. split; [reflexivity | exact Hw]. }
  destruct Hgame as (Ht & Hw & Hover & Hgw).
  split; [exact Ht|]. split; [exact Hw|]. split; [exact Hover|].
  split; [exact Hgw|]. split; [rewrite Hgw; reflexivity|].
  split; [rewrite Hgw; reflexivity|].
  clear Hlen Hplay ms.
  intros c id0 mv w w' r n g8 m opp Hn Hparty Hopp Hg Hp Ha Hmv.
  destruct (client_make_move_draw c id0 mv w w' r n g8 m g opp
              Hn Hparty Hopp Hg Hp Ha Hover Hgw Hmv) as (H01 & H0 & H1).
  split; [exact H01|]. split; [exact H0|]. split; [exact H1|].
  intros Hne Hlc Hlo Hwc Hwo.
  pose proof (client_make_move_goes_through c id0 mv w n g8 m g opp
                Hn Hparty Hopp Hg Hp Ha Hover Hne Hlc Hlo Hwc Hwo) as Hr.
  rewrite Hmv in Hr. exact Hr.
Qed.

End Jeux.

(** * The properties at work on examples *)

Lemma game_parse_unparse_move_witness :
  game_parse_move game_create FIRST_PLAYER_ROLE
    (game_unparse_move (mkGAME_MOVE 1 5)) = Some (mkGAME_MOVE 1 5).
Proof.
  apply game_parse_unparse_move.
  - unfold legal_move. simpl. lia.
  - reflexivity.
Defined.

Lemma example_connected_reachable :
  reachable pow10_one example_connected [mkTHREAD 1%nat 0; mkTHREAD 0%nat 0].
Proof.
  eapply (reach_connect pow10_one _ [mkTHREAD 0%nat 0] 5 1%nat).
  - eapply (reach_connect pow10_one _ [] 4 0%nat); [apply reach_init|].
    vm_compute. reflexivity.
  - vm_compute. reflexivity.
Qed.

Lemma example_logged_in_reachable :
  reachable pow10_one (example_logged_in pow10_one)
            [mkTHREAD 1%nat 1; mkTHREAD 0%nat 1].
Proof.
  eapply (reach_frame pow10_one _ [] (mkTHREAD 1%nat 0) [mkTHREAD 0%nat 1]
                      (login_frame "bob") 1).
  - eapply (reach_frame pow10_one _ [mkTHREAD 1%nat 0] (mkTHREAD 0%nat 0) []
                        (login_frame "alice") 1).
    + apply example_connected_reachable.
    + vm_compute. reflexivity.
  - vm_compute. reflexivity.
Qed.

Lemma example_invited_reachable :
  reachable pow10_one (example_invited pow10_one)
            [mkTHREAD 1%nat 1; mkTHREAD 0%nat 1].
Proof.
  eapply (reach_frame pow10_one _ [mkTHREAD 1%nat 1] (mkTHREAD 0%nat 1) []
                      (invite_frame "bob" 2) 1).
  - apply example_logged_in_reachable.
  - vm_compute. reflexivity.
Qed.

Lemma one_reply_per_request_witness :
  exists out s,
    sent (example_logged_in pow10_one)
         (serve pow10_one 0%nat 1 (request_frame JEUX_USERS_PKT 0)
                (example_logged_in pow10_one)) out
    /\ replies_to 0%nat out = [s]
    /\ (refused s = true -> JEUX_USERS_PKT = JEUX_USERS_PKT /\ 1 <> 0)
    /\ (JEUX_USERS_PKT = JEUX_USERS_PKT -> 1 <> 0 ->
        exists text,
          pkt_type (send_hdr s) = JEUX_ACK_PKT
          /\ send_data s = Some text
          /\ (refused s = true <-> strlen text mod 65536 = 0))
    /\ send_result s
       = (if refused s then -1
          else match write_error
                       (fd (the_client 0%nat (example_logged_in pow10_one)))
                       (broken (example_logged_in pow10_one)) with
               | None => 0
               | Some _ => -1
               end).
Proof.
  refine (proj1 (one_reply_per_request pow10_one 0%nat 1
                   (frame_hdr (request_frame JEUX_USERS_PKT 0)) None
                   (example_logged_in pow10_one)) _).
  cbv. split; discriminate.
Defined.

Lemma example_long_name_reachable :
  reachable pow10_one (example_long_name pow10_one)
            [mkTHREAD 1%nat 0; mkTHREAD 0%nat 1].
Proof.
  assert (E : fst (service_frame pow10_one 0%nat 0
                     (frame_hdr (login_frame long_name))
                     (frame_payload (login_frame long_name))
                     example_connected) = 1)
    by (vm_compute; reflexivity).
  unfold example_long_name, serve.
  destruct (service_frame pow10_one 0%nat 0
              (frame_hdr (login_frame long_name))
              (frame_payload (login_frame long_name)) example_connected)
    as [li w'] eqn:E'.
  cbn [fst snd] in *. subst li.
  exact (reach_frame pow10_one _ [mkTHREAD 1%nat 0] (mkTHREAD 0%nat 0) []
                     (login_frame long_name) 1 w'
                     example_connected_reachable E').
Qed.

(** The reply that is not sent: the client that has logged in under the
    long name asks for the listing.  The ACK holds the 65536 characters
    of the listing with a size of 0 in its header, [proto_send_packet]
    refuses it with [errno] 0, and this call is all that the round does
    for the client. *)
Lemma users_reply_refused :
  option_map
    (fun s => (send_to s, pkt_type (send_hdr s), pkt_size (send_hdr s),
               option_map strlen (send_data s), refused s, send_result s))
    (head (wire (serve pow10_one 0%nat 1 (request_frame JEUX_USERS_PKT 0)
                       (example_long_name pow10_one))))
  = Some (0%nat, JEUX_ACK_PKT, 0, Some 65536, true, -1)
  /\ length (wire (serve pow10_one 0%nat 1 (request_frame JEUX_USERS_PKT 0)
                         (example_long_name pow10_one)))
     = S (length (wire (example_long_name pow10_one)))
  /\ errno (serve pow10_one 0%nat 1 (request_frame JEUX_USERS_PKT 0)
                   (example_long_name pow10_one)) = 0.
Proof. vm_compute. repeat split; reflexivity. Qed.

(** C1 as stated fails: a packet of the unused type 0 gets no reply. *)
Lemma no_pkt_gets_no_reply :
  ~ exists out,
      sent example_connected
           (serve pow10_one 0%nat 0 (request_frame JEUX_NO_PKT 0)
                  example_connected) out
      /\ length (replies_to 0%nat out) = 1%nat.
Proof.
  intros (out & Hs & Hl).
  assert (E : serve pow10_one 0%nat 0 (request_frame JEUX_NO_PKT 0)
                    example_connected = example_connected) by reflexivity.
  rewrite E in Hs. unfold sent in Hs.
  change (wire example_connected) with (@nil SEND) in Hs.
  rewrite app_nil_r in Hs. subst out. discriminate Hl.
Qed.

Lemma login_gates_requests_witness :
  (exists w' r,
     service_frame pow10_one 0%nat 0 (mkHDR JEUX_MOVE_PKT 0 0 0) None
                   example_connected = (0, w')
     /\ wire w' = mkSEND 0%nat (make_packet JEUX_NACK_PKT 0) None r
                  :: wire example_connected
     /\ same_objects example_connected w')
  /\ (exists w' reply q,
        service_frame pow10_one 0%nat 0 (frame_hdr (login_frame "alice"))
                      (Some "alice") example_connected = (1, w')
        /\ wire w' = reply :: wire example_connected
        /\ send_to reply = 0%nat
        /\ pkt_type (send_hdr reply) = JEUX_ACK_PKT
        /\ preg_find (preg_head w') "alice" = Some q
        /\ strcmp_eq (username (the_player q w')) "alice" = true
        /\ clients w'
           = alter (with_login 1 (Some q)) 0%nat (clients example_connected)).
Proof.
  split.
  - refine (proj1 (login_gates_requests pow10_one 0%nat
                     (mkHDR JEUX_MOVE_PKT 0 0 0) None example_connected) _).
    cbv. split; discriminate.
  - destruct (proj2 (proj2 (proj2
                (login_gates_requests pow10_one 0%nat
                   (frame_hdr (login_frame "alice")) (Some "alice")
                   example_connected)))
                _ example_connected_reachable eq_refl)
      as (li' & w' & reply & E & Hw & Hto & Hcase).
    change (existsb _ (players_listed example_connected)) with false in Hcase.
    change (negb (logged_in (the_client 0%nat example_connected) =? 0))
      with false in Hcase.
    cbv iota in Hcase.
    destruct Hcase as (-> & Hack & q & Hq & Hn & Hc).
    exists w', reply, q. auto 8.
Defined.

Lemma nine_moves_draw_witness :
  exists g w' w6,
    play game_create example_draw = Some g
    /\ terminated g <> 0 /\ winner g = NULL_ROLE
    /\ client_make_move pow10_one 0%nat 0 "9" (example_before_draw pow10_one)
       = (0, w')
    /\ (forall q, rating <$> players w6 !! q
                  = rating <$> players (example_before_draw pow10_one) !! q)
    /\ w' = snd (player_post_result pow10_one (Some 0%nat) (Some 1%nat) 0 w6).
Proof.
  destruct (play game_create example_draw) as [g|] eqn:E;
    [|vm_compute in E; discriminate].
  assert (Hg : Some g = play game_create example_draw) by (symmetry; exact E).
  vm_compute in Hg. injection Hg as ->.
  destruct (client_make_move pow10_one 0%nat 0 "9"
              (example_before_draw pow10_one)) as [r w'] eqn:Emv.
  destruct (nine_moves_draw pow10_one example_draw _ eq_refl E eq_refl eq_refl)
    as (Ht & Hw & _ & _ & _ & _ & Hpost).
  assert (Hc : player_of (example_before_draw pow10_one) 0%nat = Some 0%nat)
    by (vm_compute; reflexivity).
  assert (Ho : player_of (example_before_draw pow10_one) 1%nat = Some 1%nat)
    by (vm_compute; reflexivity).
  destruct (Hpost 0%nat 0 "9" (example_before_draw pow10_one) w' r
              (mkNODE 0%nat 0)
              (mkGAME 1 8 [1; 2; 1; 1; 2; 2; 2; 1; 0] NULL_ROLE 0 1)
              (mkGAME_MOVE 1 9) 1%nat
              ltac:(vm_compute; reflexivity)
              ltac:(left; vm_compute; reflexivity)
              ltac:(vm_compute; reflexivity)
              ltac:(vm_compute; reflexivity)
              ltac:(vm_compute; reflexivity)
              ltac:(vm_compute; reflexivity)
              Emv) as (_ & H0 & _ & Hgo).
  assert (Hr : r = 0).
  { apply Hgo.
    - discriminate.
    - exists (mkNODE 0%nat 0). split; [vm_compute; reflexivity | discriminate].
    - exists (mkNODE 0%nat 0). split; [vm_compute; reflexivity | discriminate].
    - vm_compute. reflexivity.
    - vm_compute. reflexivity. }
  subst r.
  destruct (H0 eq_refl) as (w6 & Hrat & Hw').
  rewrite Hc, Ho in Hw'.
  eexists _, w', w6. split; [reflexivity|].
  split; [exact Ht|]. split; [exact Hw|]. split; [reflexivity|].
  split; [exact Hrat | exact Hw'].
Defined.

Lemma inv_state_transitions_witness :
  state (the_invitation 0%nat
           (snd (inv_accept (Some 0%nat) (example_invited pow10_one))))
  = INV_ACCEPTED_STATE.
Proof.
  assert (Hx : invitations (example_invited pow10_one) !! 0%nat
               = Some (mkINVITATION 2 (Some 0%nat) (Some 1%nat) FIRST_PLAYER_ROLE
                         SECOND_PLAYER_ROLE None INV_OPEN_STATE))
    by (vm_compute; reflexivity).
  destruct (inv_state_transitions 0%nat _ _ Hx) as [Hacc _].
  destruct (inv_accept (Some 0%nat) (example_invited pow10_one)) as [r w'] eqn:E.
  destruct (Hacc r w' E) as (_ & Hopen & _).
  apply Hopen. reflexivity.
Defined.

Lemma accept_delivers_board_once_witness :
  exists accepted ack w',
    service_frame pow10_one 1%nat 1 (mkHDR JEUX_ACCEPT_PKT 0 0 0) None
                  (example_invited pow10_one) = (1, w')
    /\ wire w' = ack :: accepted :: wire (example_invited pow10_one)
    /\ send_to accepted = 0%nat
    /\ send_data accepted = Some initial_board
    /\ send_to ack = 1%nat
    /\ send_data ack = None.
Proof.
  set (w := example_invited pow10_one).
  set (res := client_accept_invitation 1%nat 0 None w).
  assert (Hacc : client_accept_invitation 1%nat
                   (pkt_id (mkHDR JEUX_ACCEPT_PKT 0 0 0)) None w
                 = ((0, snd (fst res)), snd res)) by (vm_compute; reflexivity).
  destruct (accept_delivers_board_once pow10_one w _ 1%nat 1
              (mkHDR JEUX_ACCEPT_PKT 0 0 0) None _ _
              example_invited_reachable eq_refl ltac:(lia) Hacc)
    as (node & x & src & accepted & ack & w' & Hn & Hx & Hsrc & _ & Hsf & Hw
        & Hto & _ & Hack & _ & Hfirst & _ & Hone).
  exists accepted, ack, w'.
  assert (En : node = mkNODE 0%nat 0).
  { vm_compute in Hn. injection Hn as Hn. symmetry. exact Hn. }
  subst node.
  assert (Ex : x = mkINVITATION 2 (Some 0%nat) (Some 1%nat) FIRST_PLAYER_ROLE
                     SECOND_PLAYER_ROLE None INV_OPEN_STATE).
  { vm_compute in Hx. injection Hx as Hx. symmetry. exact Hx. }
  subst x. simpl in Hsrc. injection Hsrc as <-.
  assert (Hd : send_data accepted = Some initial_board)
    by (apply Hfirst; reflexivity).
  destruct Hone as [[_ Hnone] | [Hnone _]]; [|congruence].
  repeat split; assumption.
Defined.

Lemma ids_lowest_and_distinct_witness :
  ids_distinct (example_invited pow10_one).
Proof.
  apply (ids_lowest_and_distinct pow10_one _ _ example_invited_reachable).
Defined.

Lemma client_logout_twice_witness :
  exists w1 w2,
    client_logout pow10_one 0%nat (example_logged_in pow10_one) = (0, w1)
    /\ client_logout pow10_one 0%nat w1 = (0, w2)
    /\ player_ref_count (the_player 0%nat w1) = 2
    /\ player_ref_count (the_player 0%nat w2) = 1.
Proof.
  destruct (client_logout_twice pow10_one 0%nat (example_logged_in pow10_one)
              (mkCLIENT 4 1 1 (Some 0%nat) []) 0%nat
              (mkPLAYER "alice" (1500 # 1) 3))
    as (w1 & w2 & H1 & H2 & _ & R1 & R2);
    try (vm_compute; reflexivity); try (simpl; lia).
  exists w1, w2. auto.
Defined.

Lemma client_make_invitation_keeps_handle_witness :
  exists w' id,
    client_make_invitation 0%nat (Some 1%nat) FIRST_PLAYER_ROLE
      SECOND_PLAYER_ROLE
      (set_node_mallocs [true; false] (example_logged_in pow10_one)) = (-1, w')
    /\ invitations_head (the_client 0%nat w') = [mkNODE 0%nat id]
    /\ invitations_head (the_client 1%nat w') = [].
Proof.
  destruct (client_make_invitation_keeps_handle 0%nat 1%nat FIRST_PLAYER_ROLE
              SECOND_PLAYER_ROLE
              (set_node_mallocs [true; false] (example_logged_in pow10_one))
              (mkCLIENT 4 1 1 (Some 0%nat) []) [])
    as (w' & id & H & _ & _ & Hh & Ho);
    try (vm_compute; reflexivity).
  exists w', id. split; [exact H|]. split; [exact Hh|].
  rewrite (Ho 1%nat) by discriminate. vm_compute. reflexivity.
Defined.

Lemma no_self_invitation_witness :
  exists w' nack,
    service_frame pow10_one 0%nat 1 (frame_hdr (invite_frame "alice" 1))
                  (Some "alice") (example_logged_in pow10_one) = (1, w')
    /\ wire w' = nack :: wire (example_logged_in pow10_one)
    /\ pkt_type (send_hdr nack) = JEUX_NACK_PKT
    /\ invitations w' = invitations (example_logged_in pow10_one).
Proof.
  destruct (no_self_invitation pow10_one _ _ example_logged_in_reachable)
    as [_ H].
  set (res := creg_lookup (Some "alice") (example_logged_in pow10_one)).
  assert (Hl : creg_lookup (Some "alice") (example_logged_in pow10_one)
               = (Some 0%nat, snd res)) by (vm_compute; reflexivity).
  destruct (H 0%nat 1 (frame_hdr (invite_frame "alice" 1)) (Some "alice") _
              eq_refl Hl) as (w' & nack & Hsf & Hw & _ & Ht & Hi & _).
  exists w', nack. auto.
Defined.


(** ** game.c *)

Lemma game_parse_move_sound_witness :
  legal_move (mkGAME_MOVE 1 5)
  /\ role_out_of_turn game_create FIRST_PLAYER_ROLE = false
  /\ (strlen "5" = 1 \/ strlen "5" = 4)
  /\ move_square (mkGAME_MOVE 1 5) = str_at "5" 0 - 48
  /\ (strlen "5" = 1 ->
      move_player (mkGAME_MOVE 1 5)
      = if decide (FIRST_PLAYER_ROLE = FIRST_PLAYER_ROLE) then 1 else 2).
Proof.
  apply (game_parse_move_sound game_create FIRST_PLAYER_ROLE "5").
  reflexivity.
Defined.

Lemma game_parse_move_rejects_witness :
  game_parse_move game_create FIRST_PLAYER_ROLE "10" = None.
Proof.
  apply game_parse_move_rejects. left. split; discriminate.
Defined.

Lemma game_apply_move_effect_witness :
  exists g1,
    game_apply_move (Some game_create) (Some (mkGAME_MOVE 1 5)) = (Some g1, 0)
    /\ board g1 = [0; 0; 0; 0; 1; 0; 0; 0; 0]
    /\ turn_X g1 = 0 /\ num_turns g1 = 1.
Proof.
  destruct (game_apply_move_effect game_create (mkGAME_MOVE 1 5) _ 0 eq_refl)
    as [[H _] | (_ & g1 & Hg & _ & _ & _ & _ & _ & Hb & Ht & Hn)].
  - discriminate.
  - exists g1. rewrite <- Hg. repeat split; assumption.
Defined.


Lemma example_win_legal : Forall legal_move example_win.
Proof. repeat (constructor; [unfold legal_move; cbn; lia|]). constructor. Qed.

Lemma game_result_sound_witness :
  exists g, play game_create example_win = Some g
            /\ game_is_over g = 1
            /\ game_get_winner (Some g) = FIRST_PLAYER_ROLE.
Proof.
  destruct (play game_create example_win) as [g|] eqn:E;
    [|vm_compute in E; discriminate].
  exists g. split; [reflexivity|].
  assert (Hg : Some g = play game_create example_win) by (symmetry; exact E).
  vm_compute in Hg. injection Hg as ->.
  destruct (game_result_sound example_win _ example_win_legal E)
    as [(H & _) | (H & [(Hw & _) | [(_ & Hc & _) | (_ & Hc & _)]])].
  - vm_compute in H. discriminate H.
  - split; assumption.
  - vm_compute in Hc. discriminate Hc.
  - vm_compute in Hc. discriminate Hc.
Defined.

Lemma play_at_most_nine_witness :
  (length example_draw <= 9)%nat.
Proof.
  destruct (play game_create example_draw) as [g|] eqn:E;
    [|vm_compute in E; discriminate].
  exact (proj1 (play_at_most_nine example_draw g E)).
Defined.

Lemma players_alternate_witness :
  exists g, play game_create example_win = Some g /\ turn_X g = 0.
Proof.
  destruct (play game_create example_win) as [g|] eqn:E;
    [|vm_compute in E; discriminate].
  exists g. split; [reflexivity|].
  exact (proj2 (players_alternate example_win g example_win_legal E)).
Defined.

Lemma game_resign_effect_witness :
  exists g', game_resign (Some game_create) SECOND_PLAYER_ROLE = (Some g', 0)
             /\ game_get_winner (Some g') = FIRST_PLAYER_ROLE.
Proof.
  destruct (proj1 (game_resign_effect game_create SECOND_PLAYER_ROLE) eq_refl)
    as (g' & H & _ & _ & Hw & _).
  exists g'. split; assumption.
Defined.


(** ** protocol.c, player.c and the registries *)

Lemma client_send_packet_result_witness :
  fst (client_send_ack (Some 0%nat) (Some "") 0 example_connected) = -1.
Proof.
  destruct (fst (client_send_ack (Some 0%nat) (Some "") 0 example_connected) =? 0)
    eqn:E.
  - apply Z.eqb_eq in E.
    apply (proj1 (proj2 (client_send_packet_result 0%nat
                           (make_packet JEUX_ACK_PKT 0) (Some "")
                           example_connected)) 0) in E.
    destruct E as [[E _] _]. discriminate (E eq_refl).
  - vm_compute. reflexivity.
Defined.


Lemma preg_register_effect_witness :
  exists q,
    fst (preg_register "alice" initial_world) = Some q
    /\ preg_find (preg_head (snd (preg_register "alice" initial_world))) "alice"
       = Some q.
Proof.
  destruct (preg_register "alice" initial_world) as [r w'] eqn:E.
  destruct (preg_register_effect _ _ _ _ E) as (q & -> & Hf & _).
  exists q. split; [reflexivity | exact Hf].
Defined.

Lemma creg_register_effect_witness :
  creg_register 4 example_connected = (None, example_connected).
Proof.
  apply creg_register_effect. left. exists 0%nat.
  split; [vm_compute; repeat constructor | vm_compute; reflexivity].
Defined.

Lemma creg_lookup_sound_witness :
  fst (creg_lookup (Some "bob") (example_logged_in pow10_one)) = Some 1%nat
  /\ 1%nat ∈ creg_head (example_logged_in pow10_one).
Proof.
  destruct (creg_lookup (Some "bob") (example_logged_in pow10_one))
    as [r w'] eqn:E.
  assert (Hr : r = Some 1%nat).
  { apply (f_equal fst) in E. vm_compute in E. symmetry. exact E. }
  split; [exact Hr|].
  pose proof (proj2 (creg_lookup_sound _ _ _ _ E)) as H.
  rewrite Hr in H. exact (proj1 H).
Defined.

Lemma users_walk_size_witness :
  strlen (default "" (snd (fst (fst
    (users_walk [0%nat; 1%nat] 0 None 0 example_two_players))))) = 20.
Proof.
  destruct (users_walk [0%nat; 1%nat] 0 None 0 example_two_players)
    as [[[t s] i] w'] eqn:E.
  destruct (users_walk_size _ _ _ _ _ _ E) as (_ & Ht & _).
  cbn [fst snd]. rewrite <- Ht.
  apply (f_equal fst) in E. vm_compute in E.
  injection E as <- _ <-. reflexivity.
Defined.


(** ** client.c and the server as a whole *)

Lemma invitations_only_advance_witness :
  exists x',
    invitations (serve pow10_one 1%nat 1 (request_frame JEUX_ACCEPT_PKT 0)
                       (example_invited pow10_one)) !! 0%nat = Some x'
    /\ sender x' = Some 0%nat /\ recipient x' = Some 1%nat.
Proof.
  assert (Hx : invitations (example_invited pow10_one) !! 0%nat
               = Some (mkINVITATION 2 (Some 0%nat) (Some 1%nat) FIRST_PLAYER_ROLE
                         SECOND_PLAYER_ROLE None INV_OPEN_STATE))
    by (vm_compute; reflexivity).
  destruct (proj1 (invitations_only_advance pow10_one (example_invited pow10_one))
              1%nat 1 (frame_hdr (request_frame JEUX_ACCEPT_PKT 0)) None
              0%nat _ Hx) as (x' & Hx' & Hs & Hr & _).
  exists x'. split; [exact Hx'|]. split; assumption.
Defined.

Lemma logged_in_is_never_cleared_witness :
  exists cl',
    clients (snd (service_end pow10_one 0%nat 1 (example_logged_in pow10_one)))
      !! 0%nat = Some cl'
    /\ logged_in cl' <> 0.
Proof.
  destruct (clients (example_logged_in pow10_one) !! 0%nat) as [cl|] eqn:Hc;
    [|vm_compute in Hc; discriminate].
  assert (Hl : logged_in cl <> 0).
  { assert (H := Hc). vm_compute in H. injection H as <-. discriminate. }
  destruct (proj1 (proj2 (logged_in_is_never_cleared pow10_one
                            (example_logged_in pow10_one)))
              0%nat 1 0%nat cl Hc) as (cl' & Hc' & _ & Hli).
  exists cl'. split; [exact Hc' | exact (Hli Hl)].
Defined.

Lemma client_add_remove_invitation_witness :
  exists w2,
    client_remove_invitation (Some 0%nat) (Some 0%nat)
      (snd (client_add_invitation (Some 0%nat) (Some 0%nat)
              (example_invited pow10_one))) = (1, w2)
    /\ clients w2 = clients (example_invited pow10_one).
Proof.
  set (w := example_invited pow10_one).
  destruct (clients w !! 0%nat) as [cl|] eqn:Hc;
    [|vm_compute in Hc; discriminate].
  assert (Hx : invitations w !! 0%nat
               = Some (mkINVITATION 2 (Some 0%nat) (Some 1%nat) FIRST_PLAYER_ROLE
                         SECOND_PLAYER_ROLE None INV_OPEN_STATE))
    by (vm_compute; reflexivity).
  destruct (client_add_invitation (Some 0%nat) (Some 0%nat) w) as [n w1] eqn:E.
  assert (Hn : n = 1).
  { apply (f_equal fst) in E. vm_compute in E. symmetry. exact E. }
  subst n.
  destruct (proj1 (client_add_remove_invitation 0%nat 0%nat cl _ w w1 1
                     Hc Hx ltac:(discriminate) E) ltac:(discriminate))
    as (_ & w2 & H2 & Hcl & _).
  exists w2. split; [exact H2 | exact Hcl].
Defined.

Lemma client_revoke_invitation_ok_witness :
  exists tid,
    wire (snd (client_revoke_invitation 0%nat 0 (example_invited pow10_one)))
    = mkSEND 1%nat (with_pkt_id tid (make_packet JEUX_REVOKED_PKT 0)) None 0
        :: wire (example_invited pow10_one).
Proof.
  set (w := example_invited pow10_one).
  destruct (client_revoke_invitation 0%nat 0 w) as [r w'] eqn:E.
  assert (Hr : r = 0).
  { apply (f_equal fst) in E. vm_compute in E. symmetry. exact E. }
  subst r.
  destruct (client_revoke_invitation_ok _ _ _ _ E)
    as (n & t & tid & Hn & _ & Ht & _ & Hw & _).
  assert (En : n = mkNODE 0%nat 0).
  { vm_compute in Hn. injection Hn as Hn. symmetry. exact Hn. }
  subst n.
  assert (Et : t = 1%nat).
  { vm_compute in Ht. injection Ht as Ht. symmetry. exact Ht. }
  subst t. exists tid. exact Hw.
Defined.

Lemma client_decline_invitation_ok_witness :
  exists sid,
    wire (snd (client_decline_invitation 1%nat 0 (example_invited pow10_one)))
    = mkSEND 0%nat (with_pkt_id sid (make_packet JEUX_DECLINED_PKT 0)) None 0
        :: wire (example_invited pow10_one).
Proof.
  set (w := example_invited pow10_one).
  destruct (client_decline_invitation 1%nat 0 w) as [r w'] eqn:E.
  assert (Hr : r = 0).
  { apply (f_equal fst) in E. vm_compute in E. symmetry. exact E. }
  subst r.
  destruct (client_decline_invitation_ok _ _ _ _ E)
    as (n & s & sid & Hn & _ & Hs & _ & Hw & _).
  assert (En : n = mkNODE 0%nat 0).
  { vm_compute in Hn. injection Hn as Hn. symmetry. exact Hn. }
  subst n.
  assert (Es : s = 0%nat).
  { vm_compute in Hs. injection Hs as Hs. symmetry. exact Hs. }
  subst s. exists sid. exact Hw.
Defined.


(** ** Listings, invitations and moves *)

Lemma creg_all_players_lists_witness :
  fst (creg_all_players (example_logged_in pow10_one)) = [1%nat; 0%nat].
Proof.
  destruct (creg_all_players (example_logged_in pow10_one)) as [l w'] eqn:E.
  destruct (creg_all_players_lists _ _ _ E) as (Hl & _).
  cbn [fst]. rewrite Hl. vm_compute. reflexivity.
Defined.

Lemma login_name_check_pure_witness :
  check_if_other_clients_logged_in_with_same_name "alice"
    (example_logged_in pow10_one)
  = (1, example_logged_in pow10_one).
Proof.
  destruct (check_if_other_clients_logged_in_with_same_name "alice"
              (example_logged_in pow10_one)) as [r w'] eqn:E.
  destruct (login_name_check_pure _ _ _ _ E) as (-> & Hr & _).
  rewrite Hr. vm_compute. reflexivity.
Defined.

Lemma client_make_invitation_ok_witness :
  invitations
    (snd (client_make_invitation 0%nat (Some 1%nat) FIRST_PLAYER_ROLE
            SECOND_PLAYER_ROLE (example_logged_in pow10_one)))
    !! fresh (dom (invitations (example_logged_in pow10_one)))
  = Some (mkINVITATION 2 (Some 0%nat) (Some 1%nat) FIRST_PLAYER_ROLE
            SECOND_PLAYER_ROLE None INV_OPEN_STATE).
Proof.
  set (w := example_logged_in pow10_one).
  destruct (clients w !! 0%nat) as [cls|] eqn:Hs;
    [|vm_compute in Hs; discriminate].
  destruct (clients w !! 1%nat) as [clt|] eqn:Ht;
    [|vm_compute in Ht; discriminate].
  destruct (client_make_invitation 0%nat (Some 1%nat) FIRST_PLAYER_ROLE
              SECOND_PLAYER_ROLE w) as [r w'] eqn:E.
  assert (Hr : r = 0).
  { apply (f_equal fst) in E. vm_compute in E. symmetry. exact E. }
  destruct (client_make_invitation_ok _ _ _ _ _ _ _ _ _ Hs Ht
              ltac:(discriminate) E ltac:(rewrite Hr; discriminate))
    as (tid & _ & _ & _ & _ & _ & _ & Hx & _).
  exact Hx.
Defined.

Lemma client_make_move_refused_witness :
  client_make_move pow10_one 0%nat 0 "5" (example_invited pow10_one)
  = (-1, example_invited pow10_one).
Proof.
  refine (proj2 (client_make_move_refused pow10_one 0%nat 0 "5"
                   (example_invited pow10_one))
                (mkNODE 0%nat 0) game_create _ _).
  - vm_compute. reflexivity.
  - left. vm_compute. reflexivity.
Defined.

Lemma client_make_move_ok_witness :
  exists n g m g',
    find_node_by_id
      (invitations_head (the_client 0%nat (example_accepted pow10_one))) 0
    = Some n
    /\ game (the_invitation (invitation n) (example_accepted pow10_one)) = Some g
    /\ game_apply_move (Some g) (Some m) = (Some g', 0).
Proof.
  set (w := example_accepted pow10_one).
  destruct (client_make_move pow10_one 0%nat 0 "5" w) as [r w'] eqn:E.
  assert (Hr : r = 0).
  { apply (f_equal fst) in E. vm_compute in E. symmetry. exact E. }
  subst r.
  destruct (client_make_move_ok pow10_one _ _ _ _ _ E)
    as (n & g & m & g' & Hn & Hg & _ & _ & Ha & _).
  exists n, g, m, g'. auto.
Defined.



Lemma client_make_invitation_empty_name_witness :
  fst (client_make_invitation 0%nat (Some 1%nat) FIRST_PLAYER_ROLE
         SECOND_PLAYER_ROLE (example_unnamed pow10_one)) = -1.
Proof.
  apply (client_make_invitation_empty_name 0%nat (Some 1%nat) FIRST_PLAYER_ROLE
           SECOND_PLAYER_ROLE (example_unnamed pow10_one) 0%nat).
  - vm_compute. reflexivity.
  - vm_compute. reflexivity.
Defined.



Lemma users_reply_buffer_witness :
  users_nul_index
    (fst (fst (fst (users_walk [0%nat; 1%nat] 0 None 0 example_two_players))))
  < users_buffer_size
      (fst (fst (fst (users_walk [0%nat; 1%nat] 0 None 0 example_two_players))))
      (snd (fst (users_walk [0%nat; 1%nat] 0 None 0 example_two_players))).
Proof.
  destruct (users_walk [0%nat; 1%nat] 0 None 0 example_two_players)
    as [[[t s] i] w'] eqn:E.
  cbn [fst snd].
  apply (proj2 (users_reply_buffer _ _ _ _ _ _ E)). cbn [length]. lia.
Defined.

Lemma login_needs_free_name_witness :
  existsb (fun p => strcmp_eq (username (the_player p example_connected)) "alice")
          (players_listed example_connected) = false
  /\ logged_in (the_client 0%nat example_connected) = 0.
Proof.
  destruct (service_frame pow10_one 0%nat 0 (frame_hdr (login_frame "alice"))
              (Some "alice") example_connected) as [li w'] eqn:E.
  assert (Hli : li = 1).
  { apply (f_equal fst) in E. vm_compute in E. symmetry. exact E. }
  subst li.
  exact (login_needs_free_name pow10_one 0%nat
           (frame_hdr (login_frame "alice")) (Some "alice") example_connected w'
           eq_refl E).
Defined.
